(** * Oil-drilling data platform: the Excel ingestion pipeline and the chat fallback

    A shallow embedding of [server/index.js]: the structure validator
    ([validateExcelStructure]), the row transformer ([processExcelData]), the
    statistics of the upload route, the upload and chat routes themselves and
    the rule-based fallback responder, followed by the properties the
    specification states about them.

    JavaScript numbers are IEEE-754 binary64 values, so they are modelled by
    Rocq's primitive floats, whose operations are exactly the binary64 ones;
    strings are [string]s of code units below 256. *)

From Stdlib Require Import ZArith List String Ascii Bool Lia Floats DecimalString.
Import ListNotations.

Set Warnings "-inexact-float,-register-all".
Set Implicit Arguments.

Local Open Scope list_scope.
Local Open Scope string_scope.

(** ** The JavaScript runtime the server code relies on *)

Module JS.

(** *** Numbers *)

Definition NaN : float := nan.
Definition Infinity : float := infinity.

(** [x > y] and [x < y] on numbers ([false] as soon as one side is NaN). *)
Definition gt (x y : float) : bool := (y <? x)%float.
Definition lt (x y : float) : bool := (x <? y)%float.

(** A number is falsy exactly when it is [+0], [-0] or [NaN]. *)
Definition truthy_num (x : float) : bool :=
  negb (PrimFloat.is_nan x || (x =? 0)%float).

(** The double nearest to the positive rational [p / q] (ties to even). *)
Definition float_of_ratio (p q : positive) : float :=
  SF2Prim (SFdiv prec emax (S754_finite false p 0) (S754_finite false q 0)).

(** The double nearest to [m * 10 ^ e], with the sign [neg]. *)
Definition float_of_decimal (neg : bool) (m : Z) (e : Z) : float :=
  let magnitude :=
    match m with
    | Zpos p =>
        match e with
        | Zneg k => float_of_ratio p (Pos.pow 10 k)
        | Z0 => float_of_ratio p 1
        | Zpos k => float_of_ratio (p * Pos.pow 10 k) 1
        end
    | _ => 0%float
    end in
  if neg then (- magnitude)%float else magnitude.

(** The exact value of a positive finite double as a fraction. *)
Definition ratio_of_float (x : float) : option (positive * positive) :=
  match Prim2SF x with
  | S754_finite _ m e =>
      match e with
      | Zneg k => Some (m, Pos.pow 2 k)
      | Z0 => Some (m, 1%positive)
      | Zpos k => Some ((m * Pos.pow 2 k)%positive, 1%positive)
      end
  | _ => None
  end.

(** *** Strings *)

Definition chars (s : string) : list ascii := list_ascii_of_string s.
Definition str (l : list ascii) : string := string_of_list_ascii l.

Definition string_of_Z (n : Z) : string :=
  match n with
  | Zneg p => "-" ++ NilZero.string_of_uint (Pos.to_uint p)
  | _ => NilZero.string_of_uint (N.to_uint (Z.to_N n))
  end.

Definition string_of_nat (n : nat) : string := string_of_Z (Z.of_nat n).

Fixpoint repeat_string (n : nat) (s : string) : string :=
  match n with O => "" | S k => s ++ repeat_string k s end.

(** [Array.prototype.join]. *)
Fixpoint join (sep : string) (l : list string) : string :=
  match l with
  | [] => ""
  | [x] => x
  | x :: rest => x ++ sep ++ join sep rest
  end.

Fixpoint prefix_of (p s : list ascii) : bool :=
  match p, s with
  | [], _ => true
  | a :: p', b :: s' => Ascii.eqb a b && prefix_of p' s'
  | _ :: _, [] => false
  end.

Fixpoint includes_chars (s p : list ascii) : bool :=
  prefix_of p s || match s with [] => false | _ :: s' => includes_chars s' p end.

(** [String.prototype.includes]. *)
Definition includes (s p : string) : bool := includes_chars (chars s) (chars p).

(** [Array.prototype.includes] on an array of strings. *)
Definition array_includes (l : list string) (x : string) : bool :=
  existsb (String.eqb x) l.

Definition lower_char (c : ascii) : ascii :=
  let n := nat_of_ascii c in
  if ((65 <=? n) && (n <=? 90))%nat then ascii_of_nat (n + 32)
  else if ((192 <=? n) && (n <=? 222) && negb (n =? 215))%nat then ascii_of_nat (n + 32)
  else c.

(** [String.prototype.toLowerCase]. *)
Definition toLowerCase (s : string) : string := str (map lower_char (chars s)).

(** *** Conversions between strings and numbers *)

Definition digit_of (c : ascii) : option Z :=
  let n := nat_of_ascii c in
  if ((48 <=? n) && (n <=? 57))%nat then Some (Z.of_nat (n - 48)) else None.

(** The longest run of decimal digits at the head of [l]: its value on top of
    [acc], the number of digits read, and what follows them. *)
Fixpoint read_digits (l : list ascii) (acc : Z) (count : nat) : Z * nat * list ascii :=
  match l with
  | c :: l' =>
      match digit_of c with
      | Some d => read_digits l' (10 * acc + d) (S count)
      | None => (acc, count, l)
      end
  | [] => (acc, count, l)
  end.

(** An [ExponentPart], read only when at least one digit follows the [e]. *)
Definition read_exponent (l : list ascii) : Z * list ascii :=
  match l with
  | c :: l1 =>
      if (Ascii.eqb c "e" || Ascii.eqb c "E")%char then
        let '(neg, l2) :=
          match l1 with
          | "+"%char :: r => (false, r)
          | "-"%char :: r => (true, r)
          | _ => (false, l1)
          end in
        let '(v, n, rest) := read_digits l2 0 0 in
        if (n =? 0)%nat then (0%Z, l) else ((if neg then - v else v)%Z, rest)
      else (0%Z, l)
  | [] => (0%Z, l)
  end.

(** The longest [StrUnsignedDecimalLiteral] (digits only) at the head of [l],
    as mantissa and power of ten, with what follows it. *)
Definition read_unsigned_decimal (l : list ascii) : option (Z * Z * list ascii) :=
  let '(ip, ni, l1) := read_digits l 0 0 in
  let '(m, nf, l2) :=
    match l1 with
    | "."%char :: r => read_digits r ip 0
    | _ => (ip, O, l1)
    end in
  if (ni + nf =? 0)%nat then None
  else let '(e, l3) := read_exponent l2 in Some (m, (e - Z.of_nat nf)%Z, l3).

Definition is_space (c : ascii) : bool :=
  let n := nat_of_ascii c in
  (((9 <=? n) && (n <=? 13)) || (n =? 32) || (n =? 160))%nat.

Fixpoint skip_spaces (l : list ascii) : list ascii :=
  match l with
  | c :: l' => if is_space c then skip_spaces l' else l
  | [] => []
  end.

Definition read_sign (l : list ascii) : bool * list ascii :=
  match l with
  | "+"%char :: r => (false, r)
  | "-"%char :: r => (true, r)
  | _ => (false, l)
  end.

Definition infinity_chars : list ascii := chars "Infinity".

(** The global [parseFloat] applied to a string: leading white space is
    skipped and the longest prefix that is a decimal literal is converted;
    [NaN] when there is none. *)
Definition parseFloat_string (s : string) : float :=
  let '(neg, l) := read_sign (skip_spaces (chars s)) in
  if prefix_of infinity_chars l then (if neg then neg_infinity else infinity)
  else match read_unsigned_decimal l with
       | Some (m, e, _) => float_of_decimal neg m e
       | None => NaN
       end.

Definition digit_in_base (base : Z) (c : ascii) : option Z :=
  let n := Z.of_nat (nat_of_ascii c) in
  let d := (if (48 <=? n) && (n <=? 57) then n - 48
            else if (97 <=? n) && (n <=? 102) then n - 87
            else if (65 <=? n) && (n <=? 70) then n - 55
            else 99)%Z in
  if (d <? base)%Z then Some d else None.

Fixpoint read_in_base (base : Z) (l : list ascii) (acc : Z) : option Z :=
  match l with
  | [] => Some acc
  | c :: l' =>
      match digit_in_base base c with
      | Some d => read_in_base base l' (base * acc + d)%Z
      | None => None
      end
  end.

Definition trim (l : list ascii) : list ascii :=
  rev (skip_spaces (rev (skip_spaces l))).

(** [ToNumber] applied to a string ([StringToNumber]): the whole trimmed
    string has to be a numeric literal; the empty string is [0]. *)
Definition StringToNumber (s : string) : float :=
  let l := trim (chars s) in
  match l with
  | [] => 0%float
  | "0"%char :: c :: d :: r =>
      let base := (if (Ascii.eqb c "x" || Ascii.eqb c "X")%char then 16
                   else if (Ascii.eqb c "o" || Ascii.eqb c "O")%char then 8
                   else if (Ascii.eqb c "b" || Ascii.eqb c "B")%char then 2
                   else 0)%Z in
      if (base =? 0)%Z then
        match read_unsigned_decimal l with
        | Some (m, e, []) => float_of_decimal false m e
        | _ => NaN
        end
      else match read_in_base base (d :: r) 0 with
           | Some n => float_of_decimal false n 0
           | None => NaN
           end
  | _ =>
      let '(neg, l') := read_sign l in
      if list_eq_dec Ascii.ascii_dec l' infinity_chars
      then (if neg then neg_infinity else infinity)
      else match read_unsigned_decimal l' with
           | Some (m, e, []) => float_of_decimal neg m e
           | _ => NaN
           end
  end.

(** [p / q < 10 ^ n]. *)
Definition below_pow10 (p q : positive) (n : Z) : bool :=
  match n with
  | Zneg k => (p * Pos.pow 10 k <? q)%positive
  | Z0 => (p <? q)%positive
  | Zpos k => (p <? q * Pos.pow 10 k)%positive
  end.

(** The least [n], from [n] upwards, with [p / q < 10 ^ n]. *)
Fixpoint decimal_exponent (fuel : nat) (n : Z) (p q : positive) : Z :=
  match fuel with
  | O => n
  | S fuel' => if below_pow10 p q n then n else decimal_exponent fuel' (n + 1) p q
  end.

(** [floor ((p / q) * 10 ^ j)]. *)
Definition scaled_floor (p q : positive) (j : Z) : Z :=
  match j with
  | Zneg k => (Zpos p / Zpos (q * Pos.pow 10 k))%Z
  | Z0 => (Zpos p / Zpos q)%Z
  | Zpos k => (Zpos (p * Pos.pow 10 k) / Zpos q)%Z
  end.

(** [(p / q) * 10 ^ j] compared with the half-way point [s + 1/2]. *)
Definition compare_half (p q : positive) (j : Z) (s : Z) : comparison :=
  match j with
  | Zneg k => (2 * Zpos p ?= (2 * s + 1) * Zpos (q * Pos.pow 10 k))%Z
  | Z0 => (2 * Zpos p ?= (2 * s + 1) * Zpos q)%Z
  | Zpos k => (2 * Zpos (p * Pos.pow 10 k) ?= (2 * s + 1) * Zpos q)%Z
  end.

(** The digits of [Number::toString]: the least [k] (from [k] upwards) for
    which some [k]-digit [s] has [s * 10 ^ (n - k)] round to [x], and of the
    candidates the one closest to [x]. *)
Fixpoint shortest_digits (fuel : nat) (k : Z) (n : Z) (p q : positive) (x : float) : Z * Z :=
  let lo := scaled_floor p q (k - n) in
  let hi := (lo + 1)%Z in
  let ok_lo := (0 <? lo)%Z && (float_of_decimal false lo (n - k) =? x)%float in
  let ok_hi := (float_of_decimal false hi (n - k) =? x)%float in
  let pick :=
    match compare_half p q (k - n) lo with
    | Lt => lo
    | Gt => hi
    | Eq => if Z.even lo then lo else hi
    end in
  match fuel with
  | O => (pick, k)
  | S fuel' =>
      if ok_lo && ok_hi then (pick, k)
      else if ok_lo then (lo, k)
      else if ok_hi then (hi, k)
      else shortest_digits fuel' (k + 1) n p q x
  end.

Definition take_string (n : nat) (s : string) : string := str (firstn n (chars s)).
Definition drop_string (n : nat) (s : string) : string := str (skipn n (chars s)).

(** [Number::toString] on a positive finite double. *)
Definition positive_to_string (x : float) : string :=
  match ratio_of_float x with
  | None => ""
  | Some (p, q) =>
      let n0 := decimal_exponent 640 (-324) p q in
      let '(s0, k) := shortest_digits 16 1 n0 p q x in
      let '(s, n) := if (s0 =? 10 ^ k)%Z then ((s0 / 10)%Z, (n0 + 1)%Z) else (s0, n0) in
      let digits := string_of_Z s in
      if ((k <=? n) && (n <=? 21))%Z then digits ++ repeat_string (Z.to_nat (n - k)) "0"
      else if ((0 <? n) && (n <=? 21))%Z then
        take_string (Z.to_nat n) digits ++ "." ++ drop_string (Z.to_nat n) digits
      else if ((-6 <? n) && (n <=? 0))%Z then
        "0." ++ repeat_string (Z.to_nat (- n)) "0" ++ digits
      else
        let e := (n - 1)%Z in
        let exponent := (if (e <? 0)%Z then "-" else "+") ++ string_of_Z (Z.abs e) in
        if (k =? 1)%Z then digits ++ "e" ++ exponent
        else take_string 1 digits ++ "." ++ drop_string 1 digits ++ "e" ++ exponent
  end.

(** [Number::toString] (radix 10). *)
Definition NumberToString (x : float) : string :=
  if PrimFloat.is_nan x then "NaN"
  else if (x =? 0)%float then "0"
  else if (x =? infinity)%float then "Infinity"
  else if (x =? neg_infinity)%float then "-Infinity"
  else if (x <? 0)%float then "-" ++ positive_to_string (- x)%float
  else positive_to_string x.

(** [Number.prototype.toFixed] with [f] fraction digits: the integer [n]
    with [n / 10 ^ f] closest to the exact value of [x], the larger one on a
    tie, printed with the decimal point [f] digits from the right. *)
Definition toFixed (x : float) (f : nat) : string :=
  if PrimFloat.is_nan x then "NaN"
  else if (x =? infinity)%float then "Infinity"
  else if (x =? neg_infinity)%float then "-Infinity"
  else if (1e21 <=? abs x)%float then NumberToString x
  else
    let n :=
      match ratio_of_float x with
      | Some (p, q) => ((2 * Zpos p * 10 ^ Z.of_nat f + Zpos q) / (2 * Zpos q))%Z
      | None => 0%Z
      end in
    let digits := string_of_Z n in
    let padded := repeat_string (S f - String.length digits) "0" ++ digits in
    let k := (String.length padded - f)%nat in
    (if (x <? 0)%float then "-" else "")
    ++ take_string k padded
    ++ (if (f =? 0)%nat then "" else "." ++ drop_string k padded).

End JS.

(** ** Values, records and completions *)

(** The primitive values a spreadsheet cell or a JSON leaf can hold;
    [VUndefined] is what reading an absent key gives. *)
Inductive value : Type :=
  | VUndefined
  | VNull
  | VBool (b : bool)
  | VNum (x : float)
  | VStr (s : string).

(** An object with primitive fields, its keys in insertion order. *)
Definition object : Type := list (string * value).

(** One spreadsheet row keyed by the header row. *)
Definition RawRecord : Type := object.

Fixpoint lookup {A : Type} (k : string) (o : list (string * A)) : option A :=
  match o with
  | [] => None
  | (k', v) :: rest => if String.eqb k k' then Some v else lookup k rest
  end.

(** [o[k]]. *)
Definition get (o : object) (k : string) : value :=
  match lookup k o with Some v => v | None => VUndefined end.

(** [Object.keys(o)]. *)
Definition keys {A : Type} (o : list (string * A)) : list string := map fst o.

(** [o[k] = v]: an existing key keeps its place. *)
Fixpoint set {A : Type} (o : list (string * A)) (k : string) (v : A) : list (string * A) :=
  match o with
  | [] => [(k, v)]
  | (k', v') :: rest => if String.eqb k k' then (k, v) :: rest else (k', v') :: set rest k v
  end.

Definition truthy (v : value) : bool :=
  match v with
  | VUndefined | VNull => false
  | VBool b => b
  | VNum x => JS.truthy_num x
  | VStr s => negb (s =? "")
  end.

Definition ToNumber (v : value) : float :=
  match v with
  | VUndefined => JS.NaN
  | VNull => 0%float
  | VBool b => if b then 1%float else 0%float
  | VNum x => x
  | VStr s => JS.StringToNumber s
  end.

Definition ToString (v : value) : string :=
  match v with
  | VUndefined => "undefined"
  | VNull => "null"
  | VBool b => if b then "true" else "false"
  | VNum x => JS.NumberToString x
  | VStr s => s
  end.

(** [a || b]. *)
Definition js_or (a b : value) : value := if truthy a then a else b.

(** [typeof v === 'string']. *)
Definition is_text (v : value) : bool :=
  match v with VStr _ => true | _ => false end.

(** [a + b]: concatenation as soon as one side is a string. *)
Definition js_add (a b : value) : value :=
  if is_text a || is_text b
  then VStr (ToString a ++ ToString b)
  else VNum (ToNumber a + ToNumber b).

(** [v !== null && v !== undefined]. *)
Definition present (v : value) : bool :=
  match v with
  | VNull | VUndefined => false
  | _ => true
  end.

(** The global [parseFloat]. Its argument is first converted to a string;
    the string of a number is made of the digits that read back as that very
    number (and [-0] prints as ["0"]), so a number comes back unchanged. *)
Definition parseFloat (v : value) : float :=
  match v with
  | VNum x => if (x =? 0)%float then 0%float else x
  | VStr s => JS.parseFloat_string s
  | VUndefined | VNull | VBool _ => JS.NaN
  end.

(** How a piece of code ends: with a value, or by throwing an error whose
    [message] is kept. *)
Inductive completion (A : Type) : Type :=
  | Normal (a : A)
  | Throw (message : string).
Arguments Normal {A} a.
Arguments Throw {A} message.

Definition bind {A B : Type} (c : completion A) (k : A -> completion B) : completion B :=
  match c with
  | Normal a => k a
  | Throw m => Throw m
  end.

Notation "x <- c ;; k" := (bind c (fun x => k))
  (at level 61, c at next level, right associativity).

(** ** The structure validator *)

Definition requiredColumns : list string :=
  ["DEPTH"; "%SH"; "%SS"; "%LS"; "%DOL"; "%ANH"; "%Coal"; "%Salt"; "DT"; "GR"].

Definition percentageColumns : list string :=
  ["%SH"; "%SS"; "%LS"; "%DOL"; "%ANH"; "%Coal"; "%Salt"].

Record ValidationResult : Type := {
  isValid : bool;
  errors : list string;
  totalRows : option nat;
  columns : option (list string)
}.

(** [errors.push(message)]. *)
Definition push (errs : list string) (message : string) : list string :=
  app errs [message].

Definition row_label (rowNum : nat) : string := "Row " ++ JS.string_of_nat rowNum.

(** [typeof v !== 'number' || v < 0]. *)
Definition bad_depth (v : value) : bool :=
  match v with
  | VNum x => JS.lt x 0
  | _ => true
  end.

(** [typeof v !== 'number' || v < 0 || v > 1]. *)
Definition bad_percentage (v : value) : bool :=
  match v with
  | VNum x => JS.lt x 0 || JS.gt x 1
  | _ => true
  end.

(** [typeof v !== 'number']. *)
Definition not_a_number (v : value) : bool :=
  match v with
  | VNum _ => false
  | _ => true
  end.

Definition check_depth (row : RawRecord) (rowNum : nat) (errs : list string) : list string :=
  let v := get row "DEPTH" in
  if present v && bad_depth v
  then push errs (row_label rowNum ++ ": DEPTH must be a positive number")
  else errs.

Definition check_percentage (row : RawRecord) (rowNum : nat) (errs : list string) (col : string)
  : list string :=
  let v := get row col in
  if present v && bad_percentage v
  then push errs (row_label rowNum ++ ": " ++ col ++ " must be a number between 0 and 1")
  else errs.

Definition check_numeric (row : RawRecord) (rowNum : nat) (errs : list string) (col : string)
  : list string :=
  let v := get row col in
  if present v && not_a_number v
  then push errs (row_label rowNum ++ ": " ++ col ++ " must be a number")
  else errs.

(** [(row['%SH'] || 0) + (row['%SS'] || 0) + ... + (row['%Salt'] || 0)]. *)
Definition rockCompositionSum (row : RawRecord) : value :=
  let cell col := js_or (get row col) (VNum 0) in
  js_add (js_add (js_add (js_add (js_add (js_add
    (cell "%SH") (cell "%SS")) (cell "%LS")) (cell "%DOL")) (cell "%ANH")) (cell "%Coal"))
    (cell "%Salt").

(** [Math.abs(sum - 1) > 0.01]. *)
Definition sum_off (sum : value) : bool :=
  JS.gt (abs (ToNumber sum - 1)) 0.01.

(** [sum.toFixed(3)]: only a number has the method. *)
Definition sum_toFixed (sum : value) : completion string :=
  match sum with
  | VNum x => Normal (JS.toFixed x 3)
  | _ => Throw "rockCompositionSum.toFixed is not a function"
  end.

(** The sum rule, given the sum. *)
Definition check_sum (sum : value) (rowNum : nat) (errs : list string)
  : completion (list string) :=
  if sum_off sum then
    shown <- sum_toFixed sum ;;
    Normal (push errs (row_label rowNum
      ++ ": Rock composition percentages should sum to approximately 1.0 (current sum: "
      ++ shown ++ ")"))
  else Normal errs.

(** The body of [data.forEach((row, index) => ...)], threading [errors]. *)
Definition validateRow (row : RawRecord) (index : nat) (errs : list string)
  : completion (list string) :=
  let rowNum := (index + 1)%nat in
  let errs1 := check_depth row rowNum errs in
  let errs2 := fold_left (check_percentage row rowNum) percentageColumns errs1 in
  let errs3 := fold_left (check_numeric row rowNum) ["DT"; "GR"] errs2 in
  check_sum (rockCompositionSum row) rowNum errs3.

Fixpoint validateRows (rows : list RawRecord) (index : nat) (errs : list string)
  : completion (list string) :=
  match rows with
  | [] => Normal errs
  | row :: rest =>
      errs' <- validateRow row index errs ;;
      validateRows rest (S index) errs'
  end.

Definition missingColumns (headers : list string) : list string :=
  filter (fun col => negb (JS.array_includes headers col)) requiredColumns.

Definition validateExcelStructure (data : list RawRecord) : completion ValidationResult :=
  match data with
  | [] =>
      Normal {| isValid := false;
                errors := ["Excel file is empty or contains no data"];
                totalRows := None;
                columns := None |}
  | first :: _ =>
      let headers := keys first in
      let missing := missingColumns headers in
      let errs0 :=
        if (0 <? List.length missing)%nat
        then ["Missing required columns: " ++ JS.join ", " missing]
        else [] in
      errs <- validateRows data 0 errs0 ;;
      Normal {| isValid := (List.length errs =? 0)%nat;
                errors := errs;
                totalRows := Some (List.length data);
                columns := Some headers |}
  end.

(** ** The row transformer *)

Record ProcessedRow : Type := {
  DEPTH : option float;
  SH : float;
  SS : float;
  LS : float;
  DOL : float;
  ANH : float;
  Coal : float;
  Salt : float;
  DT : option float;
  GR : option float;
  rowIndex : nat;
  dominantRockType : string
}.

(** [parseFloat(v) || null]. *)
Definition parseFloat_or_null (v : value) : option float :=
  let x := parseFloat v in
  if JS.truthy_num x then Some x else None.

(** [parseFloat(v) || 0]. *)
Definition parseFloat_or_zero (v : value) : float :=
  let x := parseFloat v in
  if JS.truthy_num x then x else 0%float.

(** [rockTypes[name]]. *)
Definition rock (rockTypes : list (string * float)) (name : string) : float :=
  match lookup name rockTypes with Some x => x | None => JS.NaN end.

(** [Object.keys(rockTypes).reduce((a, b) => rockTypes[a] > rockTypes[b] ? a : b)]:
    a reduction without initial value, which starts from the first key. *)
Definition dominant (rockTypes : list (string * float)) : string :=
  match keys rockTypes with
  | [] => ""
  | first :: others =>
      fold_left (fun a b => if JS.gt (rock rockTypes a) (rock rockTypes b) then a else b)
                others first
  end.

Definition rockTypes_of (sh ss ls dol anh coal salt : float) : list (string * float) :=
  [("Shale", sh); ("Sandstone", ss); ("Limestone", ls); ("Dolomite", dol);
   ("Anhydrite", anh); ("Coal", coal); ("Salt", salt)].

Definition processRow (row : RawRecord) (index : nat) : ProcessedRow :=
  let sh := parseFloat_or_zero (get row "%SH") in
  let ss := parseFloat_or_zero (get row "%SS") in
  let ls := parseFloat_or_zero (get row "%LS") in
  let dol := parseFloat_or_zero (get row "%DOL") in
  let anh := parseFloat_or_zero (get row "%ANH") in
  let coal := parseFloat_or_zero (get row "%Coal") in
  let salt := parseFloat_or_zero (get row "%Salt") in
  {| DEPTH := parseFloat_or_null (get row "DEPTH");
     SH := sh; SS := ss; LS := ls; DOL := dol; ANH := anh; Coal := coal; Salt := salt;
     DT := parseFloat_or_null (get row "DT");
     GR := parseFloat_or_null (get row "GR");
     rowIndex := (index + 1)%nat;
     dominantRockType := dominant (rockTypes_of sh ss ls dol anh coal salt) |}.

(** [data.map((row, index) => ...)], from [index] on. *)
Fixpoint map_indexed {A B : Type} (f : A -> nat -> B) (l : list A) (index : nat) : list B :=
  match l with
  | [] => []
  | x :: rest => f x index :: map_indexed f rest (S index)
  end.

Definition processExcelData (data : list RawRecord) : list ProcessedRow :=
  map_indexed processRow data 0.

(** ** The summary statistics of the upload route *)

Module Statistics.

Record DepthRange : Type := { min : float; max : float }.

Record Averages : Type := { DT : float; GR : float }.

Record t : Type := {
  totalRows : nat;
  depthRange : DepthRange;
  rockTypeDistribution : list (string * float);
  averages : Averages
}.

End Statistics.

(** [Math.min] and [Math.max] of two numbers ([-0] is below [+0]). *)
Definition math_min2 (a b : float) : float :=
  if PrimFloat.is_nan a || PrimFloat.is_nan b then JS.NaN
  else if (a <? b)%float then a
  else if (b <? a)%float then b
  else if get_sign a then a else b.

Definition math_max2 (a b : float) : float :=
  if PrimFloat.is_nan a || PrimFloat.is_nan b then JS.NaN
  else if (a <? b)%float then b
  else if (b <? a)%float then a
  else if get_sign a then b else a.

(** [Math.min(...xs)] and [Math.max(...xs)]. *)
Definition Math_min (xs : list float) : float := fold_left math_min2 xs infinity.
Definition Math_max (xs : list float) : float := fold_left math_max2 xs neg_infinity.

(** [processedData.map(row => row.DEPTH).filter(d => d !== null)]. *)
Fixpoint non_null (ds : list (option float)) : list float :=
  match ds with
  | [] => []
  | Some d :: rest => d :: non_null rest
  | None :: rest => non_null rest
  end.

Definition depths (processedData : list ProcessedRow) : list float :=
  non_null (map DEPTH processedData).

(** [x || 0] for a field that is a number or [null]. *)
Definition or_zero (x : option float) : float :=
  match x with
  | Some v => if JS.truthy_num v then v else 0%float
  | None => 0%float
  end.

(** The number an array length is. *)
Definition number_of_nat (n : nat) : float := JS.float_of_decimal false (Z.of_nat n) 0.

(** [processedData.reduce((sum, row) => sum + (field(row) || 0), 0) / processedData.length]. *)
Definition average (field : ProcessedRow -> option float) (processedData : list ProcessedRow)
  : float :=
  (fold_left (fun sum row => sum + or_zero (field row)) processedData 0
   / number_of_nat (List.length processedData))%float.

(** The [forEach] that counts the rows of each dominant rock type. *)
Definition count_rock_type (dist : list (string * float)) (row : ProcessedRow)
  : list (string * float) :=
  let rockType := dominantRockType row in
  let so_far := match lookup rockType dist with
                | Some c => if JS.truthy_num c then c else 0%float
                | None => 0%float
                end in
  set dist rockType (so_far + 1)%float.

Definition stats (processedData : list ProcessedRow) : Statistics.t :=
  {| Statistics.totalRows := List.length processedData;
     Statistics.depthRange :=
       {| Statistics.min := Math_min (depths processedData);
          Statistics.max := Math_max (depths processedData) |};
     Statistics.rockTypeDistribution := fold_left count_rock_type processedData [];
     Statistics.averages :=
       {| Statistics.DT := average DT processedData;
          Statistics.GR := average GR processedData |} |}.

(** ** The upload route *)

(** Node's [path.extname] (POSIX flavour): from the last dot of the last
    path segment, unless that dot starts the segment or the segment is [..]. *)
Fixpoint skip_slashes (l : list ascii) : list ascii :=
  match l with
  | c :: r => if Ascii.eqb c "/" then skip_slashes r else l
  | [] => []
  end.

Fixpoint until_slash (l : list ascii) : list ascii :=
  match l with
  | c :: r => if Ascii.eqb c "/" then [] else c :: until_slash r
  | [] => []
  end.

Fixpoint split_at_dot (reversed after : list ascii) : option (list ascii * list ascii) :=
  match reversed with
  | [] => None
  | c :: r => if Ascii.eqb c "." then Some (after, r) else split_at_dot r (c :: after)
  end.

Definition extname (path : string) : string :=
  let segment := until_slash (skip_slashes (rev (JS.chars path))) in
  match split_at_dot segment [] with
  | None => ""
  | Some (_, []) => ""
  | Some ([], ["."%char]) => ""
  | Some (after, _) => JS.str ("."%char :: after)
  end.

(** What multer hands over as [req.file], as far as the route looks at it. *)
Record UploadedFile : Type := { originalname : string }.

(** A worksheet, given by what [XLSX.utils.sheet_to_json] makes of it with
    [header: 1], [defval: null] and [blankrows: false]: one array per row. *)
Definition Worksheet : Type := list (list value).

(** What [XLSX.readFile] does with the stored file. *)
Inductive Decoded : Type :=
  | ReadError (message : string)
  | Workbook (SheetNames : list string) (Sheets : list (string * Worksheet)).

Inductive Details : Type :=
  | Text (s : string)
  | Items (l : list string).

Record ErrorBody : Type := {
  error : string;
  message : option string;
  details : option Details;
  suggestions : option (list string)
}.

Record SuccessBody : Type := {
  rows : list ProcessedRow;
  totalRows_sent : nat;
  statistics : Statistics.t;
  columnsFound : option (list string);
  warnings : list string
}.

Inductive Response : Type :=
  | Rejected (status : nat) (body : ErrorBody)
  | Accepted (body : SuccessBody).

Definition structure_error (detail : string) : Response :=
  Rejected 400 {| error := "Invalid Excel file structure";
                  message := None;
                  details := Some (Items [detail]);
                  suggestions := None |}.

Definition allowedExtensions : list string := [".xlsx"; ".xls"].

Definition required_format : string :=
  "Please ensure your Excel file follows the required format with columns: DEPTH, %SH, %SS, %LS, %DOL, %ANH, %Coal, %Salt, DT, GR".

(** The [headers.forEach((header, index) => { obj[header] = row[index]; })]
    that turns one row array into a record. *)
Fixpoint fill (obj : RawRecord) (headers : list value) (index : nat) (row : list value)
  : RawRecord :=
  match headers with
  | [] => obj
  | header :: rest =>
      fill (set obj (ToString header) (nth index row VUndefined)) rest (S index) row
  end.

Definition row_object (headers : list value) (row : list value) : RawRecord :=
  fill [] headers 0 row.

(** The [catch (error)] of the route. *)
Definition upload_catch (message : string) : Response :=
  if JS.includes message "Invalid Excel file structure"
     || JS.includes message "Excel file is empty"
     || JS.includes message "Invalid Excel file format"
     || JS.includes message "No file uploaded"
  then Rejected 400 {| error := "Invalid Excel file structure";
                       message := Some message;
                       details := Some (Text required_format);
                       suggestions := None |}
  else Rejected 500 {| error := "Failed to process file";
                       message := Some message;
                       details := Some (Text required_format);
                       suggestions := None |}.

(** The route, with the validator it calls as a parameter. Writing to the
    database, deleting the stored file and logging are left out. *)
Definition upload_with (validate : list RawRecord -> completion ValidationResult)
    (file : option UploadedFile) (decoded : Decoded) : Response :=
  match file with
  | None =>
      Rejected 400 {| error := "No file uploaded";
                      message := None;
                      details := Some (Text "Please select an Excel file to upload");
                      suggestions := None |}
  | Some f =>
      let fileExtension := JS.toLowerCase (extname (originalname f)) in
      if negb (JS.array_includes allowedExtensions fileExtension) then
        Rejected 400 {| error := "Only Excel files are allowed";
                        message := None;
                        details := Some (Text "Please upload a file with .xlsx or .xls extension");
                        suggestions := None |}
      else
        match decoded with
        | ReadError xlsxError =>
            Rejected 400 {| error := "Invalid Excel file format";
                            message := Some "Please ensure you are uploading a valid Excel file (.xlsx or .xls)";
                            details := Some (Text xlsxError);
                            suggestions := None |}
        | Workbook SheetNames Sheets =>
            match SheetNames with
            | [] => structure_error "Excel file contains no worksheets"
            | sheetName :: _ =>
                match lookup sheetName Sheets with
                | None => structure_error "Unable to read worksheet data"
                | Some rawData =>
                    if (List.length rawData =? 0)%nat then
                      structure_error "Excel file is empty or contains no data"
                    else if (List.length rawData <? 2)%nat then
                      structure_error "Excel file must contain at least a header row and one data row"
                    else
                      let headers := hd [] rawData in
                      let dataRows := map (row_object headers) (skipn 1 rawData) in
                      match validate dataRows with
                      | Throw thrown => upload_catch thrown
                      | Normal validation =>
                          if negb (isValid validation) then
                            Rejected 400
                              {| error := "Invalid Excel file structure";
                                 message := None;
                                 details := Some (Items (errors validation));
                                 suggestions := Some
                                   ["Ensure your Excel file contains all required columns: DEPTH, %SH, %SS, %LS, %DOL, %ANH, %Coal, %Salt, DT, GR";
                                    "Check that percentage values are between 0 and 1";
                                    "Verify that DEPTH values are positive numbers";
                                    "Ensure DT and GR values are numeric"] |}
                          else
                            let processedData := processExcelData dataRows in
                            if (List.length processedData =? 0)%nat then
                              structure_error "Excel file contains no data rows. Please ensure your file contains at least one row of data."
                            else
                              Accepted {| rows := processedData;
                                          totalRows_sent := List.length processedData;
                                          statistics := stats processedData;
                                          columnsFound := columns validation;
                                          warnings := if (0 <? List.length (errors validation))%nat
                                                      then errors validation else [] |}
                      end
                end
            end
        end
  end.

(** [app.post('/api/upload', ...)]. *)
Definition upload : option UploadedFile -> Decoded -> Response :=
  upload_with validateExcelStructure.

(** ** Values of the chat route *)

(** What [express.json()] makes of a request body: primitives, arrays and
    objects; reading an absent key gives [Prim VUndefined]. *)
Inductive json : Type :=
  | Prim (v : value)
  | Arr (items : list json)
  | Obj (fields : list (string * json)).

Definition undefined : json := Prim VUndefined.
Definition num (x : float) : json := Prim (VNum x).

Definition truthy_json (v : json) : bool :=
  match v with
  | Prim p => truthy p
  | Arr _ | Obj _ => true
  end.

(** [ToPrimitive]: an array is the comma-joined strings of its items (empty
    for [null] and [undefined]), a plain object is ["[object Object]"]. *)
Fixpoint to_primitive (v : json) : value :=
  match v with
  | Prim p => p
  | Arr items =>
      VStr (JS.join ","
        (map (fun item =>
                match item with
                | Prim VUndefined | Prim VNull => ""
                | _ => ToString (to_primitive item)
                end) items))
  | Obj _ => VStr "[object Object]"
  end.

Definition number_of (v : json) : float := ToNumber (to_primitive v).

(** [`${v}`]. *)
Definition text_of (v : json) : string := ToString (to_primitive v).

(** [a || b]. *)
Definition or_else (a b : json) : json := if truthy_json a then a else b.

(** [a + b]. *)
Definition plus (a b : json) : json := Prim (js_add (to_primitive a) (to_primitive b)).

(** [v.k]: reading a property of [null] or [undefined] throws. *)
Definition prop (v : json) (k : string) : completion json :=
  match v with
  | Prim VUndefined =>
      Throw ("Cannot read properties of undefined (reading '" ++ k ++ "')")
  | Prim VNull =>
      Throw ("Cannot read properties of null (reading '" ++ k ++ "')")
  | Prim (VStr s) =>
      Normal (if k =? "length" then num (number_of_nat (String.length s)) else undefined)
  | Prim _ => Normal undefined
  | Arr items =>
      Normal (if k =? "length" then num (number_of_nat (List.length items)) else undefined)
  | Obj fields =>
      Normal (match lookup k fields with Some x => x | None => undefined end)
  end.

(** [v.toFixed(digits)]. *)
Definition toFixed_of (v : json) (digits : nat) : completion string :=
  match v with
  | Prim (VNum x) => Normal (JS.toFixed x digits)
  | Prim VUndefined => Throw "Cannot read properties of undefined (reading 'toFixed')"
  | Prim VNull => Throw "Cannot read properties of null (reading 'toFixed')"
  | _ => Throw "toFixed is not a function"
  end.

(** [v.toLowerCase()]. *)
Definition toLowerCase_of (v : json) : completion string :=
  match v with
  | Prim (VStr s) => Normal (JS.toLowerCase s)
  | Prim VUndefined => Throw "Cannot read properties of undefined (reading 'toLowerCase')"
  | Prim VNull => Throw "Cannot read properties of null (reading 'toLowerCase')"
  | _ => Throw "toLowerCase is not a function"
  end.

Definition index_keys {A : Type} (items : list A) : list (string * A) :=
  map_indexed (fun item i => (JS.string_of_nat i, item)) items 0.

(** [Object.entries(v)]. *)
Definition Object_entries (v : json) : completion (list (string * json)) :=
  match v with
  | Prim VUndefined | Prim VNull => Throw "Cannot convert undefined or null to object"
  | Prim (VStr s) =>
      Normal (index_keys (map (fun c => Prim (VStr (String c EmptyString))) (JS.chars s)))
  | Prim _ => Normal []
  | Arr items => Normal (index_keys items)
  | Obj fields => Normal fields
  end.

(** [Object.values(v)]. *)
Definition Object_values (v : json) : completion (list json) :=
  entries <- Object_entries v ;; Normal (map snd entries).

(** [counts.reduce((sum, count) => sum + count, 0)]. *)
Definition sum_counts (counts : list json) : json := fold_left plus counts (num 0).

(** [entries.sort(([, a], [, b]) => b - a)]: the sort is stable; an entry
    goes before the first one the comparator puts after it. *)
Fixpoint insert_by_count (x : string * json) (sorted : list (string * json))
  : list (string * json) :=
  match sorted with
  | [] => [x]
  | y :: rest =>
      if JS.gt (number_of (snd x) - number_of (snd y)) 0
      then x :: y :: rest
      else y :: insert_by_count x rest
  end.

Definition sort_by_count (entries : list (string * json)) : list (string * json) :=
  fold_left (fun sorted x => insert_by_count x sorted) entries [].

(** ** The fallback responder *)

Record Anomaly : Type := {
  depth : json;
  type : string;
  description : string
}.

(** [row[`%${type}`] || row[type] || 0]. *)
Definition composition_cell (row : json) (type : string) : completion json :=
  percent <- prop row ("%" ++ type) ;;
  plain <- prop row type ;;
  Normal (or_else (or_else percent plain) (num 0)).

(** [rockTypes.reduce((sum, type) => sum + (...), 0)]. *)
Fixpoint totalComposition (row : json) (rockTypes : list string) (sum : json)
  : completion json :=
  match rockTypes with
  | [] => Normal sum
  | type :: rest =>
      cell <- composition_cell row type ;;
      totalComposition row rest (plus sum cell)
  end.

(** [v && (v < low || v > high)]. *)
Definition extreme (v : json) (low high : float) : bool :=
  truthy_json v && (JS.lt (number_of v) low || JS.gt (number_of v) high).

(** The three checks of a row, each threading [anomalies]. *)
Definition composition_check (row total : json) (anomalies : list Anomaly)
  : completion (list Anomaly) :=
  if JS.gt (abs (number_of total - 100)) 15 then
    DEPTH <- prop row "DEPTH" ;;
    shown <- toFixed_of total 1 ;;
    Normal (app anomalies
      [{| depth := DEPTH;
          type := "composition_error";
          description := "Depth " ++ text_of DEPTH ++ "m: rock composition sums to "
                         ++ shown ++ "%" |}])
  else Normal anomalies.

Definition DT_check (row : json) (anomalies : list Anomaly) : completion (list Anomaly) :=
  DT <- prop row "DT" ;;
  if extreme DT 30 250 then
    DEPTH <- prop row "DEPTH" ;;
    Normal (app anomalies
      [{| depth := DEPTH;
          type := "dt_extreme";
          description := "Depth " ++ text_of DEPTH ++ "m: extreme DT value ("
                         ++ text_of DT ++ " μs/ft)" |}])
  else Normal anomalies.

Definition GR_check (row : json) (anomalies : list Anomaly) : completion (list Anomaly) :=
  GR <- prop row "GR" ;;
  if extreme GR 0 400 then
    DEPTH <- prop row "DEPTH" ;;
    Normal (app anomalies
      [{| depth := DEPTH;
          type := "gr_extreme";
          description := "Depth " ++ text_of DEPTH ++ "m: extreme GR value ("
                         ++ text_of GR ++ " API)" |}])
  else Normal anomalies.

(** The body of [rows.forEach((row, index) => ...)]. *)
Definition detect_row (row : json) (anomalies : list Anomaly) : completion (list Anomaly) :=
  total <- totalComposition row ["SH"; "SS"; "LS"; "DOL"; "ANH"; "Coal"; "Salt"] (num 0) ;;
  anomalies1 <- composition_check row total anomalies ;;
  anomalies2 <- DT_check row anomalies1 ;;
  GR_check row anomalies2.

Fixpoint detect_rows (rows : list json) (anomalies : list Anomaly)
  : completion (list Anomaly) :=
  match rows with
  | [] => Normal anomalies
  | row :: rest =>
      anomalies' <- detect_row row anomalies ;;
      detect_rows rest anomalies'
  end.

(** [length === 0] for what is not an array. *)
Definition is_zero_length (length : json) : bool :=
  match length with
  | Prim (VNum x) => (x =? 0)%float
  | _ => false
  end.

(** Of an array the length is the number of its items; anything else that
    is truthy and has no [length] of 0 has no [forEach] either. *)
Definition detectDataAnomalies (rows : json) : completion (list Anomaly) :=
  if negb (truthy_json rows) then Normal []
  else
    match rows with
    | Arr items =>
        if (List.length items =? 0)%nat then Normal []
        else
          anomalies <- detect_rows items [] ;;
          Normal (firstn 5 anomalies)
    | _ =>
        length <- prop rows "length" ;;
        if is_zero_length length then Normal []
        else Throw "rows.forEach is not a function"
    end.

(** [v && v.k]. *)
Definition and_prop (v : json) (k : string) : completion json :=
  if truthy_json v then prop v k else Normal v.

(** [((count || 0) / totalIntervals) * 100]. *)
Definition share (count totalIntervals : json) : float :=
  (number_of (or_else count (num 0)) / number_of totalIntervals * 100)%float.

(** The [recommendations] array of [generateDrillingRecommendations]. *)
Definition recommendations_for (stats : json) : completion (list string) :=
  rockDist <- prop stats "rockTypeDistribution" ;;
  counts <- Object_values rockDist ;;
  let totalIntervals := sum_counts counts in
  SH <- prop rockDist "SH" ;;
  SS <- prop rockDist "SS" ;;
  LS <- prop rockDist "LS" ;;
  DOL <- prop rockDist "DOL" ;;
  let shalePercent := share SH totalIntervals in
  let sandstonePercent := share SS totalIntervals in
  let carbonatePercent :=
    share (plus (or_else LS (num 0)) (or_else DOL (num 0))) totalIntervals in
  let r1 :=
    if JS.gt shalePercent 40
    then ["High shale content detected - use inhibitive mud system to prevent wellbore instability"]
    else [] in
  let r2 :=
    if JS.gt sandstonePercent 30
    then push r1 "Significant sandstone intervals - consider PDC bits for optimal ROP"
    else r1 in
  let r3 :=
    if JS.gt carbonatePercent 25
    then push r2 "Carbonate formations present - roller cone bits may be more effective"
    else r2 in
  averages <- prop stats "averages" ;;
  DT <- prop averages "DT" ;;
  let r4 :=
    if JS.gt (number_of DT) 100
    then push r3 "High DT values suggest porous formations - monitor for potential lost circulation"
    else if JS.lt (number_of DT) 60
    then push r3 "Low DT values indicate dense formations - expect slower drilling rates"
    else r3 in
  GR <- prop averages "GR" ;;
  let r5 :=
    if JS.gt (number_of GR) 100
    then push r4 "High GR readings indicate clay-rich zones - use appropriate mud additives for shale control"
    else r4 in
  Normal (if (List.length r5 =? 0)%nat
          then push r5 "Formation appears relatively uniform - maintain current drilling parameters and monitor for changes"
          else r5).

Definition generateDrillingRecommendations (uploadedData : json) : completion string :=
  stats <- and_prop uploadedData "statistics" ;;
  if negb (truthy_json stats) then Normal "Upload data required for specific recommendations."
  else
    recommendations <- recommendations_for stats ;;
    Normal ("Drilling recommendations based on your data: "
            ++ JS.join "; " recommendations ++ ".").

(** [`${type}: ${((count / totalIntervals) * 100).toFixed(1)}%`]. *)
Definition share_text (totalIntervals : json) (entry : string * json) : string :=
  fst entry ++ ": "
  ++ JS.toFixed (number_of (snd entry) / number_of totalIntervals * 100)%float 1 ++ "%".

Definition generateDataInsights (uploadedData : json) : completion string :=
  rows <- and_prop uploadedData "rows" ;;
  statistics <- and_prop uploadedData "statistics" ;;
  if negb (truthy_json uploadedData) || negb (truthy_json rows) || negb (truthy_json statistics)
  then Normal "insufficient data for analysis"
  else
    let stats := statistics in
    depthRange <- prop stats "depthRange" ;;
    max <- prop depthRange "max" ;;
    min <- prop depthRange "min" ;;
    let depthSpan := (number_of max - number_of min)%float in
    let i1 := [JS.toFixed depthSpan 1 ++ "m interval analyzed"] in
    rockDist <- prop stats "rockTypeDistribution" ;;
    entries <- Object_entries rockDist ;;
    i2 <-
      match sort_by_count entries with
      | dominantRock :: _ =>
          length <- prop rows "length" ;;
          let percentage :=
            JS.toFixed (number_of (snd dominantRock) / number_of length * 100)%float 1 in
          Normal (push i1 (fst dominantRock ++ " is dominant (" ++ percentage ++ "%)"))
      | [] => Normal i1
      end ;;
    averages <- prop stats "averages" ;;
    DT <- prop averages "DT" ;;
    i3 <-
      (if truthy_json DT then
         shown <- toFixed_of DT 1 ;;
         Normal (push i2 ("DT averages " ++ shown ++ " μs/ft"))
       else Normal i2) ;;
    GR <- prop averages "GR" ;;
    i4 <-
      (if truthy_json GR then
         shown <- toFixed_of GR 1 ;;
         Normal (push i3 ("GR averages " ++ shown ++ " API"))
       else Normal i3) ;;
    Normal (JS.join ", " i4).

Definition generateFallbackResponse (message wellData uploadedData : json)
  : completion string :=
  lowerMessage <- toLowerCase_of message ;;
  let mentions := JS.includes lowerMessage in
  statistics <- and_prop uploadedData "statistics" ;;
  rows <- and_prop uploadedData "rows" ;;
  if mentions "depth" then
    depthRange <- and_prop statistics "depthRange" ;;
    if truthy_json depthRange then
      min <- prop depthRange "min" ;;
      max <- prop depthRange "max" ;;
      length <- prop rows "length" ;;
      Normal ("Based on your uploaded data, the depth range spans from " ++ text_of min
              ++ "m to " ++ text_of max ++ "m (total interval: "
              ++ JS.toFixed (number_of max - number_of min)%float 1
              ++ "m). The data contains " ++ text_of length
              ++ " measurement points across this interval.")
    else if truthy_json wellData then
      name <- prop wellData "name" ;;
      wellDepth <- prop wellData "depth" ;;
      status <- prop wellData "status" ;;
      lowerStatus <- toLowerCase_of status ;;
      Normal ("The current drilling depth for " ++ text_of name ++ " is " ++ text_of wellDepth
              ++ "m. This is a " ++ lowerStatus ++ " well.")
    else Normal "Depth information is not available. Please select a well or upload drilling data to see depth analysis."
  else if mentions "rock composition" || mentions "composition" || mentions "shale"
          || mentions "sandstone" || mentions "limestone" || mentions "dolomite" then
    rockDist <- and_prop statistics "rockTypeDistribution" ;;
    if truthy_json rockDist then
      counts <- Object_values rockDist ;;
      let totalIntervals := sum_counts counts in
      entries <- Object_entries rockDist ;;
      let dominantRocks :=
        JS.join ", " (map (share_text totalIntervals) (firstn 3 (sort_by_count entries))) in
      Normal ("Based on your uploaded data, the rock composition analysis shows: "
              ++ dominantRocks ++ ". This distribution across " ++ text_of totalIntervals
              ++ " intervals indicates the geological complexity of your formation. The dominant rock types will influence drilling parameters, mud selection, and completion strategies.")
    else Normal "Rock composition data shows the geological makeup of the formation with detailed percentages for Shale (%SH), Sandstone (%SS), Limestone (%LS), Dolomite (%DOL), Anhydrite (%ANH), Coal (%Coal), and Salt (%Salt). This data helps identify formation types and drilling challenges. Please upload your Excel file to see specific composition analysis."
  else if mentions "dt" || mentions "delta time" then
    averages <- and_prop statistics "averages" ;;
    if truthy_json averages then
      avgDT <- prop averages "DT" ;;
      let interpretation :=
        if JS.lt (number_of avgDT) 60
        then "indicating relatively dense, low-porosity formations (likely carbonates or tight sandstones)"
        else if JS.gt (number_of avgDT) 100
        then "suggesting higher porosity formations or potentially unconsolidated sediments"
        else "indicating moderate porosity formations typical of many reservoir rocks" in
      shown <- toFixed_of avgDT 1 ;;
      Normal ("Your uploaded data shows an average DT of " ++ shown ++ " μs/ft, "
              ++ interpretation
              ++ ". DT measurements help evaluate porosity and rock density, which are crucial for reservoir characterization and drilling optimization.")
    else Normal "DT (Delta Time) measurements indicate acoustic travel time through the formation. Lower DT values (40-60 μs/ft) typically suggest denser rocks like carbonates, while higher values (80-140 μs/ft) indicate more porous formations like sandstones. Upload your data to see specific DT analysis."
  else if mentions "gr" || mentions "gamma ray" then
    averages <- and_prop statistics "averages" ;;
    if truthy_json averages then
      avgGR <- prop averages "GR" ;;
      let interpretation :=
        if JS.lt (number_of avgGR) 50
        then "indicating clean formations (sandstones or carbonates) with low clay content"
        else if JS.gt (number_of avgGR) 100
        then "suggesting shale-rich or clay-bearing formations"
        else "indicating mixed lithology with moderate clay content" in
      shown <- toFixed_of avgGR 1 ;;
      Normal ("Your uploaded data shows an average GR of " ++ shown ++ " API, "
              ++ interpretation
              ++ ". GR readings help distinguish between clean reservoir rocks and clay-rich formations, guiding completion and stimulation strategies.")
    else Normal "GR (Gamma Ray) readings measure natural radioactivity in the formation. Lower GR values (0-50 API) typically indicate clean sandstones or carbonates, while higher values (100+ API) suggest shale or clay-rich formations. Upload your data to see specific GR analysis."
  else if mentions "analyze" || mentions "analysis" then
    if truthy_json rows then
      insights <- generateDataInsights uploadedData ;;
      length <- prop rows "length" ;;
      Normal ("Based on your " ++ text_of length ++ " data points: " ++ insights
              ++ ". This analysis can help optimize drilling parameters, predict formation challenges, and plan completion strategies.")
    else Normal "To provide detailed analysis, I need access to your drilling data. Please upload your Excel file containing depth, rock composition (%SH, %SS, %LS, %DOL, %ANH, %Coal, %Salt), DT, and GR measurements for comprehensive formation evaluation."
  else if mentions "recommend" || mentions "suggestion" || mentions "advice" then
    if truthy_json statistics then generateDrillingRecommendations uploadedData
    else Normal "For specific drilling recommendations, I would need to analyze your formation data. Generally, consider: 1) Monitor drilling parameters closely based on lithology changes, 2) Adjust mud weight based on formation pressure and rock strength, 3) Select appropriate bit types for dominant rock formations, 4) Plan casing points at formation boundaries. Upload your data for tailored recommendations."
  else if mentions "problem" || mentions "issue" || mentions "challenge" || mentions "trouble" then
    if truthy_json rows then
      anomalies <- detectDataAnomalies rows ;;
      if (0 <? List.length anomalies)%nat then
        Normal ("I've identified " ++ JS.string_of_nat (List.length anomalies)
                ++ " potential issues in your data: "
                ++ JS.join "; " (map description (firstn 3 anomalies))
                ++ ". These anomalies could indicate measurement errors, formation changes, or drilling challenges that need attention.")
      else Normal "Your data appears consistent without obvious anomalies. Common drilling challenges include: formation pressure changes, wellbore instability in shales, lost circulation in fractured formations, and bit balling in clay-rich zones."
    else Normal "Common drilling challenges include: formation pressure variations, wellbore instability in shales, lost circulation, stuck pipe, and bit performance issues. Upload your data to identify specific challenges in your formation."
  else if truthy_json rows then
    length <- prop rows "length" ;;
    Normal ("I have access to your drilling data with " ++ text_of length
            ++ " measurement points. I can help analyze rock composition, interpret DT and GR logs, identify formation characteristics, and provide drilling recommendations. What specific aspect would you like to explore?")
  else Normal "I'm here to help with drilling data analysis including rock composition interpretation, log analysis (DT, GR), formation evaluation, and drilling optimization. Please ask about specific measurements or upload your Excel data for detailed analysis.".

(** ** The chat route *)

(** What the route needs from its surroundings: the language model, which
    gets the system prompt and the user's message and either answers or
    fails, the clock and the random suffix of a fresh session id. *)
Record Environment : Type := {
  generate : string -> json -> completion json;
  now : string;
  random : string;
  timestamp : string
}.

Record ChatBody : Type := {
  response : json;
  sessionId : json;
  isAIResponse : bool;
  sent_at : option string;
  note : option string
}.

Inductive ChatResponse : Type :=
  | BadRequest (error : string)
  | Answer (body : ChatBody).

(** [`${type}: ${count} intervals (${((count / totalIntervals) * 100).toFixed(1)}%)`]. *)
Definition interval_text (totalIntervals : json) (entry : string * json) : string :=
  fst entry ++ ": " ++ text_of (snd entry) ++ " intervals ("
  ++ JS.toFixed (number_of (snd entry) / number_of totalIntervals * 100)%float 1 ++ "%)".

(** [`${dt.min.toFixed(1)}-${dt.max.toFixed(1)} ... (trend: ${dt.trend})`]. *)
Definition range_text (log : json) (unit : string) : completion string :=
  min <- prop log "min" ;;
  low <- toFixed_of min 1 ;;
  max <- prop log "max" ;;
  high <- toFixed_of max 1 ;;
  trend <- prop log "trend" ;;
  Normal (low ++ "-" ++ high ++ " " ++ unit ++ " (trend: " ++ text_of trend ++ ")").

(** [anomalies.map(a => a.type).join(', ')]. *)
Fixpoint anomaly_types (items : list json) : completion (list string) :=
  match items with
  | [] => Normal []
  | a :: rest =>
      t <- prop a "type" ;;
      ts <- anomaly_types rest ;;
      Normal ((match t with
               | Prim VUndefined | Prim VNull => ""
               | _ => text_of t
               end) :: ts)
  end.

Definition messageType_context (messageType : json) : string :=
  match messageType with
  | Prim (VStr t) =>
      if t =? "rock_composition" then "Focus on geological interpretation and rock composition analysis. "
      else if t =? "dt_analysis" then "Focus on Delta Time measurements and porosity/density implications. "
      else if t =? "gr_analysis" then "Focus on Gamma Ray readings and clay content interpretation. "
      else if t =? "recommendation_request" then "Provide specific, actionable drilling recommendations based on the data. "
      else if t =? "data_analysis" then "Provide comprehensive data analysis with specific insights and patterns. "
      else if t =? "problem_solving" then "Focus on identifying and solving potential drilling challenges. "
      else ""
  | _ => ""
  end.

(** The part of the prompt built from [enhancedContext.dataInsights]. *)
Definition insights_context (enhancedContext : json) : completion string :=
  insights <- and_prop enhancedContext "dataInsights" ;;
  if negb (truthy_json insights) then Normal ""
  else
    rockComposition <- prop insights "rockComposition" ;;
    c1 <-
      (if truthy_json rockComposition then
         dominantRockTypes <- prop rockComposition "dominantRockTypes" ;;
         entries <- Object_entries dominantRockTypes ;;
         match sort_by_count entries with
         | dominantRock :: _ =>
             Normal ("Most common rock type: " ++ fst dominantRock ++ " ("
                     ++ text_of (snd dominantRock) ++ " intervals). ")
         | [] => Normal ""
         end
       else Normal "") ;;
    drillingParameters <- prop insights "drillingParameters" ;;
    c2 <-
      (if truthy_json drillingParameters then
         dt <- prop drillingParameters "dt" ;;
         gr <- prop drillingParameters "gr" ;;
         dt_text <- range_text dt "μs/ft" ;;
         gr_text <- range_text gr "API" ;;
         Normal ("DT range: " ++ dt_text ++ ", GR range: " ++ gr_text ++ ". ")
       else Normal "") ;;
    anomalies <- prop insights "anomalies" ;;
    length <- and_prop anomalies "length" ;;
    c3 <-
      (if truthy_json anomalies && JS.gt (number_of length) 0 then
         match anomalies with
         | Arr items =>
             types <- anomaly_types items ;;
             Normal ("Data anomalies detected: " ++ text_of length
                     ++ " potential issues including " ++ JS.join ", " types ++ ". ")
         | _ => Throw "insights.anomalies.map is not a function"
         end
       else Normal "") ;;
    messageType <- prop enhancedContext "messageType" ;;
    Normal (c1 ++ c2 ++ c3 ++ messageType_context messageType).

(** The part of the prompt built from [uploadedData]. *)
Definition data_context (uploadedData enhancedContext : json) : completion string :=
  rows <- and_prop uploadedData "rows" ;;
  if negb (truthy_json rows) then Normal ""
  else
    length <- prop rows "length" ;;
    let c0 := "Available drilling data includes " ++ text_of length
              ++ " data points with detailed rock composition analysis including: DEPTH, Shale (%SH), Sandstone (%SS), Limestone (%LS), Dolomite (%DOL), Anhydrite (%ANH), Coal (%Coal), Salt (%Salt) percentages, DT (Delta Time), and GR (Gamma Ray) measurements. " in
    stats <- prop uploadedData "statistics" ;;
    c1 <-
      (if truthy_json stats then
         depthRange <- prop stats "depthRange" ;;
         min <- prop depthRange "min" ;;
         max <- prop depthRange "max" ;;
         averages <- prop stats "averages" ;;
         DT <- prop averages "DT" ;;
         dt_shown <- toFixed_of DT 2 ;;
         GR <- prop averages "GR" ;;
         gr_shown <- toFixed_of GR 2 ;;
         rockDist <- prop stats "rockTypeDistribution" ;;
         counts <- Object_values rockDist ;;
         let totalIntervals := sum_counts counts in
         entries <- Object_entries rockDist ;;
         let rockTypes :=
           JS.join ", " (map (interval_text totalIntervals) (firstn 3 (sort_by_count entries))) in
         Normal ("Data summary: Depth range " ++ text_of min ++ "m to " ++ text_of max
                 ++ "m, Average DT: " ++ dt_shown ++ " μs/ft, Average GR: " ++ gr_shown
                 ++ " API. " ++ "Dominant rock types: " ++ rockTypes ++ ". ")
       else Normal "") ;;
    c2 <- insights_context enhancedContext ;;
    Normal (c0 ++ c1 ++ c2).

Definition buildContext (wellData uploadedData enhancedContext : json) : completion string :=
  let c0 := "You are an AI assistant specialized in oil drilling data analysis with expertise in geological interpretation, drilling parameters, and formation evaluation. " in
  c1 <-
    (if truthy_json wellData then
       name <- prop wellData "name" ;;
       wellDepth <- prop wellData "depth" ;;
       status <- prop wellData "status" ;;
       Normal ("Current well: " ++ text_of name ++ ", Depth: " ++ text_of wellDepth
               ++ "m, Status: " ++ text_of status ++ ". ")
     else Normal "") ;;
  c2 <- data_context uploadedData enhancedContext ;;
  Normal (c0 ++ c1 ++ c2
          ++ "Provide helpful, accurate, and specific information about drilling data analysis, geological interpretation, and drilling recommendations. Use technical terminology appropriately and explain complex concepts clearly. When referencing data, be specific about values and trends. ").

(** The [try] block of the route. *)
Definition chat_try (env : Environment) (body : json) : completion ChatResponse :=
  message <- prop body "message" ;;
  wellData <- prop body "wellData" ;;
  uploadedData <- prop body "uploadedData" ;;
  sessionId <- prop body "sessionId" ;;
  enhancedContext <- prop body "enhancedContext" ;;
  if negb (truthy_json message) then Normal (BadRequest "Message is required")
  else
    let chatSessionId :=
      or_else sessionId (Prim (VStr ("session_" ++ now env ++ "_" ++ random env))) in
    context <- buildContext wellData uploadedData enhancedContext ;;
    answered <-
      match generate env context message with
      | Normal content => Normal (content, true)
      | Throw aiError =>
          fallback <- generateFallbackResponse message wellData uploadedData ;;
          Normal (Prim (VStr fallback), false)
      end ;;
    Normal (Answer {| response := fst answered;
                      sessionId := chatSessionId;
                      isAIResponse := snd answered;
                      sent_at := Some (timestamp env);
                      note := None |}).

(** The outer [catch (error)] of the route. *)
Definition chat_catch (env : Environment) (body : json) : completion ChatResponse :=
  message <- prop body "message" ;;
  wellData <- prop body "wellData" ;;
  uploadedData <- prop body "uploadedData" ;;
  fallbackResponse <- generateFallbackResponse message wellData uploadedData ;;
  sessionId <- prop body "sessionId" ;;
  Normal (Answer {| response := Prim (VStr fallbackResponse);
                    sessionId := or_else sessionId (Prim (VStr ("fallback_" ++ now env)));
                    isAIResponse := false;
                    sent_at := None;
                    note := Some "Service temporarily unavailable" |}).

(** [app.post('/api/chat', async (req, res) => ...)]: what is sent back, or
    the error the handler's promise is rejected with, in which case nothing
    is sent. Storing the chat history is left out. *)
Definition chat (env : Environment) (body : json) : completion ChatResponse :=
  match chat_try env body with
  | Normal sent => Normal sent
  | Throw _ => chat_catch env body
  end.

(** ** The properties of the specification, and the inputs they are tried on *)

(** The fixed order of the seven categories. *)
Definition categories : list string :=
  ["Shale"; "Sandstone"; "Limestone"; "Dolomite"; "Anhydrite"; "Coal"; "Salt"].

(** The percentage a processed row holds for a category. *)
Definition percentage (r : ProcessedRow) (category : string) : float :=
  rock (rockTypes_of (SH r) (SS r) (LS r) (DOL r) (ANH r) (Coal r) (Salt r)) category.

(** [d] is the first entry of [order] that achieves the maximum of [v]:
    everything before it is strictly smaller, nothing after it is greater. *)
Definition first_maximum (v : string -> float) (order : list string) (d : string) : Prop :=
  exists before after,
    order = (before ++ d :: after)%list
    /\ (forall c, In c before -> (v c <? v d)%float = true)
    /\ (forall c, In c after -> (v c <=? v d)%float = true).

(** [d] is the last entry of [order] that achieves the maximum of [v]. *)
Definition last_maximum (v : string -> float) (order : list string) (d : string) : Prop :=
  exists before after,
    order = (before ++ d :: after)%list
    /\ (forall c, In c before -> (v c <=? v d)%float = true)
    /\ (forall c, In c after -> (v c <? v d)%float = true).

(** A record with the ten required columns. *)
Definition record (depth sh ss ls dol anh coal salt dt gr : value) : RawRecord :=
  [("DEPTH", depth); ("%SH", sh); ("%SS", ss); ("%LS", ls); ("%DOL", dol);
   ("%ANH", anh); ("%Coal", coal); ("%Salt", salt); ("DT", dt); ("GR", gr)].

(** Half shale, half sandstone. *)
Definition tied_row : RawRecord :=
  record (VNum 100) (VNum 0.5) (VNum 0.5) (VNum 0) (VNum 0) (VNum 0) (VNum 0) (VNum 0)
         (VNum 80) (VNum 45).

(** The rule violations of one row, each rule counted on its own: the depth
    rule, the range rule of each percentage column, the type rule of [DT] and
    of [GR], and the sum rule. *)
Definition count_if {A : Type} (p : A -> bool) (l : list A) : nat :=
  List.length (filter p l).

Definition depth_violation (v : value) : nat :=
  if present v && bad_depth v then 1 else 0.

Definition sum_violation (sum : value) : nat :=
  if sum_off sum then 1 else 0.

Definition row_violations (row : RawRecord) : nat :=
  (depth_violation (get row "DEPTH")
   + count_if (fun col => present (get row col) && bad_percentage (get row col)) percentageColumns
   + count_if (fun col => present (get row col) && not_a_number (get row col)) ["DT"; "GR"]
   + sum_violation (rockCompositionSum row))%nat.

(** The violations of a record set: one for the missing columns, if any, and
    those of every row. *)
Definition header_violation (missing : list string) : nat :=
  if (0 <? List.length missing)%nat then 1 else 0.

Definition violations (data : list RawRecord) : nat :=
  (header_violation (missingColumns (keys (hd [] data)))
   + list_sum (map row_violations data))%nat.

(** No percentage cell of the row holds text. *)
Definition numeric_percentages (row : RawRecord) : bool :=
  forallb (fun col => negb (is_text (get row col))) percentageColumns.

(** Three required columns are missing and [DT] holds text. *)
Definition three_missing_and_text_DT : list RawRecord :=
  [[("DEPTH", VNum 100); ("%SH", VNum 0.5); ("%SS", VNum 0.5); ("%LS", VNum 0);
    ("%DOL", VNum 0); ("DT", VStr "abc"); ("GR", VNum 45)]].

(** Pure shale, typed into the sheet as the text ["1"]. *)
Definition text_percentage : list RawRecord :=
  [record (VNum 100) (VStr "1") (VNum 0) (VNum 0) (VNum 0) (VNum 0) (VNum 0) (VNum 0)
          (VNum 80) (VNum 45)].

(** Rows whose percentages add up to 0.99 and to 1.01. *)
Definition sums_to_099 : RawRecord :=
  record (VNum 100) (VNum 0.5) (VNum 0.49) (VNum 0) (VNum 0) (VNum 0) (VNum 0) (VNum 0)
         (VNum 80) (VNum 45).

Definition sums_to_101 : RawRecord :=
  record (VNum 100) (VNum 0.26) (VNum 0.35) (VNum 0.20) (VNum 0.10) (VNum 0.05) (VNum 0.03)
         (VNum 0.02) (VNum 80) (VNum 45).

(** The second row of the repository's percentage-sum test, 0.99 as well. *)
Definition fixture_099 : RawRecord :=
  record (VNum 200) (VNum 0.50) (VNum 0.30) (VNum 0.10) (VNum 0.05) (VNum 0.02) (VNum 0.01)
         (VNum 0.01) (VNum 85) (VNum 50).

(** [null] counted as [0]. *)
Definition null_as_zero (x : option float) : float :=
  match x with Some v => v | None => 0%float end.

(** The sum of a column, from [0] on, in row order. *)
Definition column_sum (xs : list (option float)) : float :=
  fold_left (fun sum x => sum + null_as_zero x)%float xs 0%float.

(** The rejections of the parser stage. *)
Definition UnsupportedFormat : Response :=
  Rejected 400 {| error := "Only Excel files are allowed";
                  message := None;
                  details := Some (Text "Please upload a file with .xlsx or .xls extension");
                  suggestions := None |}.

Definition EmptyFile : Response :=
  structure_error "Excel file is empty or contains no data".

Definition NoDataRows : Response :=
  structure_error "Excel file must contain at least a header row and one data row".

Definition extension_allowed (f : UploadedFile) : bool :=
  JS.array_includes allowedExtensions (JS.toLowerCase (extname (originalname f))).

(** A number after [JSON.stringify] and [JSON.parse]: what is not finite
    comes back as [null]. *)
Definition json_number (x : float) : json :=
  if PrimFloat.is_finite x then num x else Prim VNull.

Definition nullable (x : option float) : json :=
  match x with Some v => json_number v | None => Prim VNull end.

(** A processed row as the object the chat route receives it as. *)
Definition row_json (r : ProcessedRow) : json :=
  Obj [("DEPTH", nullable (DEPTH r));
       ("SH", json_number (SH r)); ("SS", json_number (SS r)); ("LS", json_number (LS r));
       ("DOL", json_number (DOL r)); ("ANH", json_number (ANH r));
       ("Coal", json_number (Coal r)); ("Salt", json_number (Salt r));
       ("DT", nullable (DT r)); ("GR", nullable (GR r));
       ("rowIndex", num (number_of_nat (rowIndex r)));
       ("dominantRockType", Prim (VStr (dominantRockType r)))].

Definition rows_json (processedData : list ProcessedRow) : json :=
  Arr (map row_json processedData).

(** A percentage as the anomaly detector reads it from a received row. *)
Definition received (x : float) : float :=
  if PrimFloat.is_finite x then x else 0%float.

(** The category sum of a received row, added up from [0] in the fixed
    order. *)
Definition category_sum (r : ProcessedRow) : float :=
  (0 + received (SH r) + received (SS r) + received (LS r) + received (DOL r)
   + received (ANH r) + received (Coal r) + received (Salt r))%float.

(** The statistics as the object the chat route receives them as. *)
Definition statistics_json (st : Statistics.t) : json :=
  Obj [("totalRows", num (number_of_nat (Statistics.totalRows st)));
       ("depthRange",
        Obj [("min", json_number (Statistics.min (Statistics.depthRange st)));
             ("max", json_number (Statistics.max (Statistics.depthRange st)))]);
       ("rockTypeDistribution",
        Obj (map (fun entry => (fst entry, json_number (snd entry)))
                 (Statistics.rockTypeDistribution st)));
       ("averages",
        Obj [("DT", json_number (Statistics.DT (Statistics.averages st)));
             ("GR", json_number (Statistics.GR (Statistics.averages st)))])].

(** What the client holds after an upload and sends along with a chat
    message. *)
Definition uploaded_json (processedData : list ProcessedRow) : json :=
  Obj [("rows", rows_json processedData);
       ("statistics", statistics_json (stats processedData))].

(** Three valid rows, shale the dominant category of each. *)
Definition all_shale : list RawRecord :=
  [record (VNum 100) (VNum 0.6) (VNum 0.2) (VNum 0.1) (VNum 0.05) (VNum 0.03) (VNum 0.01)
          (VNum 0.01) (VNum 80) (VNum 45);
   record (VNum 200) (VNum 0.7) (VNum 0.1) (VNum 0.1) (VNum 0.05) (VNum 0.03) (VNum 0.01)
          (VNum 0.01) (VNum 85) (VNum 50);
   record (VNum 300) (VNum 0.5) (VNum 0.3) (VNum 0.1) (VNum 0.05) (VNum 0.03) (VNum 0.01)
          (VNum 0.01) (VNum 90) (VNum 55)].

(** The three pieces of advice that depend on the rock types. *)
Definition inhibitive_mud_advice : string :=
  "High shale content detected - use inhibitive mud system to prevent wellbore instability".
Definition PDC_bit_advice : string :=
  "Significant sandstone intervals - consider PDC bits for optimal ROP".
Definition roller_cone_advice : string :=
  "Carbonate formations present - roller cone bits may be more effective".

(** A language model that is down. *)
Definition unreachable_model (reason now random timestamp : string) : Environment :=
  {| generate := fun _ _ => Throw reason;
     now := now; random := random; timestamp := timestamp |}.

(** A question about the depth of a well whose [status] column is [NULL]. *)
Definition depth_of_well_without_status : json :=
  Obj [("message", Prim (VStr "What is the depth?"));
       ("wellData", Obj [("id", num 1); ("name", Prim (VStr "Well A"));
                         ("depth", num 2500); ("status", Prim VNull)])].

(** [req.body.k] of an object body. *)
Definition field (fields : list (string * json)) (k : string) : json :=
  match lookup k fields with Some x => x | None => undefined end.

(** The anomaly detector flags the row with a composition error. *)
Definition flagged (row : json) : Prop :=
  exists a rest,
    detect_row row [] = Normal (a :: rest) /\ type a = "composition_error".

(** A row whose only entry is 85 under [%SH]. *)
Definition sums_to_85 : RawRecord := [("%SH", VNum 85)].

(** ** Notions the properties are stated and proved with *)

(** A number that is not [NaN]. *)
Definition real (x : float) : Prop := PrimFloat.is_nan x = false.

(** The step of the reduction that picks the dominant category. *)
Definition keep_greater (v : string -> float) (a b : string) : string :=
  if JS.gt (v a) (v b) then a else b.

(** A record whose [DEPTH], [DT] and [GR] are 0, pure sandstone. *)
Definition zero_cells : RawRecord :=
  record (VNum 0) (VNum 0) (VNum 1) (VNum 0) (VNum 0) (VNum 0) (VNum 0) (VNum 0)
         (VNum 0) (VNum 0).

(** Two uploads, a header row, and a validator that must not be called. *)
Definition spreadsheet : UploadedFile := {| originalname := "wells.xlsx" |}.
Definition text_file : UploadedFile := {| originalname := "wells.csv" |}.
Definition header_row : list value :=
  map VStr ["DEPTH"; "%SH"; "%SS"; "%LS"; "%DOL"; "%ANH"; "%Coal"; "%Salt"; "DT"; "GR"].
Definition throwing_validator (data : list RawRecord) : completion ValidationResult :=
  Throw "validator called".

(** None of the three pieces of advice that depend on the rock types. *)
Definition advice_free (recs : list string) : Prop :=
  ~ In inhibitive_mud_advice recs /\ ~ In PDC_bit_advice recs /\ ~ In roller_cone_advice recs.

(** ** Rounding to binary64

    What the proofs about sums of doubles are stated with: the exponent
    function of binary64, powers of two, and bounds on a rounded result. *)
Module Rounding.

Local Open Scope Z_scope.

Definition fexp64 := fexp prec emax.

Definition pow2 (k : Z) : Z := 2 ^ k.

(** After [k] right shifts of [m0]: the quotient, and no sign of a
    remainder unless there is one. *)
Definition shifted (m0 : Z) (k : Z) (r : shr_record) : Prop :=
  shr_m r = m0 / pow2 k
  /\ (orb (shr_r r) (shr_s r) = true -> m0 mod pow2 k <> 0).

(** The last step of [binary_round_aux]. *)
Definition finish (s : bool) (m e : Z) : spec_float :=
  match m with
  | Z0 => S754_zero s
  | Zpos p => if e <=? 971 then S754_finite s p e else S754_infinity s
  | Zneg _ => S754_nan
  end.

(** A finite result of sign [s], or a zero, of at most [hi * 2^g]. *)
Definition at_most (s : bool) (g hi : Z) (f : spec_float) : Prop :=
  match f with
  | S754_zero _ => True
  | S754_finite s' m e => s' = s /\ e <= g /\ Zpos m <= hi * pow2 (g - e)
  | _ => False
  end.

(** A result of sign [s], infinite or of at least [l * 2^c]. *)
Definition at_least (s : bool) (c l : Z) (f : spec_float) : Prop :=
  match f with
  | S754_infinity s' => s' = s
  | S754_finite s' m e => s' = s /\ (e <= c -> l * pow2 (c - e) <= Zpos m)
  | _ => False
  end.

(** Fifteen, eighty-five and a hundred as binary64 values. *)
Definition SF15 : spec_float := S754_finite false 8444249301319680 (-49).
Definition SF85 : spec_float := S754_finite false 5981343255101440 (-46).
Definition SF100 : spec_float := S754_finite false 7036874417766400 (-46).

End Rounding.

(** A number between 0 and 1. *)
Definition fraction (x : float) : Prop := Rounding.at_most false 0%Z 1%Z (Prim2SF x).

(** What is falsy among the parsed percentages is [0] itself. *)
Definition clean (x : float) : Prop := JS.truthy_num x = false -> x = 0%float.

Definition clean_row (r : ProcessedRow) : Prop :=
  clean (SH r) /\ clean (SS r) /\ clean (LS r) /\ clean (DOL r)
  /\ clean (ANH r) /\ clean (Coal r) /\ clean (Salt r).

(** What [detect_row] does with an uploaded row: it returns, and what it
    found comes after what had been found. *)
Definition appends (row : json) : Prop :=
  forall anomalies, exists new, detect_row row anomalies = Normal (app anomalies new).

(** The same, the first finding being a composition error. *)
Definition flags (row : json) : Prop :=
  forall anomalies, exists a rest,
    detect_row row anomalies = Normal (app anomalies (a :: rest))
    /\ type a = "composition_error".

(** * The rest of the server *)

(** ** The health check *)

Module Health.

(** The environment variables the route reads. *)
Record ProcessEnv : Type := {
  NODE_ENV : option string;
  npm_package_version : option string;
  OPENAI_API_KEY : option string
}.

Record Services : Type := { database : string; openai : string }.

Record Check : Type := {
  status : string;
  timestamp : string;
  uptime : float;
  environment : string;
  version : string;
  services : Services
}.

End Health.

(** [process.env.K || fallback]: an unset or empty variable is falsy. *)
Definition env_or (variable : option string) (fallback : string) : string :=
  match variable with
  | Some s => if s =? "" then fallback else s
  | None => fallback
  end.

(** [!process.env.OPENAI_API_KEY || process.env.OPENAI_API_KEY === 'your-openai-api-key-here']. *)
Definition not_configured (key : option string) : bool :=
  match key with
  | Some s => (s =? "") || (s =? "your-openai-api-key-here")
  | None => true
  end.

(** [app.get('/api/health', ...)]: the status code and the body, given the
    clock, the uptime and whether [SELECT 1] came back with an error. *)
Definition health (env : Health.ProcessEnv) (now : string) (uptime : float) (err : bool)
  : nat * Health.Check :=
  let status0 := "OK" in
  let database0 := "OK" in
  let openai0 := "OK" in
  let database1 := if err then "ERROR" else database0 in
  let status1 := if err then "DEGRADED" else status0 in
  let unset := not_configured (Health.OPENAI_API_KEY env) in
  let openai1 := if unset then "NOT_CONFIGURED" else openai0 in
  let status2 := if unset then (if status1 =? "OK" then "DEGRADED" else status1) else status1 in
  let statusCode := if status2 =? "OK" then 200%nat else 503%nat in
  (statusCode,
   {| Health.status := status2;
      Health.timestamp := now;
      Health.uptime := uptime;
      Health.environment := env_or (Health.NODE_ENV env) "development";
      Health.version := env_or (Health.npm_package_version env) "1.0.0";
      Health.services := {| Health.database := database1; Health.openai := openai1 |} |}).

(** ** The error-handling middleware *)

(** An error as the middleware looks at it: whether it is a
    [multer.MulterError], its [code] and its [message]. *)
Record ServerError : Type := {
  multer_error : bool;
  code : json;
  error_message : json
}.

Record ErrorReply : Type := {
  reply_status : nat;
  reply_error : json;
  reply_details : option (list json)
}.

(** [a === 'text']. *)
Definition is_string (a : json) (text : string) : bool :=
  match a with
  | Prim (VStr s) => s =? text
  | _ => false
  end.

(** [v.includes(text)]: a string has the method and so has an array; on
    [null] and [undefined] the property read throws, on anything else the
    call does. *)
Definition includes_of (v : json) (text : string) : completion bool :=
  match v with
  | Prim (VStr s) => Normal (JS.includes s text)
  | Arr items => Normal (existsb (fun item => is_string item text) items)
  | Prim VUndefined => Throw "Cannot read properties of undefined (reading 'includes')"
  | Prim VNull => Throw "Cannot read properties of null (reading 'includes')"
  | _ => Throw "error.message.includes is not a function"
  end.

Definition reply (status : nat) (error : json) (details : option (list json)) : ErrorReply :=
  {| reply_status := status; reply_error := error; reply_details := details |}.

(** [app.use((error, req, res, next) => ...)]: what is sent, or what the
    handler throws. *)
Definition error_middleware (error : ServerError) : completion ErrorReply :=
  let message := error_message error in
  if multer_error error then
    if is_string (code error) "LIMIT_FILE_SIZE"
    then Normal (reply 400 (Prim (VStr "File too large. Maximum size is 10MB.")) None)
    else Normal (reply 400 (plus (Prim (VStr "File upload error: ")) message) None)
  else if is_string (code error) "INVALID_FILE_TYPE" then Normal (reply 400 message None)
  else
    format <- includes_of message "Invalid Excel file format" ;;
    allowed <- (if format then Normal true
                else includes_of message "Only Excel files are allowed") ;;
    if allowed then Normal (reply 400 message None)
    else
      invalid_json <- includes_of message "Invalid JSON" ;;
      if invalid_json then Normal (reply 400 (Prim (VStr "Invalid JSON format")) None)
      else
        no_rows <- includes_of message "Excel file contains no data rows" ;;
        empty <- (if no_rows then Normal true
                  else includes_of message "Excel file is empty or contains no data") ;;
        structure <- (if empty then Normal true
                      else includes_of message "Invalid Excel file structure") ;;
        if structure
        then Normal (reply 400 (Prim (VStr "Invalid Excel file structure")) (Some [message]))
        else
          excel <- includes_of message "Excel" ;;
          if excel
          then Normal (reply 400 (Prim (VStr "Invalid Excel file")) (Some [message]))
          else Normal (reply 500 message None).

(** ** Storing the rows of a well *)

Record StoreReply : Type := {
  store_status : nat;
  store_message : string;
  insertedCount : nat;
  store_errors : option (list string)
}.

Inductive StoreResponse : Type :=
  | NoDataArray
  | Stored (reply : StoreReply).

(** The twelve values bound to the insert statement; reading a property of
    a row that is [null] or [undefined] throws. *)
Definition insert_parameters (wellId : json) (row : json) : completion (list json) :=
  DEPTH <- prop row "DEPTH" ;;
  SH <- prop row "SH" ;;
  SS <- prop row "SS" ;;
  LS <- prop row "LS" ;;
  DOL <- prop row "DOL" ;;
  ANH <- prop row "ANH" ;;
  Coal <- prop row "Coal" ;;
  Salt <- prop row "Salt" ;;
  DT <- prop row "DT" ;;
  GR <- prop row "GR" ;;
  dominantRockType <- prop row "dominantRockType" ;;
  Normal [wellId; DEPTH; SH; SS; LS; DOL; ANH; Coal; Salt; DT; GR; dominantRockType].

(** [const { k } = req.body]. *)
Definition destructure (body : json) (k : string) : completion json :=
  match body with
  | Prim VUndefined =>
      Throw ("Cannot destructure property '" ++ k ++ "' of 'req.body' as it is undefined.")
  | Prim VNull =>
      Throw ("Cannot destructure property '" ++ k ++ "' of 'req.body' as it is null.")
  | _ => prop body k
  end.

Section Store.

(** The database, and what [insertStmt.run(parameters)] does to it: the
    new state, and, if it throws, the [err.message] of what it throws as
    the template literal prints it. *)
Variable DB : Type.
Variable run : DB -> list json -> DB * option string.

Record Progress : Type := {
  database : DB;
  inserted : nat;
  failures : list string
}.

(** The body of [data.forEach((row, index) => { try ... catch ... })]. *)
Definition store_row (wellId : json) (row : json) (index : nat) (p : Progress) : Progress :=
  let failed (message : string) (db : DB) :=
    {| database := db;
       inserted := inserted p;
       failures := push (failures p) ("Row " ++ JS.string_of_nat (index + 1) ++ ": " ++ message) |} in
  match insert_parameters wellId row with
  | Throw message => failed message (database p)
  | Normal parameters =>
      match run (database p) parameters with
      | (db, Some message) => failed message db
      | (db, None) =>
          {| database := db; inserted := S (inserted p); failures := failures p |}
      end
  end.

Fixpoint store_rows (wellId : json) (rows : list json) (index : nat) (p : Progress) : Progress :=
  match rows with
  | [] => p
  | row :: rest => store_rows wellId rest (S index) (store_row wellId row index p)
  end.

(** [app.post('/api/wells/:id/data', ...)]: the database afterwards and
    what is sent. *)
Definition store_well_data (db : DB) (wellId : string) (body : json)
  : completion (DB * StoreResponse) :=
  data <- destructure body "data" ;;
  match data with
  | Arr rows =>
      let p := store_rows (Prim (VStr wellId)) rows 0
                 {| database := db; inserted := 0; failures := [] |} in
      if (0 <? List.length (failures p))%nat then
        Normal (database p,
                Stored {| store_status := 207;
                          store_message := "Partially successful: "
                                           ++ JS.string_of_nat (inserted p) ++ " rows inserted";
                          insertedCount := inserted p;
                          store_errors := Some (failures p) |})
      else
        Normal (database p,
                Stored {| store_status := 200;
                          store_message := "Successfully inserted "
                                           ++ JS.string_of_nat (inserted p) ++ " data points";
                          insertedCount := inserted p;
                          store_errors := None |})
  | _ => Normal (db, NoDataArray)
  end.

End Store.

(** ** Notions the further properties are stated with *)

(** A cell the validator lets through where a number within [low, high]
    is asked for: nothing, or a number that is neither below [low] nor
    above [high] ([NaN] is neither). *)
Definition nothing_or_within (low high : option float) (v : value) : Prop :=
  match v with
  | VUndefined | VNull => True
  | VNum x =>
      match low with Some l => JS.lt x l = false | None => True end
      /\ match high with Some h => JS.gt x h = false | None => True end
  | VBool _ | VStr _ => False
  end.

(** The index of the last header named [k], from [index] on. *)
Fixpoint last_column (k : string) (headers : list value) (index : nat) : option nat :=
  match headers with
  | [] => None
  | header :: rest =>
      match last_column k rest (S index) with
      | Some i => Some i
      | None => if String.eqb k (ToString header) then Some index else None
      end
  end.

(** A sheet as the upload route decodes it. *)
Definition sheet_of (header : list value) (rows : list (list value)) : Decoded :=
  Workbook ["Sheet1"] [("Sheet1", header :: rows)].

(** The cells of a row of shale, under [header_row]. *)
Definition shale_cells : list value :=
  [VNum 100; VNum 0.6; VNum 0.2; VNum 0.1; VNum 0.05; VNum 0.03; VNum 0.01; VNum 0.01;
   VNum 80; VNum 45].

(** What the validator answers on a record set of [n] rows it accepts. *)
Definition accepted (n : nat) : ValidationResult :=
  {| isValid := true; errors := []; totalRows := Some n; columns := Some requiredColumns |}.

(** What the anomaly detector makes of a [DT] or [GR] of an uploaded row:
    extreme when it is there, arrived as a number, and lies outside
    [low, high]. *)
Definition out_of_range (x : option float) (low high : float) : bool :=
  match x with
  | Some v => PrimFloat.is_finite v && JS.truthy_num v && (JS.lt v low || JS.gt v high)
  | None => false
  end.

(** The types of the findings on one uploaded row, in the order of the
    three checks. *)
Definition finding_types (r : ProcessedRow) : list string :=
  app (if JS.gt (abs (category_sum r - 100)) 15 then ["composition_error"] else [])
      (app (if out_of_range (DT r) 30 250 then ["dt_extreme"] else [])
           (if out_of_range (GR r) 0 400 then ["gr_extreme"] else [])).

(** [(count || 0) + 1], and the count after [n] rows of a type. *)
Definition one_more (count : float) : float :=
  ((if JS.truthy_num count then count else 0) + 1)%float.

Definition counted (n : nat) : float := Nat.iter n one_more 0%float.

(** The rows whose dominant rock type is [c]. *)
Definition rows_of_type (c : string) (rows : list ProcessedRow) : nat :=
  count_if (fun r => String.eqb (dominantRockType r) c) rows.

(** One more row of the type of the entry. *)
Definition next_entry (entry : option float) : option float :=
  Some (one_more (match entry with Some c => c | None => 0%float end)).


(** The findings of a check: of one type, at the depth of the row. *)
Definition findings_of (found : list Anomaly) (flagged : bool) (kind : string) (at_depth : json)
  : Prop :=
  map type found = (if flagged then [kind] else [])
  /\ Forall (fun a => depth a = at_depth) found.

(** No well is selected, or the selected one has a text as [status]. *)
Definition no_well_or_with_status (wellData : json) : Prop :=
  truthy_json wellData = false
  \/ exists fields status,
       wellData = Obj fields /\ lookup "status" fields = Some (Prim (VStr status)).

(** The advice that depends on the averages, and the default. *)
Definition lost_circulation_caution : string :=
  "High DT values suggest porous formations - monitor for potential lost circulation".
Definition slow_ROP_caution : string :=
  "Low DT values indicate dense formations - expect slower drilling rates".
Definition shale_control_advice : string :=
  "High GR readings indicate clay-rich zones - use appropriate mud additives for shale control".
Definition uniform_default : string :=
  "Formation appears relatively uniform - maintain current drilling parameters and monitor for changes".

(** [In x l] as a test. *)
Definition holds (l : list string) (x : string) : bool := existsb (String.eqb x) l.

(** What every list of recommendations satisfies. *)
Definition consistent_advice (recs : list string) : bool :=
  negb (List.length recs =? 0)%nat
  && (List.length recs <=? 5)%nat
  && negb (holds recs lost_circulation_caution && holds recs slow_ROP_caution)
  && (negb (holds recs uniform_default) || (List.length recs =? 1)%nat).

(** A model that answers, and a request made in a session. *)
Definition working_model : Environment :=
  {| generate := fun _ _ => Normal (Prim (VStr "The formation is mostly shale."));
     now := "1700000000000"; random := "k3x9q2m1z"; timestamp := "2024-01-01T00:00:00.000Z" |}.

Definition asked_in_session : list (string * json) :=
  [("message", Prim (VStr "What is the lithology?")); ("sessionId", Prim (VStr "session_1_abc"))].

(** The parameters an uploaded row is stored with. *)
Definition stored_parameters (wellId : string) (r : ProcessedRow) : list json :=
  [Prim (VStr wellId); nullable (DEPTH r); json_number (SH r); json_number (SS r);
   json_number (LS r); json_number (DOL r); json_number (ANH r); json_number (Coal r);
   json_number (Salt r); nullable (DT r); nullable (GR r);
   Prim (VStr (dominantRockType r))].

(** The errors of a reply, none counted as the empty list. *)
Definition errors_of (r : StoreReply) : list string :=
  match store_errors r with Some l => l | None => [] end.

(** A database that keeps what is inserted. *)
Definition log_all (db : list (list json)) (parameters : list json)
  : list (list json) * option string :=
  (app db [parameters], None).

(** The name multer stores an upload under, given the field name and the
    decimal digits of [Date.now()] and of [Math.round(Math.random() * 1E9)]. *)
Definition stored_filename (fieldname now random originalname : string) : string :=
  fieldname ++ "-" ++ (now ++ "-" ++ random) ++ extname originalname.

(** No character of [l] is [c]. *)
Definition without (c : ascii) (l : list ascii) : Prop := ~ In c l.

(** A name without dot and without slash. *)
Definition plain (s : string) : Prop :=
  without "." (JS.chars s) /\ without "/" (JS.chars s).

(** ** The database migration *)

(** How a migration ends: the promise is resolved, or rejected with an
    error, given by its message. *)
Inductive Migration : Type :=
  | Resolved
  | Rejected_with (err : string).

Definition create_new_table : string :=
  "CREATE TABLE well_data_new (
            id INTEGER PRIMARY KEY AUTOINCREMENT,
            well_id INTEGER,
            depth REAL,
            shale_percent REAL,
            sandstone_percent REAL,
            limestone_percent REAL,
            dolomite_percent REAL,
            anhydrite_percent REAL,
            coal_percent REAL,
            salt_percent REAL,
            dt REAL,
            gr REAL,
            dominant_rock_type TEXT,
            created_at DATETIME DEFAULT CURRENT_TIMESTAMP,
            FOREIGN KEY (well_id) REFERENCES wells (id)
          )".

Definition copy_rows : string :=
  "INSERT INTO well_data_new (id, well_id, depth, dt, gr, created_at)
                    SELECT id, well_id, depth, dt, gr, created_at FROM well_data".

Definition drop_old_table : string := "DROP TABLE IF EXISTS well_data".

Definition rename_new_table : string := "ALTER TABLE well_data_new RENAME TO well_data".

(** [columns.map(col => col.name)]. *)
Fixpoint column_names (columns : list json) : completion (list json) :=
  match columns with
  | [] => Normal []
  | col :: rest =>
      name <- prop col "name" ;;
      names <- column_names rest ;;
      Normal (name :: names)
  end.

(** [columnNames.includes(text)]. *)
Definition names_include (names : list json) (text : string) : bool :=
  existsb (fun name => is_string name text) names.

Section Migrations.

(** The database: the error of [db.get("PRAGMA table_info(well_data)")],
    if any; the error or the rows of [db.all] of the same; and what
    [db.run(sql)] does: the new state and the error, if any. Errors are
    given by their messages. *)
Variable DB : Type.
Variable table_info_error : DB -> option string.
Variable table_info : DB -> string + list json.
Variable run_sql : DB -> string -> DB * option string.

(** The last two statements of a migration. *)
Definition swap_tables (db : DB) : DB * Migration :=
  match run_sql db drop_old_table with
  | (db1, Some err) => (db1, Rejected_with err)
  | (db1, None) =>
      match run_sql db1 rename_new_table with
      | (db2, Some err) => (db2, Rejected_with err)
      | (db2, None) => (db2, Resolved)
      end
  end.

Definition migrate (db : DB) : DB * Migration :=
  match run_sql db create_new_table with
  | (db1, Some err) => (db1, Rejected_with err)
  | (db1, None) =>
      match run_sql db1 copy_rows with
      | (db2, Some err) =>
          if negb (JS.includes err "no such table") then (db2, Rejected_with err)
          else swap_tables db2
      | (db2, None) => swap_tables db2
      end
  end.

(** [runDatabaseMigrations(db)]: the database afterwards and how the promise
    ends, or what a callback throws. *)
Definition runDatabaseMigrations (db : DB) : completion (DB * Migration) :=
  match table_info_error db with
  | Some err => Normal (db, Rejected_with err)
  | None =>
      match table_info db with
      | inl err => Normal (db, Rejected_with err)
      | inr columns =>
          columnNames <- column_names columns ;;
          let hasOldStructure :=
            names_include columnNames "rock_composition"
            && negb (names_include columnNames "shale_percent") in
          if hasOldStructure then Normal (migrate db) else Normal (db, Resolved)
      end
  end.

End Migrations.

(** The state after running statements one after the other. *)
Definition run_each {DB : Type} (run_sql : DB -> string -> DB * option string)
    (statements : list string) (db : DB) : DB :=
  fold_left (fun state sql => fst (run_sql state sql)) statements db.

Definition migration_statements : list string :=
  [create_new_table; copy_rows; drop_old_table; rename_new_table].

(** The copy went through, or failed for want of the old table. *)
Definition copied {DB : Type} (run_sql : DB -> string -> DB * option string) (db : DB) : Prop :=
  match snd (run_sql (fst (run_sql db create_new_table)) copy_rows) with
  | None => True
  | Some err => JS.includes err "no such table" = true
  end.

(** A database that logs the statements run on it, and the columns of a
    table of the old structure. *)
Definition log_sql (db : list string) (sql : string) : list string * option string :=
  (app db [sql], None).

Definition old_columns : list json :=
  [Obj [("name", Prim (VStr "id"))]; Obj [("name", Prim (VStr "rock_composition"))]].

(** The averages of an upload are finite: they arrive as numbers. *)
Definition finite_averages (rs : list ProcessedRow) : Prop :=
  PrimFloat.is_finite (Statistics.DT (Statistics.averages (stats rs))) = true
  /\ PrimFloat.is_finite (Statistics.GR (Statistics.averages (stats rs))) = true.

(** What the client sends along as [uploadedData] after an upload: the
    answer of the upload route, of which the rows and the statistics are
    read. *)
Definition an_upload_of (rs : list ProcessedRow) (uploadedData : json) : Prop :=
  exists fields,
    uploadedData = Obj fields
    /\ lookup "rows" fields = Some (rows_json rs)
    /\ lookup "statistics" fields = Some (statistics_json (stats rs)).

(** * Properties *)

(** ** The order of doubles *)
Module FloatOrder.

Ltac compare_cases :=
  repeat match goal with
    | H : context [Z.compare ?a ?b] |- _ => destruct (Z.compare_spec a b)
    | |- context [Z.compare ?a ?b] => destruct (Z.compare_spec a b)
    | H : context [Pos.compare_cont Eq ?a ?b] |- _ =>
        change (Pos.compare_cont Eq a b) with (Pos.compare a b) in H;
        destruct (Pos.compare_spec a b)
    | |- context [Pos.compare_cont Eq ?a ?b] =>
        change (Pos.compare_cont Eq a b) with (Pos.compare a b);
        destruct (Pos.compare_spec a b)
    end.

Ltac by_cases :=
  repeat match goal with x : spec_float |- _ => destruct x as [ [] | [] | | [] ? ? ] end;
  cbn in *; try congruence; try reflexivity;
  compare_cases; cbn in *; subst; try congruence; try reflexivity; try lia.

Lemma SFcompare_self (f : spec_float) : f <> S754_nan -> SFcompare f f = Some Eq.
Proof.
  destruct f as [ [] | [] | | [] m e ]; cbn; try congruence; intros _;
    rewrite Z.compare_refl; change (Pos.compare_cont Eq m m) with (Pos.compare m m);
    rewrite Pos.compare_refl; reflexivity.
Qed.

Lemma SFltb_false_leb (a b : spec_float) :
  a <> S754_nan -> b <> S754_nan -> SFltb b a = false -> SFleb a b = true.
Proof. unfold SFltb, SFleb. intros Ha Hb. by_cases. Qed.

Lemma SFleb_trans (a b c : spec_float) :
  SFleb a b = true -> SFleb b c = true -> SFleb a c = true.
Proof. unfold SFleb. by_cases. Qed.

Lemma SFltb_leb_trans (a b c : spec_float) :
  SFltb a b = true -> SFleb b c = true -> SFltb a c = true.
Proof. unfold SFltb, SFleb. by_cases. Qed.

Lemma real_spec (x : float) : real x <-> Prim2SF x <> S754_nan.
Proof.
  unfold real, PrimFloat.is_nan. rewrite eqb_spec. unfold SFeqb.
  destruct (Prim2SF x) as [ [] | [] | | [] m e ] eqn:E; cbn; try (split; congruence).
  all: rewrite Z.compare_refl; change (Pos.compare_cont Eq m m) with (Pos.compare m m);
    rewrite Pos.compare_refl; cbn; split; congruence.
Qed.

Lemma not_gt_le (x y : float) :
  real x -> real y -> JS.gt x y = false -> (x <=? y)%float = true.
Proof.
  unfold JS.gt. rewrite !real_spec, ltb_spec, leb_spec. apply SFltb_false_leb.
Qed.

Lemma le_trans (x y z : float) :
  (x <=? y)%float = true -> (y <=? z)%float = true -> (x <=? z)%float = true.
Proof. rewrite !leb_spec. apply SFleb_trans. Qed.

Lemma lt_le_trans (x y z : float) :
  (x <? y)%float = true -> (y <=? z)%float = true -> (x <? z)%float = true.
Proof. rewrite !ltb_spec, leb_spec. apply SFltb_leb_trans. Qed.

Lemma lt_le (x y : float) : (x <? y)%float = true -> (x <=? y)%float = true.
Proof. rewrite ltb_spec, leb_spec. unfold SFltb, SFleb. destruct (SFcompare _ _) as [[]|]; congruence. Qed.

Lemma le_refl (x : float) : real x -> (x <=? x)%float = true.
Proof.
  rewrite real_spec, leb_spec. intros H. unfold SFleb. now rewrite SFcompare_self.
Qed.

Lemma truthy_real (x : float) : JS.truthy_num x = true -> real x.
Proof.
  unfold JS.truthy_num, real. destruct (PrimFloat.is_nan x); cbn; congruence.
Qed.

End FloatOrder.

Import FloatOrder.

Lemma parseFloat_or_zero_real (v : value) : real (parseFloat_or_zero v).
Proof.
  unfold parseFloat_or_zero.
  destruct (JS.truthy_num (parseFloat v)) eqn:E.
  - now apply truthy_real.
  - reflexivity.
Qed.

Section Reduce.
Variable v : string -> float.

Lemma reduce_last_maximum (others processed : list string) (acc : string) :
  (forall c, In c (processed ++ others)%list -> real (v c)) ->
  last_maximum v processed acc ->
  last_maximum v (processed ++ others)%list (fold_left (keep_greater v) others acc).
Proof.
  revert processed acc.
  induction others as [| b others IH]; intros processed acc Hreal Hmax.
  - now rewrite app_nil_r.
  - cbn [fold_left].
    replace (processed ++ b :: others)%list with ((processed ++ [b]) ++ others)%list
      in * by (rewrite <- app_assoc; reflexivity).
    apply IH; [exact Hreal |].
    destruct Hmax as (before & after & Hsplit & Hbefore & Hafter).
    assert (Hacc : real (v acc)).
    { apply Hreal. subst processed. rewrite !in_app_iff. left; left; right; left; reflexivity. }
    assert (Hb : real (v b)).
    { apply Hreal. rewrite !in_app_iff. left; right; left; reflexivity. }
    unfold keep_greater. destruct (JS.gt (v acc) (v b)) eqn:Hgt.
    + exists before, (after ++ [b])%list. split; [| split].
      * subst processed. rewrite <- app_assoc. reflexivity.
      * exact Hbefore.
      * intros c Hc. apply in_app_iff in Hc. destruct Hc as [Hc | [<- | []]].
        -- now apply Hafter.
        -- exact Hgt.
    + pose proof (not_gt_le Hacc Hb Hgt) as Hle.
      exists processed, []. split; [reflexivity | split].
      * intros c Hc. subst processed. apply in_app_iff in Hc.
        destruct Hc as [Hc | [<- | Hc]].
        -- eapply le_trans; [now apply Hbefore | exact Hle].
        -- exact Hle.
        -- apply lt_le. eapply lt_le_trans; [now apply Hafter | exact Hle].
      * intros c [].
Qed.
End Reduce.

Lemma percentage_real (row : RawRecord) (index : nat) (c : string) :
  In c categories -> real (percentage (processRow row index) c).
Proof.
  unfold categories. cbn [In]. intros H.
  repeat (destruct H as [<- | H]; [apply parseFloat_or_zero_real |]).
  destruct H.
Qed.

(** C1, as the code has it: the dominant category is the last one, in the
    fixed order, that achieves the maximum of the seven percentages: every
    category before it holds at most as much, every category after it
    strictly less. *)
Theorem dominantRockType_last_maximum (row : RawRecord) (index : nat) :
  last_maximum (percentage (processRow row index)) categories
               (dominantRockType (processRow row index)).
Proof.
  change (dominantRockType (processRow row index))
    with (fold_left (keep_greater (percentage (processRow row index))) (tl categories) "Shale").
  change categories with (["Shale"] ++ tl categories)%list at 1.
  apply reduce_last_maximum.
  - intros c Hc. now apply percentage_real.
  - exists [], []. split; [reflexivity | split]; intros c [].
Qed.

(** C1 as the specification states it fails on a tie: half shale and half
    sandstone is [Sandstone], which is not the first maximum. *)
Lemma tie_goes_to_the_later_category :
  ~ first_maximum (percentage (processRow tied_row 0)) categories
                  (dominantRockType (processRow tied_row 0)).
Proof.
  intros (before & after & Hsplit & Hbefore & _).
  replace (dominantRockType (processRow tied_row 0)) with "Sandstone" in * by (vm_compute; reflexivity).
  destruct before as [| c before]; [discriminate Hsplit |].
  injection Hsplit as <- _.
  specialize (Hbefore "Shale" (or_introl eq_refl)).
  vm_compute in Hbefore. discriminate Hbefore.
Qed.

(** ** The validator *)

Lemma push_length (errs : list string) (m : string) :
  List.length (push errs m) = S (List.length errs).
Proof. unfold push. rewrite length_app. cbn. lia. Qed.

Lemma fold_check_percentage_length (row : RawRecord) (rowNum : nat) (cols : list string)
    (errs : list string) :
  List.length (fold_left (check_percentage row rowNum) cols errs)
  = (List.length errs
     + count_if (fun col => present (get row col) && bad_percentage (get row col)) cols)%nat.
Proof.
  revert errs. induction cols as [| col cols IH]; intros errs; cbn [fold_left].
  - cbn. lia.
  - rewrite IH. unfold check_percentage, count_if. cbn [filter].
    destruct (present (get row col) && bad_percentage (get row col));
      cbn [List.length]; rewrite ?push_length; lia.
Qed.

Lemma fold_check_numeric_length (row : RawRecord) (rowNum : nat) (cols : list string)
    (errs : list string) :
  List.length (fold_left (check_numeric row rowNum) cols errs)
  = (List.length errs
     + count_if (fun col => present (get row col) && not_a_number (get row col)) cols)%nat.
Proof.
  revert errs. induction cols as [| col cols IH]; intros errs; cbn [fold_left].
  - cbn. lia.
  - rewrite IH. unfold check_numeric, count_if. cbn [filter].
    destruct (present (get row col) && not_a_number (get row col));
      cbn [List.length]; rewrite ?push_length; lia.
Qed.

Lemma check_depth_length (row : RawRecord) (rowNum : nat) (errs : list string) :
  List.length (check_depth row rowNum errs)
  = (List.length errs + depth_violation (get row "DEPTH"))%nat.
Proof.
  unfold check_depth, depth_violation. generalize (get row "DEPTH") as v. intros v.
  destruct (present v && bad_depth v); rewrite ?push_length; lia.
Qed.

Lemma check_sum_length (sum : value) (rowNum : nat) (errs errs' : list string) :
  check_sum sum rowNum errs = Normal errs' ->
  List.length errs' = (List.length errs + sum_violation sum)%nat.
Proof.
  unfold check_sum, sum_violation. destruct (sum_off sum).
  - destruct (sum_toFixed sum) as [shown | thrown]; cbn [bind]; [| discriminate].
    intros [= <-]. rewrite push_length. lia.
  - intros [= <-]. lia.
Qed.

Lemma validateRow_eq (row : RawRecord) (index : nat) (errs : list string) :
  validateRow row index errs
  = check_sum (rockCompositionSum row) (index + 1)
      (fold_left (check_numeric row (index + 1)) ["DT"; "GR"]
         (fold_left (check_percentage row (index + 1)) percentageColumns
            (check_depth row (index + 1) errs))).
Proof. symmetry. reflexivity. Qed.

(** A row whose validation returns has added one message per violation. *)
Lemma validateRow_length (row : RawRecord) (index : nat) (errs errs' : list string) :
  validateRow row index errs = Normal errs' ->
  List.length errs' = (List.length errs + row_violations row)%nat.
Proof.
  rewrite validateRow_eq. intros H. apply check_sum_length in H.
  rewrite H, fold_check_numeric_length, fold_check_percentage_length, check_depth_length.
  unfold row_violations.
  generalize (sum_violation (rockCompositionSum row)) as s.
  generalize (depth_violation (get row "DEPTH")) as d.
  generalize (count_if (fun col => present (get row col) && bad_percentage (get row col))
                       percentageColumns) as p.
  generalize (count_if (fun col => present (get row col) && not_a_number (get row col))
                       ["DT"; "GR"]) as n.
  intros. lia.
Qed.

Lemma js_add_not_text (a b : value) :
  is_text a = false -> is_text b = false -> exists x, js_add a b = VNum x.
Proof.
  unfold js_add. intros -> ->. eexists. reflexivity.
Qed.

Lemma js_or_zero_not_text (v : value) : is_text v = false -> is_text (js_or v (VNum 0)) = false.
Proof. unfold js_or. destruct (truthy v); [auto | reflexivity]. Qed.

Lemma numeric_sum (row : RawRecord) :
  numeric_percentages row = true -> exists x, rockCompositionSum row = VNum x.
Proof.
  unfold numeric_percentages, percentageColumns. cbn [forallb].
  rewrite !andb_true_iff, !negb_true_iff.
  intros (H1 & H2 & H3 & H4 & H5 & H6 & H7 & _).
  unfold rockCompositionSum.
  repeat match goal with
         | |- exists x, js_add (js_add ?a ?b) ?c = VNum x =>
             let H := fresh in
             assert (H : exists y, js_add a b = VNum y);
             [| destruct H as [y ->]; apply js_add_not_text;
                [reflexivity | now apply js_or_zero_not_text]]
         end.
  apply js_add_not_text; now apply js_or_zero_not_text.
Qed.

(** Without text in the percentage columns the validation of a row returns. *)
Lemma validateRow_returns (row : RawRecord) (index : nat) (errs : list string) :
  numeric_percentages row = true -> exists errs', validateRow row index errs = Normal errs'.
Proof.
  intros H. destruct (numeric_sum row H) as [x Hx].
  rewrite validateRow_eq, Hx. unfold check_sum.
  destruct (sum_off (VNum x)); cbn [sum_toFixed bind]; eexists; reflexivity.
Qed.

Lemma validateRows_counts (rows : list RawRecord) (index : nat) (errs : list string) :
  forallb numeric_percentages rows = true ->
  exists errs',
    validateRows rows index errs = Normal errs'
    /\ List.length errs' = (List.length errs + list_sum (map row_violations rows))%nat.
Proof.
  revert index errs. induction rows as [| row rows IH]; intros index errs H.
  - exists errs. cbn. split; [reflexivity | lia].
  - cbn [forallb] in H. apply andb_true_iff in H. destruct H as [Hrow Hrows].
    destruct (validateRow_returns row index errs Hrow) as [e1 He1].
    destruct (IH (S index) e1 Hrows) as (e2 & He2 & Hlen).
    exists e2. cbn [validateRows]. rewrite He1. cbn [bind]. split; [exact He2 |].
    rewrite Hlen, (validateRow_length _ _ _ He1). cbn [map list_sum fold_right].
    fold (list_sum (map row_violations rows)).
    generalize (list_sum (map row_violations rows)) (row_violations row). intros. lia.
Qed.

(** X1: with no text in a percentage column, the validator returns one
    message per violation, whatever their number and wherever they are. *)
Theorem validator_counts_every_violation (data : list RawRecord) :
  data <> [] ->
  forallb numeric_percentages data = true ->
  exists result,
    validateExcelStructure data = Normal result
    /\ List.length (errors result) = violations data
    /\ isValid result = (violations data =? 0)%nat
    /\ totalRows result = Some (List.length data).
Proof.
  intros Hne Hnum. destruct data as [| first rest]; [congruence |].
  unfold validateExcelStructure.
  set (errs0 := if (0 <? _)%nat then _ else _).
  destruct (validateRows_counts (first :: rest) 0 errs0 Hnum) as (errs' & Hrun & Hlen).
  rewrite Hrun. cbn [bind]. eexists. split; [reflexivity |]. cbn [errors isValid totalRows].
  assert (Hv : List.length errs' = violations (first :: rest)).
  { rewrite Hlen. unfold violations, header_violation. cbn [hd]. subst errs0.
    destruct (0 <? _)%nat; reflexivity. }
  rewrite Hv. repeat split.
Qed.

Lemma validator_counts_every_violation_witness :
  exists result,
    validateExcelStructure three_missing_and_text_DT = Normal result
    /\ List.length (errors result) = violations three_missing_and_text_DT
    /\ isValid result = (violations three_missing_and_text_DT =? 0)%nat
    /\ totalRows result = Some (List.length three_missing_and_text_DT).
Proof.
  apply validator_counts_every_violation; [discriminate | reflexivity].
Defined.

(** The example of the specification: three missing columns and a text
    [DT] give the two messages. *)
Example three_missing_and_text_DT_errors :
  validateExcelStructure three_missing_and_text_DT
  = Normal {| isValid := false;
              errors := ["Missing required columns: %ANH, %Coal, %Salt";
                         "Row 1: DT must be a number"];
              totalRows := Some 1;
              columns := Some ["DEPTH"; "%SH"; "%SS"; "%LS"; "%DOL"; "DT"; "GR"] |}.
Proof. vm_compute. reflexivity. Qed.

(** C3: pure shale typed as the text ["1"] breaks two rules, and the
    validator, instead of returning the two messages, throws: the sum is the
    string ["1000000"], which has no [toFixed]. The upload route answers 500. *)
Theorem validator_throws_on_text_percentage :
  violations text_percentage = 2%nat
  /\ validateExcelStructure text_percentage
     = Throw "rockCompositionSum.toFixed is not a function".
Proof. split; vm_compute; reflexivity. Qed.

(** C4: rows whose percentages add up to 0.99 and to 1.01 get the sum
    message, the repository's own 0.99 row does not. *)
Theorem sums_of_099_and_101_are_rejected :
  validateRow sums_to_099 0 []
  = Normal ["Row 1: Rock composition percentages should sum to approximately 1.0 (current sum: 0.990)"]
  /\ validateRow sums_to_101 0 []
     = Normal ["Row 1: Rock composition percentages should sum to approximately 1.0 (current sum: 1.010)"]
  /\ validateRow fixture_099 0 [] = Normal [].
Proof. repeat split; vm_compute; reflexivity. Qed.

(** ** The transformer *)

Lemma map_indexed_length {A B : Type} (f : A -> nat -> B) (l : list A) (index : nat) :
  List.length (map_indexed f l index) = List.length l.
Proof.
  revert index. induction l as [| x l IH]; intros index; cbn; [reflexivity |].
  now rewrite IH.
Qed.

Lemma map_indexed_nth {A B : Type} (f : A -> nat -> B) (l : list A) (index i : nat) :
  nth_error (map_indexed f l index) i
  = option_map (fun x => f x (index + i)%nat) (nth_error l i).
Proof.
  revert index i. induction l as [| x l IH]; intros index i.
  - destruct i; reflexivity.
  - destruct i as [| i]; cbn [map_indexed nth_error option_map].
    + now rewrite Nat.add_0_r.
    + rewrite IH. now rewrite Nat.add_succ_comm.
Qed.

(** C8: the transformer is a total function of the record sequence: it
    returns one row per record, the [i]-th made from the [i]-th record alone
    and numbered [i + 1], whatever the cells hold. *)
Theorem processExcelData_row_by_row (data : list RawRecord) :
  List.length (processExcelData data) = List.length data
  /\ (forall i, nth_error (processExcelData data) i
                = option_map (fun row => processRow row i) (nth_error data i))
  /\ (forall i r, nth_error (processExcelData data) i = Some r -> rowIndex r = S i).
Proof.
  unfold processExcelData. split; [apply map_indexed_length | split].
  - intros i. now rewrite map_indexed_nth.
  - intros i r. rewrite map_indexed_nth. cbn [Nat.add].
    destruct (nth_error data i) as [row |]; cbn [option_map]; [| discriminate].
    intros [= <-]. cbn [processRow rowIndex]. now rewrite Nat.add_1_r.
Qed.

Lemma processExcelData_row_by_row_witness :
  nth_error (processExcelData [tied_row; sums_to_099]) 1 = Some (processRow sums_to_099 1)
  /\ rowIndex (processRow sums_to_099 1) = 2%nat.
Proof.
  destruct (processExcelData_row_by_row [tied_row; sums_to_099]) as (_ & Hnth & Hidx).
  split; [exact (Hnth 1%nat) | exact (Hidx 1%nat _ (Hnth 1%nat))].
Defined.

(** C9: a [DEPTH], [DT] or [GR] cell holding the number 0 comes out as
    [null]: the row drops out of the depth range and adds 0 to the sum of
    the average; a percentage cell holding 0 stays 0. *)
Theorem zero_cell_becomes_null (row : RawRecord) (index : nat) (rest : list ProcessedRow) :
  (get row "DEPTH" = VNum 0 ->
     DEPTH (processRow row index) = None
     /\ depths (processRow row index :: rest) = depths rest)
  /\ (get row "DT" = VNum 0 ->
        DT (processRow row index) = None /\ or_zero (DT (processRow row index)) = 0%float)
  /\ (get row "GR" = VNum 0 ->
        GR (processRow row index) = None /\ or_zero (GR (processRow row index)) = 0%float)
  /\ (get row "%SH" = VNum 0 -> SH (processRow row index) = 0%float)
  /\ (get row "%SS" = VNum 0 -> SS (processRow row index) = 0%float)
  /\ (get row "%LS" = VNum 0 -> LS (processRow row index) = 0%float)
  /\ (get row "%DOL" = VNum 0 -> DOL (processRow row index) = 0%float)
  /\ (get row "%ANH" = VNum 0 -> ANH (processRow row index) = 0%float)
  /\ (get row "%Coal" = VNum 0 -> Coal (processRow row index) = 0%float)
  /\ (get row "%Salt" = VNum 0 -> Salt (processRow row index) = 0%float).
Proof.
  unfold depths. cbn [processRow DEPTH DT GR SH SS LS DOL ANH Coal Salt map].
  repeat match goal with
         | |- _ /\ _ => split
         | |- _ -> _ => let H := fresh in intros H; rewrite H
         end; reflexivity.
Qed.

Lemma zero_cell_becomes_null_witness :
  DEPTH (processRow zero_cells 0) = None
  /\ depths [processRow zero_cells 0] = []
  /\ DT (processRow zero_cells 0) = None
  /\ SH (processRow zero_cells 0) = 0%float.
Proof.
  destruct (zero_cell_becomes_null zero_cells 0 []) as (Hdepth & Hdt & _ & Hsh & _).
  destruct (Hdepth eq_refl) as [H1 H2]. destruct (Hdt eq_refl) as [H3 _].
  split; [exact H1 | split; [exact H2 | split; [exact H3 | exact (Hsh eq_refl)]]].
Defined.

(** ** The statistics *)

Lemma or_zero_parse (v : value) :
  or_zero (parseFloat_or_null v) = null_as_zero (parseFloat_or_null v).
Proof.
  unfold parseFloat_or_null. destruct (JS.truthy_num (parseFloat v)) eqn:E; cbn.
  - now rewrite E.
  - reflexivity.
Qed.

Lemma sum_or_zero (field : ProcessedRow -> option float) (rows : list ProcessedRow) (acc : float) :
  Forall (fun r => or_zero (field r) = null_as_zero (field r)) rows ->
  fold_left (fun sum row => sum + or_zero (field row))%float rows acc
  = fold_left (fun sum x => sum + null_as_zero x)%float (map field rows) acc.
Proof.
  intros H. revert acc. induction H as [| r rows Hr _ IH]; intros acc; cbn [map fold_left].
  - reflexivity.
  - now rewrite Hr, IH.
Qed.

Lemma processed_fields (data : list RawRecord) (index : nat) :
  Forall (fun r => or_zero (DT r) = null_as_zero (DT r)
                   /\ or_zero (GR r) = null_as_zero (GR r))
         (map_indexed processRow data index).
Proof.
  revert index. induction data as [| row data IH]; intros index; cbn [map_indexed].
  - constructor.
  - constructor; [| apply IH]. cbn [processRow DT GR]. split; apply or_zero_parse.
Qed.

Lemma get_set (o : object) (k : string) (v : value) : get (set o k v) k = v.
Proof.
  unfold get. induction o as [| [k' v'] o IH]; cbn [set lookup].
  - now rewrite String.eqb_refl.
  - destruct (String.eqb k k') eqn:E; cbn [lookup]; rewrite ?String.eqb_refl, ?E; [reflexivity | exact IH].
Qed.

(** C5: the averages are the column sums, [null] counted as 0, divided by
    the number of rows; rows with [DT] 80, 85 and 90 average 85. *)
Theorem averages_divide_by_row_count (data : list RawRecord) (r1 r2 r3 : RawRecord) :
  Statistics.DT (Statistics.averages (stats (processExcelData data)))
  = (column_sum (map DT (processExcelData data))
     / number_of_nat (List.length (processExcelData data)))%float
  /\ Statistics.GR (Statistics.averages (stats (processExcelData data)))
     = (column_sum (map GR (processExcelData data))
        / number_of_nat (List.length (processExcelData data)))%float
  /\ Statistics.DT (Statistics.averages (stats (processExcelData
       [set r1 "DT" (VNum 80); set r2 "DT" (VNum 85); set r3 "DT" (VNum 90)])))
     = 85%float.
Proof.
  cbn [stats Statistics.averages Statistics.DT Statistics.GR]. unfold average, column_sum.
  pose proof (processed_fields data 0) as H. fold (processExcelData data) in H.
  repeat split.
  - f_equal. apply sum_or_zero. eapply Forall_impl; [| exact H]. now intros r [Hr _].
  - f_equal. apply sum_or_zero. eapply Forall_impl; [| exact H]. now intros r [_ Hr].
  - cbn [processExcelData map_indexed fold_left List.length processRow DT].
    rewrite !get_set. vm_compute. reflexivity.
Qed.

(** ** The upload route *)

(** C7, as the code has it: an extension other than [.xlsx] and [.xls] is
    turned away as unsupported, a first sheet of one row as having no data
    rows and a first sheet of no row at all as an empty file, whatever the
    validator would do: it is not called. *)
Theorem upload_rejects_before_validation
    (validate : list RawRecord -> completion ValidationResult)
    (f : UploadedFile) (decoded : Decoded) :
  (extension_allowed f = false -> upload_with validate (Some f) decoded = UnsupportedFormat)
  /\ (forall name names sheets,
        extension_allowed f = true ->
        decoded = Workbook (name :: names) sheets ->
        (lookup name sheets = Some [] ->
           upload_with validate (Some f) decoded = EmptyFile)
        /\ (forall header, lookup name sheets = Some [header] ->
              upload_with validate (Some f) decoded = NoDataRows)).
Proof.
  unfold extension_allowed, upload_with. split.
  - intros ->. reflexivity.
  - intros name names sheets -> ->. cbn [negb]. split.
    + intros ->. reflexivity.
    + intros header ->. reflexivity.
Qed.

Lemma upload_rejects_before_validation_witness :
  upload_with throwing_validator (Some text_file) (ReadError "unread") = UnsupportedFormat
  /\ upload_with throwing_validator (Some spreadsheet)
       (Workbook ["Sheet1"] [("Sheet1", [])]) = EmptyFile
  /\ upload_with throwing_validator (Some spreadsheet)
       (Workbook ["Sheet1"] [("Sheet1", [header_row])]) = NoDataRows.
Proof.
  split; [| split].
  - apply (upload_rejects_before_validation throwing_validator text_file (ReadError "unread")).
    reflexivity.
  - eapply (upload_rejects_before_validation throwing_validator spreadsheet);
      [reflexivity | reflexivity | reflexivity].
  - eapply (upload_rejects_before_validation throwing_validator spreadsheet);
      [reflexivity | reflexivity | reflexivity].
Defined.

(** C7 as the specification states it fails on a sheet of no row at all:
    it is not answered with the no-data-rows rejection. *)
Lemma empty_sheet_is_not_no_data_rows :
  upload (Some spreadsheet) (Workbook ["Sheet1"] [("Sheet1", [])]) <> NoDataRows.
Proof. vm_compute. discriminate. Qed.

(** ** The recommendations *)

(** C2: three valid rows, all of them shale: the share of shale is 100%, and
    the answer is the default one, without the inhibitive-mud advice. The
    distribution is keyed by the full names ([Shale], ...), while the
    recommendations read the keys [SH], [SS], [LS] and [DOL]. *)
Theorem shale_advice_is_not_given :
  map dominantRockType (processExcelData all_shale) = ["Shale"; "Shale"; "Shale"]
  /\ Statistics.rockTypeDistribution (stats (processExcelData all_shale)) = [("Shale", 3%float)]
  /\ generateDrillingRecommendations (uploaded_json (processExcelData all_shale))
     = Normal "Drilling recommendations based on your data: Formation appears relatively uniform - maintain current drilling parameters and monitor for changes.".
Proof. repeat split; vm_compute; reflexivity. Qed.

(** A share computed from an absent count is above no positive threshold. *)
Lemma zero_share (total : float) (threshold : float) :
  (0 <? threshold)%float = true ->
  JS.gt (0 / total * 100)%float threshold = false.
Proof.
  unfold JS.gt. rewrite !ltb_spec, mul_spec, div_spec.
  change (Prim2SF 0) with (S754_zero false).
  replace (Prim2SF 100) with (S754_finite false 7036874417766400 (-46)) by (vm_compute; reflexivity).
  destruct (Prim2SF total) as [ [] | [] | | [] m e ];
    destruct (Prim2SF threshold) as [ [] | [] | | [] m' e' ]; cbn; congruence.
Qed.

Lemma lookup_absent {A : Type} (k : string) (o : list (string * A)) :
  ~ In k (keys o) -> lookup k o = None.
Proof.
  induction o as [| [k' v] o IH]; cbn [keys map lookup fst In]; [reflexivity |].
  intros H. destruct (String.eqb_spec k k') as [-> | _].
  - exfalso. apply H. now left.
  - apply IH. intros Hin. apply H. now right.
Qed.

Lemma keys_set {A : Type} (o : list (string * A)) (k : string) (v : A) (c : string) :
  In c (keys (set o k v)) -> c = k \/ In c (keys o).
Proof.
  induction o as [| [k' v'] o IH]; cbn [set keys map fst In].
  - intros [<- | []]. now left.
  - destruct (String.eqb_spec k k') as [-> | _]; cbn [map fst In].
    + intros [<- | H]; [now left | right; now right].
    + intros [<- | H]; [right; now left |].
      destruct (IH H) as [-> | H']; [now left | right; now right].
Qed.

Lemma keep_greater_In (v : string -> float) (others : list string) (acc : string) :
  In (fold_left (keep_greater v) others acc) (acc :: others).
Proof.
  revert acc. induction others as [| b others IH]; intros acc; cbn [fold_left].
  - now left.
  - unfold keep_greater at 2. destruct (JS.gt (v acc) (v b)).
    + destruct (IH acc) as [H | H]; [now left | right; now right].
    + right. apply IH.
Qed.

Lemma dominant_is_a_category (row : RawRecord) (index : nat) :
  In (dominantRockType (processRow row index)) categories.
Proof.
  change (dominantRockType (processRow row index))
    with (fold_left (keep_greater (percentage (processRow row index))) (tl categories) "Shale").
  apply (keep_greater_In (percentage (processRow row index)) (tl categories) "Shale").
Qed.

Lemma distribution_keys (rows : list ProcessedRow) (dist : list (string * float)) (c : string) :
  In c (keys (fold_left count_rock_type rows dist)) ->
  In c (keys dist) \/ exists r, In r rows /\ c = dominantRockType r.
Proof.
  revert dist. induction rows as [| r rows IH]; intros dist; cbn [fold_left].
  - now left.
  - intros H. destruct (IH _ H) as [Hk | (r' & Hr' & ->)].
    + unfold count_rock_type in Hk. apply keys_set in Hk. destruct Hk as [-> | Hk].
      * right. exists r. split; [now left | reflexivity].
      * now left.
    + right. exists r'. split; [now right | reflexivity].
Qed.

Lemma processed_rows_dominant (data : list RawRecord) (index : nat) (r : ProcessedRow) :
  In r (map_indexed processRow data index) -> In (dominantRockType r) categories.
Proof.
  revert index. induction data as [| row data IH]; intros index; cbn [map_indexed In].
  - intros [].
  - intros [<- | H]; [apply dominant_is_a_category | exact (IH _ H)].
Qed.

(** The distribution of an upload is keyed by category names. *)
Lemma upload_distribution_keys (data : list RawRecord) (c : string) :
  In c (keys (Statistics.rockTypeDistribution (stats (processExcelData data)))) ->
  In c categories.
Proof.
  cbn [stats Statistics.rockTypeDistribution]. intros H.
  apply distribution_keys in H. destruct H as [[] | (r & Hr & ->)].
  exact (processed_rows_dominant _ _ _ Hr).
Qed.

Lemma keys_json (dist : list (string * float)) :
  keys (map (fun entry => (fst entry, json_number (snd entry))) dist) = keys dist.
Proof. unfold keys. rewrite map_map. reflexivity. Qed.

Lemma short_key_absent (dist : list (string * json)) (k : string) :
  (forall c, In c (keys dist) -> In c categories) ->
  ~ In k categories ->
  prop (Obj dist) k = Normal undefined.
Proof.
  intros Hkeys Hk. cbn [prop]. rewrite lookup_absent; [reflexivity |].
  intros H. apply Hk, Hkeys, H.
Qed.

Lemma recommendations_without_lithology (st : Statistics.t) (recs : list string) :
  (forall c, In c (keys (Statistics.rockTypeDistribution st)) -> In c categories) ->
  recommendations_for (statistics_json st) = Normal recs ->
  advice_free recs.
Proof.
  intros Hkeys. unfold recommendations_for, statistics_json.
  set (dist := map _ (Statistics.rockTypeDistribution st)).
  assert (Hdist : forall c, In c (keys dist) -> In c categories).
  { intros c. subst dist. rewrite keys_json. apply Hkeys. }
  assert (Hno : forall k, In k ["SH"; "SS"; "LS"; "DOL"] -> ~ In k categories).
  { intros k Hk Hc. cbn in Hk, Hc. intuition (subst; discriminate). }
  change (prop (Obj _) "rockTypeDistribution") with (Normal (Obj dist)). cbn [bind].
  change (Object_values (Obj dist)) with (Normal (map snd dist)). cbn [bind].
  rewrite !(short_key_absent _ Hdist) by (apply Hno; cbn; auto).
  cbn [bind].
  generalize (sum_counts (map snd dist)) as total. intros total.
  change (share undefined total) with (0 / number_of total * 100)%float.
  change (share (plus (or_else undefined (num 0)) (or_else undefined (num 0))) total)
    with ((0 + 0) / number_of total * 100)%float.
  change (0 + 0)%float with 0%float.
  rewrite !zero_share by reflexivity.
  change (prop (Obj _) "averages")
    with (Normal (Obj [("DT", json_number (Statistics.DT (Statistics.averages st)));
                       ("GR", json_number (Statistics.GR (Statistics.averages st)))])).
  cbn [bind prop lookup String.eqb Ascii.eqb Bool.eqb].
  generalize (number_of (json_number (Statistics.DT (Statistics.averages st)))) as dt.
  generalize (number_of (json_number (Statistics.GR (Statistics.averages st)))) as gr.
  intros gr dt.
  destruct (JS.gt dt 100), (JS.lt dt 60), (JS.gt gr 100); cbn; intros [= <-];
    unfold advice_free; cbn; intuition discriminate.
Qed.

(** X2: whatever was uploaded, the recommendations hold none of the three
    pieces of advice that depend on the rock types. *)
Theorem lithology_advice_is_unreachable (data : list RawRecord) (recs : list string) :
  recommendations_for (statistics_json (stats (processExcelData data))) = Normal recs ->
  advice_free recs.
Proof.
  apply recommendations_without_lithology. apply upload_distribution_keys.
Qed.

Lemma lithology_advice_is_unreachable_witness :
  advice_free ["Formation appears relatively uniform - maintain current drilling parameters and monitor for changes"].
Proof.
  apply (lithology_advice_is_unreachable all_shale). vm_compute. reflexivity.
Defined.

(** ** The chat route *)

(** C6: the model is down and the well has no status: the fallback throws
    on [wellData.status.toLowerCase()], in the inner [catch] and again in the
    outer one, and the handler ends with that error instead of an answer. *)
Theorem chat_fails_when_the_fallback_throws (reason now random timestamp : string) :
  generateFallbackResponse (field [("message", Prim (VStr "What is the depth?"))] "message")
                           (Obj [("status", Prim VNull)]) undefined
  = Throw "Cannot read properties of null (reading 'toLowerCase')"
  /\ chat (unreachable_model reason now random timestamp) depth_of_well_without_status
     = Throw "Cannot read properties of null (reading 'toLowerCase')".
Proof. split; vm_compute; reflexivity. Qed.

Lemma prop_field (fields : list (string * json)) (k : string) :
  prop (Obj fields) k = Normal (field fields k).
Proof. reflexivity. Qed.

(** X3: when the model fails and the fallback responder returns, the chat
    route answers with the fallback text and [isAIResponse = false], whether
    the prompt could be built or not. *)
Theorem chat_answers_with_the_fallback (env : Environment) (fields : list (string * json))
    (text : string) :
  truthy_json (field fields "message") = true ->
  (forall context, exists reason,
      generate env context (field fields "message") = Throw reason) ->
  generateFallbackResponse (field fields "message") (field fields "wellData")
                           (field fields "uploadedData") = Normal text ->
  exists answer,
    chat env (Obj fields) = Normal (Answer answer)
    /\ response answer = Prim (VStr text)
    /\ isAIResponse answer = false.
Proof.
  intros Hmessage Hdown Hfallback. unfold chat, chat_try, chat_catch.
  rewrite !prop_field. cbn [bind]. rewrite Hmessage. cbn [negb].
  destruct (buildContext _ _ _) as [context | thrown]; cbn [bind].
  - destruct (Hdown context) as [reason ->]. rewrite Hfallback. cbn [bind fst snd].
    eexists. split; [reflexivity | split; reflexivity].
  - rewrite Hfallback. cbn [bind]. eexists. split; [reflexivity | split; reflexivity].
Qed.

Lemma chat_answers_with_the_fallback_witness :
  exists answer,
    chat (unreachable_model "API Error" "1700000000000" "k3x9q2m1z" "2024-01-01T00:00:00.000Z")
         (Obj [("message", Prim (VStr "What is the depth?"))])
    = Normal (Answer answer)
    /\ response answer
       = Prim (VStr "Depth information is not available. Please select a well or upload drilling data to see depth analysis.")
    /\ isAIResponse answer = false.
Proof.
  apply chat_answers_with_the_fallback.
  - reflexivity.
  - intros context. exists "API Error". reflexivity.
  - vm_compute. reflexivity.
Defined.

(** ** Rounding to binary64: what [SFadd] and [SFsub] keep *)
Module RoundingFacts.

Import Rounding.
Local Open Scope Z_scope.

Lemma fexp64_eq (e : Z) : fexp64 e = Z.max (e - 53) (-1074).
Proof. reflexivity. Qed.

(** *** Powers of two, digits and shifts *)

Lemma pow2_pos (k : Z) : 0 <= k -> 0 < pow2 k.
Proof. intros H. apply Z.pow_pos_nonneg; lia. Qed.

Lemma pow2_0 : pow2 0 = 1.
Proof. reflexivity. Qed.

Lemma pow2_succ (k : Z) : 0 <= k -> pow2 (k + 1) = 2 * pow2 k.
Proof. intros H. unfold pow2. rewrite Z.pow_add_r, Z.pow_1_r by lia. apply Z.mul_comm. Qed.

Lemma pow2_add (a b : Z) : 0 <= a -> 0 <= b -> pow2 (a + b) = pow2 a * pow2 b.
Proof. intros Ha Hb. unfold pow2. now apply Z.pow_add_r. Qed.

Lemma pow2_le (a b : Z) : 0 <= a <= b -> pow2 a <= pow2 b.
Proof. intros H. unfold pow2. apply Z.pow_le_mono_r; lia. Qed.

Lemma pow2_lt_inv (a b : Z) : 0 <= b -> pow2 a < pow2 b -> a < b.
Proof. intros Hb H. unfold pow2 in H. apply Z.pow_lt_mono_r_iff in H; lia. Qed.

Lemma digits2_pos_bounds (p : positive) :
  pow2 (Zpos (digits2_pos p) - 1) <= Zpos p < pow2 (Zpos (digits2_pos p)).
Proof.
  induction p as [p IH | p IH |]; cbn [digits2_pos].
  - rewrite Pos2Z.inj_succ, Pos2Z.inj_xI.
    replace (Z.succ (Zpos (digits2_pos p)) - 1) with ((Zpos (digits2_pos p) - 1) + 1) by lia.
    replace (Z.succ (Zpos (digits2_pos p))) with (Zpos (digits2_pos p) + 1) by lia.
    rewrite !pow2_succ by lia. lia.
  - rewrite Pos2Z.inj_succ, Pos2Z.inj_xO.
    replace (Z.succ (Zpos (digits2_pos p)) - 1) with ((Zpos (digits2_pos p) - 1) + 1) by lia.
    replace (Z.succ (Zpos (digits2_pos p))) with (Zpos (digits2_pos p) + 1) by lia.
    rewrite !pow2_succ by lia. lia.
  - cbn. lia.
Qed.

Lemma iter_xO (m d : positive) : Zpos (Pos.iter xO m d) = Zpos m * pow2 (Zpos d).
Proof.
  induction d as [| d IH] using Pos.peano_ind.
  - cbn. lia.
  - rewrite Pos.iter_succ, Pos2Z.inj_xO, IH, Pos2Z.inj_succ.
    replace (Z.succ (Zpos d)) with (Zpos d + 1) by lia. rewrite pow2_succ by lia. lia.
Qed.

Lemma iter_pos_invariant {A : Type} (f : A -> A) (Inv : Z -> A -> Prop) :
  (forall k x, 0 <= k -> Inv k x -> Inv (k + 1) (f x)) ->
  forall p k x, 0 <= k -> Inv k x -> Inv (k + Zpos p) (iter_pos f p x).
Proof.
  intros Hstep. induction p as [p IH | p IH |]; intros k x Hk Hx; cbn [iter_pos].
  - replace (k + Zpos p~1) with (((k + 1) + Zpos p) + Zpos p) by lia.
    apply IH; [lia |]. apply IH; [lia |]. now apply Hstep.
  - replace (k + Zpos p~0) with ((k + Zpos p) + Zpos p) by lia.
    apply IH; [lia |]. now apply IH.
  - now apply Hstep.
Qed.

Lemma shr_1_shifted (m0 k : Z) (r : shr_record) :
  0 <= m0 -> 0 <= k -> shifted m0 k r -> shifted m0 (k + 1) (shr_1 r).
Proof.
  intros Hm0 Hk [Hm Hloc]. destruct r as [m r s]. cbn [shr_m shr_r shr_s] in *.
  pose proof (pow2_pos Hk) as Hpow.
  assert (Hm_nonneg : 0 <= m) by (subst m; apply Z.div_pos; lia).
  assert (Hsplit : m0 mod pow2 (k + 1) = m0 mod pow2 k + pow2 k * (m mod 2)).
  { rewrite pow2_succ by lia. subst m. rewrite (Z.mul_comm 2). apply Z.rem_mul_r; lia. }
  assert (Hquot : m0 / pow2 (k + 1) = m / 2).
  { rewrite pow2_succ by lia. subst m. rewrite (Z.mul_comm 2). symmetry. apply Z.div_div; lia. }
  pose proof (Z.mod_pos_bound m0 (pow2 k) Hpow) as Hrem.
  unfold shifted. rewrite Hsplit, Hquot. clear Hsplit Hquot Hm.
  destruct m as [| [p | p |] | p]; cbn [shr_1 shr_m shr_r shr_s]; try lia.
  - split; [reflexivity |]. rewrite orb_false_l. intros H. specialize (Hloc H). cbn. lia.
  - split; [rewrite Pos2Z.inj_xI; apply Z.div_unique with 1; lia |].
    intros _. rewrite Pos2Z.inj_xI.
    replace ((2 * Zpos p + 1) mod 2) with 1 by (apply Z.mod_unique with (Zpos p); lia).
    lia.
  - split; [rewrite Pos2Z.inj_xO; apply Z.div_unique with 0; lia |].
    rewrite orb_false_l. intros H. specialize (Hloc H).
    rewrite Pos2Z.inj_xO.
    replace ((2 * Zpos p) mod 2) with 0 by (apply Z.mod_unique with (Zpos p); lia).
    lia.
  - split; [reflexivity |]. intros _. cbn. lia.
Qed.

Lemma shr_shifted (m0 e n : Z) :
  0 <= m0 ->
  shifted m0 (Z.max n 0) (fst (shr (Build_shr_record m0 false false) e n))
  /\ snd (shr (Build_shr_record m0 false false) e n) = e + Z.max n 0.
Proof.
  intros Hm0.
  assert (Hstart : shifted m0 0 (Build_shr_record m0 false false)).
  { split; cbn [shr_m shr_r shr_s]; [rewrite pow2_0; now rewrite Z.div_1_r | discriminate]. }
  destruct n as [| p | p]; cbn [shr fst snd].
  - rewrite Z.max_l by lia. split; [exact Hstart | lia].
  - rewrite Z.max_l by lia. split; [| lia].
    change (Zpos p) with (0 + Zpos p) at 1.
    apply (iter_pos_invariant shr_1 (shifted m0)); [| lia | exact Hstart].
    intros k x Hk. now apply shr_1_shifted.
  - rewrite Z.max_r by lia. split; [exact Hstart | lia].
Qed.

Lemma round_nearest_even_bounds (m0 k : Z) (r : shr_record) :
  shifted m0 k r ->
  m0 / pow2 k <= round_nearest_even (shr_m r) (loc_of_shr_record r) <= m0 / pow2 k + 1
  /\ (m0 mod pow2 k = 0 ->
      round_nearest_even (shr_m r) (loc_of_shr_record r) = m0 / pow2 k).
Proof.
  intros [Hm Hloc]. destruct r as [m [] []]; cbn [shr_m shr_r shr_s] in *;
    cbn [loc_of_shr_record round_nearest_even]; rewrite <- Hm.
  - split; [lia |]. intros H. now destruct (Hloc eq_refl).
  - destruct (Z.even m); (split; [lia |]); intros H; now destruct (Hloc eq_refl).
  - split; [lia |]. intros H. now destruct (Hloc eq_refl).
  - split; [lia | reflexivity].
Qed.

(** *** What [binary_round_aux] returns *)

Lemma binary_round_aux_spec (s : bool) (mz : positive) (ez : Z) :
  exists m1,
    Zpos mz / pow2 (Z.max (fexp64 (Zpos (digits2_pos mz) + ez) - ez) 0) <= m1
    /\ m1 <= Zpos mz / pow2 (Z.max (fexp64 (Zpos (digits2_pos mz) + ez) - ez) 0) + 1
    /\ (Zpos mz mod pow2 (Z.max (fexp64 (Zpos (digits2_pos mz) + ez) - ez) 0) = 0 ->
        m1 = Zpos mz / pow2 (Z.max (fexp64 (Zpos (digits2_pos mz) + ez) - ez) 0))
    /\ binary_round_aux prec emax s (Zpos mz) ez loc_Exact
       = finish s
           (m1 / pow2 (Z.max (fexp64 (Zdigits2 m1
                                      + (ez + Z.max (fexp64 (Zpos (digits2_pos mz) + ez) - ez) 0))
                              - (ez + Z.max (fexp64 (Zpos (digits2_pos mz) + ez) - ez) 0)) 0))
           (ez + Z.max (fexp64 (Zpos (digits2_pos mz) + ez) - ez) 0
            + Z.max (fexp64 (Zdigits2 m1
                             + (ez + Z.max (fexp64 (Zpos (digits2_pos mz) + ez) - ez) 0))
                     - (ez + Z.max (fexp64 (Zpos (digits2_pos mz) + ez) - ez) 0)) 0).
Proof.
  set (N := Z.max (fexp64 (Zpos (digits2_pos mz) + ez) - ez) 0).
  unfold binary_round_aux, shr_fexp. cbn [shr_record_of_loc Zdigits2].
  fold fexp64.
  destruct (shr_shifted ez (fexp64 (Zpos (digits2_pos mz) + ez) - ez) (Pos2Z.is_nonneg mz))
    as [Hshift He1].
  fold N in Hshift, He1.
  destruct (shr _ ez _) as [r1 e1]. cbn [fst snd] in Hshift, He1. subst e1.
  destruct (round_nearest_even_bounds Hshift) as [[Hlow Hhigh] Hexact].
  set (m1 := round_nearest_even (shr_m r1) (loc_of_shr_record r1)) in *.
  assert (Hm1 : 0 <= m1).
  { apply Z.le_trans with (Zpos mz / pow2 N); [| exact Hlow].
    apply Z.div_pos; [lia |]. apply pow2_pos. subst N. lia. }
  destruct (shr_shifted (ez + N) (fexp64 (Zdigits2 m1 + (ez + N)) - (ez + N)) Hm1)
    as [[Hshift2 _] He2].
  destruct (shr _ (ez + N) _) as [r2 e2]. cbn [fst snd] in Hshift2, He2. subst e2.
  exists m1. repeat split; try assumption.
  rewrite Hshift2. unfold finish. reflexivity.
Qed.

(** *** Bounds that rounding keeps *)

Lemma pow2_split (a b : Z) : 0 <= a -> 0 <= b -> pow2 (a + b) = pow2 a * pow2 b.
Proof. apply pow2_add. Qed.

Lemma pow2_52 : pow2 52 = 4503599627370496.
Proof. reflexivity. Qed.

Lemma Zdigits2_upper (m k : Z) : 0 <= m < pow2 k -> 0 <= k -> Zdigits2 m <= k.
Proof.
  intros [Hlow Hhigh] Hk. destruct m as [| p | p]; cbn [Zdigits2]; try lia.
  pose proof (digits2_pos_bounds p) as [Hd _].
  assert (H : Zpos (digits2_pos p) - 1 < k) by (apply pow2_lt_inv; lia).
  lia.
Qed.

Lemma Zdigits2_lower (m : Z) : 0 < m -> pow2 (Zdigits2 m - 1) <= m.
Proof.
  intros H. destruct m as [| p | p]; try lia. cbn [Zdigits2].
  apply digits2_pos_bounds.
Qed.

(** [x] scaled by [2^(a+b)] and divided by [2^b]. *)
Lemma scale_le (x y a b : Z) :
  0 <= a -> 0 <= b -> x <= y * pow2 (a + b) -> x / pow2 b <= y * pow2 a.
Proof.
  intros Ha Hb H. pose proof (pow2_pos Hb) as Hpos.
  apply Z.div_le_upper_bound; [exact Hpos |].
  rewrite pow2_add in H by assumption. lia.
Qed.

Lemma scale_ge (x y a b : Z) :
  0 <= a -> 0 <= b -> y * pow2 (a + b) <= x -> y * pow2 a <= x / pow2 b.
Proof.
  intros Ha Hb H. pose proof (pow2_pos Hb) as Hpos.
  apply Z.div_le_lower_bound; [exact Hpos |].
  rewrite pow2_add in H by assumption. lia.
Qed.

Lemma finish_at_most (s : bool) (g hi m e : Z) :
  0 <= m -> e <= g -> g <= 971 -> m <= hi * pow2 (g - e) -> at_most s g hi (finish s m e).
Proof.
  intros Hm He Hg Hle. destruct m as [| p | p]; cbn [finish]; try lia.
  - exact I.
  - replace (e <=? 971) with true by (symmetry; apply Z.leb_le; lia).
    cbn [at_most]. auto.
Qed.

Lemma finish_at_least (s : bool) (c l m e : Z) :
  0 < m -> (e <= c -> l * pow2 (c - e) <= m) -> at_least s c l (finish s m e).
Proof.
  intros Hm Hle. destruct m as [| p | p]; cbn [finish]; try lia.
  destruct (e <=? 971); cbn [at_least]; auto.
Qed.

Lemma binary_round_aux_at_most (s : bool) (mz : positive) (ez g hi : Z) :
  -1074 <= g <= 971 -> ez <= g -> 0 <= hi < pow2 53 ->
  Zpos mz <= hi * pow2 (g - ez) ->
  at_most s g hi (binary_round_aux prec emax s (Zpos mz) ez loc_Exact).
Proof.
  intros Hg Hez Hhi Hm.
  destruct (binary_round_aux_spec s mz ez) as (m1 & Hlow & Hhigh & Hexact & ->).
  set (d := Zpos (digits2_pos mz)) in *.
  assert (Hd : d + ez - 53 <= g).
  { pose proof (digits2_pos_bounds mz) as [Hd _]. fold d in Hd.
    assert (Hlt : Zpos mz < pow2 (53 + (g - ez))).
    { rewrite pow2_add by lia. pose proof (@pow2_pos (g - ez)). nia. }
    assert (d - 1 < 53 + (g - ez)) by (apply pow2_lt_inv; lia). lia. }
  rewrite !fexp64_eq in *.
  set (N := Z.max (Z.max (d + ez - 53) (-1074) - ez) 0) in *.
  assert (HN : 0 <= N) by (subst N; lia).
  assert (He1 : ez + N <= g) by (subst N; lia).
  assert (He1' : -1074 <= ez + N) by (subst N; lia).
  pose proof (pow2_pos HN) as HP.
  assert (Hsplit : pow2 (g - ez) = pow2 (g - (ez + N)) * pow2 N).
  { rewrite <- pow2_add by lia. f_equal. lia. }
  set (P := pow2 N) in *. set (A := pow2 (g - (ez + N))) in *.
  assert (HA : 0 < A) by (apply pow2_pos; lia).
  set (q := Zpos mz / P) in *.
  assert (Hq : q <= hi * A).
  { apply Z.div_le_upper_bound; [exact HP |]. rewrite Hsplit in Hm. lia. }
  assert (Hq0 : 0 <= q) by (apply Z.div_pos; lia).
  assert (Hm1 : m1 <= hi * A).
  { destruct (Z.eq_dec q (hi * A)) as [Heq | Hne]; [| lia].
    rewrite Hexact; [lia |].
    pose proof (Z.mul_div_le (Zpos mz) P HP) as Hle. fold q in Hle.
    assert (Hmz : Zpos mz = hi * A * P) by (rewrite Hsplit in Hm; nia).
    rewrite Hmz. apply Z.mod_mul. lia. }
  assert (Hm1_lt : m1 < pow2 (53 + (g - (ez + N)))).
  { rewrite pow2_add by lia. fold A. nia. }
  assert (Hd1 : Zdigits2 m1 <= 53 + (g - (ez + N))).
  { apply Zdigits2_upper; lia. }
  set (d1 := Zdigits2 m1) in *.
  set (N2 := Z.max (Z.max (d1 + (ez + N) - 53) (-1074) - (ez + N)) 0).
  assert (HN2 : 0 <= N2) by (subst N2; lia).
  assert (He2 : ez + N + N2 <= g) by (subst N2; lia).
  apply finish_at_most; try lia.
  - apply Z.div_pos; [lia | apply pow2_pos; lia].
  - apply scale_le; try lia.
    replace (g - (ez + N + N2) + N2) with (g - (ez + N)) by lia. exact Hm1.
Qed.

Lemma binary_round_aux_at_least (s : bool) (mz : positive) (ez c l : Z) :
  -1074 <= ez -> ez <= c -> 0 <= l ->
  l * pow2 (c - ez) <= Zpos mz ->
  at_least s c l (binary_round_aux prec emax s (Zpos mz) ez loc_Exact).
Proof.
  intros Hez Hc Hl Hm.
  destruct (binary_round_aux_spec s mz ez) as (m1 & Hlow & _ & _ & ->).
  set (d := Zpos (digits2_pos mz)) in *.
  pose proof (digits2_pos_bounds mz) as [Hd _]. fold d in Hd.
  rewrite !fexp64_eq in *.
  set (N := Z.max (Z.max (d + ez - 53) (-1074) - ez) 0) in *.
  assert (HN : 0 <= N) by (subst N; lia).
  pose proof (pow2_pos HN) as HP.
  assert (Hq1 : 1 <= Zpos mz / pow2 N).
  { destruct (Z.eq_dec N 0) as [-> | Hne].
    - rewrite pow2_0, Z.div_1_r. lia.
    - assert (HNd : N = d - 53) by (subst N; lia).
      apply Z.div_le_lower_bound; [exact HP |].
      replace (d - 1) with (52 + N) in Hd by lia.
      rewrite pow2_add, pow2_52 in Hd by lia. lia. }
  assert (Hm1 : 1 <= m1) by lia.
  pose proof (@Zdigits2_lower m1 ltac:(lia)) as Hd1.
  set (d1 := Zdigits2 m1) in *.
  set (N2 := Z.max (Z.max (d1 + (ez + N) - 53) (-1074) - (ez + N)) 0).
  assert (HN2 : 0 <= N2) by (subst N2; lia).
  pose proof (pow2_pos HN2) as HP2.
  apply finish_at_least.
  - assert (1 <= m1 / pow2 N2); [| lia].
    destruct (Z.eq_dec N2 0) as [HN20 | Hne].
    + rewrite HN20, pow2_0, Z.div_1_r. lia.
    + assert (HNd : N2 = d1 - 53) by (subst N2; lia).
      apply Z.div_le_lower_bound; [exact HP2 |].
      replace (d1 - 1) with (52 + N2) in Hd1 by lia.
      rewrite pow2_add, pow2_52 in Hd1 by lia. lia.
  - intros He2. apply scale_ge; try lia.
    replace (c - (ez + N + N2) + N2) with (c - (ez + N)) by lia.
    apply Z.le_trans with (Zpos mz / pow2 N); [| exact Hlow].
    apply scale_ge; try lia.
    replace (c - (ez + N) + N) with (c - ez) by lia. exact Hm.
Qed.

(** *** Alignment and [binary_round] *)

Lemma shl_align_spec (mx : positive) (ex ex' : Z) :
  snd (shl_align mx ex ex') = Z.min ex ex'
  /\ Zpos (fst (shl_align mx ex ex')) = Zpos mx * pow2 (ex - Z.min ex ex').
Proof.
  unfold shl_align. destruct (ex' - ex) as [| d | d] eqn:Hd; cbn [fst snd].
  - rewrite Z.min_l by lia. rewrite Z.sub_diag, pow2_0. lia.
  - rewrite Z.min_l by lia. rewrite Z.sub_diag, pow2_0. lia.
  - rewrite Z.min_r by lia. rewrite iter_xO. split; [reflexivity |].
    do 2 f_equal. lia.
Qed.

Lemma binary_round_at_most (s : bool) (mx : positive) (ex g hi : Z) :
  -1074 <= g <= 971 -> ex <= g -> 0 <= hi < pow2 53 ->
  Zpos mx <= hi * pow2 (g - ex) ->
  at_most s g hi (binary_round prec emax s mx ex).
Proof.
  intros Hg Hex Hhi Hm. unfold binary_round.
  destruct (shl_align_spec mx ex (fexp prec emax (Zpos (digits2_pos mx) + ex)))
    as [Hez Hmz].
  destruct (shl_align mx ex _) as [mz ez]. cbn [fst snd] in Hez, Hmz.
  set (ez' := Z.min ex (fexp prec emax (Zpos (digits2_pos mx) + ex))) in *.
  assert (Hle : ez' <= ex) by (subst ez'; lia).
  subst ez. apply binary_round_aux_at_most; try lia.
  rewrite Hmz. replace (g - ez') with ((g - ex) + (ex - ez')) by lia.
  rewrite pow2_add by lia. pose proof (@pow2_pos (ex - ez') ltac:(lia)). nia.
Qed.

Lemma binary_round_at_least (s : bool) (mx : positive) (ex c l : Z) :
  -1074 <= ex -> ex <= c -> 0 <= l ->
  l * pow2 (c - ex) <= Zpos mx ->
  at_least s c l (binary_round prec emax s mx ex).
Proof.
  intros Hex Hc Hl Hm. unfold binary_round.
  destruct (shl_align_spec mx ex (fexp prec emax (Zpos (digits2_pos mx) + ex)))
    as [Hez Hmz].
  destruct (shl_align mx ex _) as [mz ez]. cbn [fst snd] in Hez, Hmz.
  fold fexp64 in Hez, Hmz. rewrite fexp64_eq in Hez, Hmz.
  set (ez' := Z.min ex (Z.max (Zpos (digits2_pos mx) + ex - 53) (-1074))) in *.
  assert (Hle : -1074 <= ez' <= ex) by (subst ez'; lia).
  subst ez. apply binary_round_aux_at_least; try lia.
  rewrite Hmz. replace (c - ez') with ((c - ex) + (ex - ez')) by lia.
  rewrite pow2_add by lia. pose proof (@pow2_pos (ex - ez') ltac:(lia)). nia.
Qed.

Lemma at_most_weaken (s : bool) (g hi hi' : Z) (f : spec_float) :
  hi <= hi' -> -1074 <= g -> at_most s g hi f -> at_most s g hi' f.
Proof.
  intros Hle Hg. destruct f as [s' | s' | | s' m e]; cbn [at_most]; try tauto.
  intros (Hs & He & Hm). repeat split; try assumption.
  pose proof (@pow2_pos (g - e) ltac:(lia)). nia.
Qed.

Lemma at_least_weaken (s : bool) (c l l' : Z) (f : spec_float) :
  l' <= l -> at_least s c l f -> at_least s c l' f.
Proof.
  intros Hle. destruct f as [s' | s' | | s' m e]; cbn [at_least]; try tauto.
  intros (Hs & Hm). split; [assumption |]. intros He. specialize (Hm He).
  pose proof (@pow2_pos (c - e) ltac:(lia)). nia.
Qed.

(** *** Sums and differences *)

Lemma SFadd_finite (sx : bool) (mx : positive) (ex : Z) (sy : bool) (my : positive) (ey : Z) :
  SFadd prec emax (S754_finite sx mx ex) (S754_finite sy my ey)
  = binary_normalize prec emax
      (cond_Zopp sx (Zpos (fst (shl_align mx ex (Z.min ex ey))))
       + cond_Zopp sy (Zpos (fst (shl_align my ey (Z.min ex ey)))))
      (Z.min ex ey) false.
Proof. reflexivity. Qed.

Lemma SFsub_finite (sx : bool) (mx : positive) (ex : Z) (sy : bool) (my : positive) (ey : Z) :
  SFsub prec emax (S754_finite sx mx ex) (S754_finite sy my ey)
  = binary_normalize prec emax
      (cond_Zopp sx (Zpos (fst (shl_align mx ex (Z.min ex ey))))
       - cond_Zopp sy (Zpos (fst (shl_align my ey (Z.min ex ey)))))
      (Z.min ex ey) false.
Proof. reflexivity. Qed.

Lemma aligned_left (mx : positive) (ex ey : Z) :
  Zpos (fst (shl_align mx ex (Z.min ex ey))) = Zpos mx * pow2 (ex - Z.min ex ey).
Proof.
  destruct (shl_align_spec mx ex (Z.min ex ey)) as [_ H]. rewrite H.
  do 2 f_equal. lia.
Qed.

Lemma aligned_right (my : positive) (ex ey : Z) :
  Zpos (fst (shl_align my ey (Z.min ex ey))) = Zpos my * pow2 (ey - Z.min ex ey).
Proof.
  destruct (shl_align_spec my ey (Z.min ex ey)) as [_ H]. rewrite H.
  do 2 f_equal. lia.
Qed.

Lemma binary_normalize_at_most (z ez g hi : Z) :
  -1074 <= g <= 971 -> ez <= g -> 0 <= hi < pow2 53 ->
  0 <= z <= hi * pow2 (g - ez) ->
  at_most false g hi (binary_normalize prec emax z ez false).
Proof.
  intros Hg Hez Hhi Hz. destruct z as [| p | p]; cbn [binary_normalize]; try lia.
  - exact I.
  - apply binary_round_at_most; lia.
Qed.

Lemma binary_normalize_at_least (z ez c l : Z) :
  -1074 <= ez -> ez <= c -> 0 <= l ->
  z < 0 -> l * pow2 (c - ez) <= - z ->
  at_least true c l (binary_normalize prec emax z ez false).
Proof.
  intros Hez Hc Hl Hneg Hz. destruct z as [| p | p]; cbn [binary_normalize]; try lia.
  apply binary_round_at_least; lia.
Qed.

Lemma SFadd_at_most (x y : spec_float) (g h1 h2 : Z) :
  -1074 <= g <= 971 -> 0 <= h1 -> 0 <= h2 -> h1 + h2 < pow2 53 ->
  at_most false g h1 x -> at_most false g h2 y ->
  at_most false g (h1 + h2) (SFadd prec emax x y).
Proof.
  intros Hg H1 H2 Hsum Hx Hy.
  destruct x as [sx | sx | | sx mx ex]; cbn [at_most] in Hx; try contradiction;
    destruct y as [sy | sy | | sy my ey]; cbn [at_most] in Hy; try contradiction.
  - destruct sx, sy; exact I.
  - cbn [SFadd]. apply at_most_weaken with h2; [lia | lia |]. exact Hy.
  - cbn [SFadd]. apply at_most_weaken with h1; [lia | lia |]. exact Hx.
  - destruct Hx as (-> & Hex & Hmx). destruct Hy as (-> & Hey & Hmy).
    rewrite SFadd_finite. cbn [cond_Zopp]. rewrite aligned_left, aligned_right.
    set (ez := Z.min ex ey) in *.
    assert (Hez : ez <= ex /\ ez <= ey) by (subst ez; lia).
    apply binary_normalize_at_most; try lia.
    pose proof (@pow2_pos (ex - ez) ltac:(lia)).
    pose proof (@pow2_pos (ey - ez) ltac:(lia)).
    split; [lia |].
    replace (g - ez) with ((g - ex) + (ex - ez)) at 1 by lia.
    assert (Hsplit : pow2 (g - ez) = pow2 (g - ex) * pow2 (ex - ez)).
    { rewrite <- pow2_add by lia. f_equal. lia. }
    assert (Hsplit' : pow2 (g - ez) = pow2 (g - ey) * pow2 (ey - ez)).
    { rewrite <- pow2_add by lia. f_equal. lia. }
    replace (g - ex + (ex - ez)) with (g - ez) by lia.
    rewrite Z.mul_add_distr_r. rewrite Hsplit at 1. rewrite Hsplit'.
    nia.
Qed.

(** *** Valid doubles and the three constants *)

Lemma valid_finite (s : bool) (m : positive) (e : Z) :
  valid_binary (S754_finite s m e) = true ->
  -1074 <= e <= 971 /\ Zpos m < pow2 53 /\ (-1074 < e -> pow2 52 <= Zpos m).
Proof.
  cbn [SpecFloat.valid_binary]. unfold bounded, canonical_mantissa.
  intros H. apply andb_prop in H. destruct H as [Hc He].
  apply Z.eqb_eq in Hc. apply Z.leb_le in He.
  fold fexp64 in Hc. rewrite fexp64_eq in Hc.
  pose proof (digits2_pos_bounds m) as [Hlow Hhigh].
  set (d := Zpos (digits2_pos m)) in *.
  assert (Hd : 0 < d) by (subst d; lia).
  change (emax - prec) with 971 in He.
  split; [lia |]. split.
  - apply Z.lt_le_trans with (pow2 d); [exact Hhigh |]. apply pow2_le. lia.
  - intros Hnormal. replace d with 53 in Hlow by lia. exact Hlow.
Qed.

Lemma compare_positive (m1 m2 : positive) (e1 e2 : Z) :
  SFltb (S754_finite false m1 e1) (S754_finite false m2 e2)
  = match e1 ?= e2 with
    | Eq => (Zpos m1 <? Zpos m2)
    | Lt => true
    | Gt => false
    end.
Proof.
  unfold SFltb. cbn [SFcompare]. destruct (e1 ?= e2); reflexivity.
Qed.

Lemma pow2_4 : pow2 4 = 16. Proof. reflexivity. Qed.
Lemma pow2_3 : pow2 3 = 8. Proof. reflexivity. Qed.
Lemma pow2_1 : pow2 1 = 2. Proof. reflexivity. Qed.
Lemma pow2_45 : pow2 45 = 35184372088832. Proof. reflexivity. Qed.
Lemma pow2_46 : pow2 46 = 70368744177664. Proof. reflexivity. Qed.
Lemma pow2_53 : pow2 53 = 9007199254740992. Proof. reflexivity. Qed.

(** More than fifteen: at least [15 + 2^-46] in magnitude. *)
Lemma above_fifteen (r : spec_float) :
  valid_binary r = true ->
  at_least true (-46) 1055531162664961 r ->
  SFltb SF15 (SFabs r) = true.
Proof.
  intros Hvalid Hr. destruct r as [s | s | | s m e]; cbn [at_least] in Hr; try contradiction.
  - reflexivity.
  - destruct Hr as [-> Hm]. apply valid_finite in Hvalid. destruct Hvalid as (He & Hlt & _).
    cbn [SFabs]. unfold SF15. rewrite compare_positive.
    destruct (Z.compare_spec (-49) e) as [Heq | Hlt' | Hgt]; [| reflexivity |].
    + subst e. specialize (Hm ltac:(lia)). change (-46 - -49) with 3 in Hm.
      rewrite pow2_3 in Hm. apply Z.ltb_lt. lia.
    + exfalso. specialize (Hm ltac:(lia)).
      assert (Hp : pow2 4 <= pow2 (-46 - e)) by (apply pow2_le; lia).
      rewrite pow2_4 in Hp. rewrite pow2_53 in Hlt. nia.
Qed.

(** Below eighty-five, the distance to a hundred is more than fifteen. *)
Lemma below_85_off_by_15 (x : spec_float) :
  valid_binary x = true ->
  valid_binary (SFsub prec emax x SF100) = true ->
  SFltb x SF85 = true ->
  SFltb SF15 (SFabs (SFsub prec emax x SF100)) = true.
Proof.
  intros Hx Hvalid Hlt. apply above_fifteen; [exact Hvalid |]. clear Hvalid.
  destruct x as [s | s | | s m e].
  - unfold SF100. cbn [SFsub negb at_least]. split; [reflexivity |]. intros _.
    change (-46 - -46) with 0. rewrite pow2_0. lia.
  - destruct s; [reflexivity | discriminate].
  - discriminate.
  - apply valid_finite in Hx. destruct Hx as (He & Hm & _).
    unfold SF100. rewrite SFsub_finite, aligned_left, aligned_right.
    set (ez := Z.min e (-46)) in *.
    assert (Hez : -1074 <= ez /\ ez <= e /\ ez <= -46) by (subst ez; lia).
    pose proof (@pow2_pos (e - ez) ltac:(lia)) as Hp1.
    pose proof (@pow2_pos (-46 - ez) ltac:(lia)) as Hp2.
    destruct s; cbn [cond_Zopp].
    + apply at_least_weaken with 7036874417766400; [lia |].
      apply binary_normalize_at_least; try lia; try nia.
    + unfold SF85 in Hlt. rewrite compare_positive in Hlt.
      destruct (Z.compare_spec e (-46)) as [Heq | Hlt' | Hgt]; [| | discriminate].
      * apply Z.ltb_lt in Hlt.
        assert (Hez0 : ez = -46) by (subst ez; lia).
        rewrite Hez0, Heq. change (-46 - -46) with 0. rewrite pow2_0.
        apply binary_normalize_at_least; try lia.
        change (-46 - -46) with 0. rewrite pow2_0. lia.
      * assert (Hez0 : ez = e) by (subst ez; lia).
        rewrite Hez0 in *. rewrite Z.sub_diag, pow2_0.
        assert (Hq : pow2 1 <= pow2 (-46 - e)) by (apply pow2_le; lia).
        rewrite pow2_1 in Hq. rewrite pow2_53 in Hm.
        apply at_least_weaken with 2533274790395904; [lia |].
        apply binary_normalize_at_least; try lia.
Qed.

(** A valid double of at most seven is below eighty-five. *)
Lemma at_most_7_below_85 (r : spec_float) :
  valid_binary r = true -> at_most false 0 7 r -> SFltb r SF85 = true.
Proof.
  intros Hvalid Hr. destruct r as [s | s | | s m e]; cbn [at_most] in Hr; try contradiction.
  - reflexivity.
  - destruct Hr as (-> & He & Hm). apply valid_finite in Hvalid.
    destruct Hvalid as (Hrange & _ & Hnormal).
    unfold SF85. rewrite compare_positive.
    destruct (Z.compare_spec e (-46)) as [Heq | Hlt | Hgt]; [| reflexivity |].
    + subst e. change (0 - -46) with 46 in Hm. rewrite pow2_46 in Hm.
      apply Z.ltb_lt. lia.
    + exfalso. specialize (Hnormal ltac:(lia)).
      assert (Hp : pow2 (0 - e) <= pow2 45) by (apply pow2_le; lia).
      rewrite pow2_45 in Hp. rewrite pow2_52 in Hnormal. nia.
Qed.

(** A valid double that is neither below zero nor above one. *)
Lemma unit_interval_at_most (x : spec_float) :
  valid_binary x = true ->
  SFltb x (S754_zero false) = false ->
  SFltb (S754_finite false 4503599627370496 (-52)) x = false ->
  x <> S754_nan ->
  at_most false 0 1 x.
Proof.
  intros Hvalid Hlow Hhigh Hnan. destruct x as [s | s | | s m e]; cbn [at_most].
  - exact I.
  - destruct s; discriminate.
  - now apply Hnan.
  - destruct s; [discriminate |]. apply valid_finite in Hvalid.
    destruct Hvalid as (He & Hm & _).
    rewrite compare_positive in Hhigh.
    split; [reflexivity |].
    destruct (Z.compare_spec (-52) e) as [Heq | Hlt | Hgt]; [| discriminate |].
    + subst e. apply Z.ltb_ge in Hhigh. change (0 - -52) with 52. rewrite pow2_52. lia.
    + split; [lia |].
      assert (Hp : pow2 53 <= pow2 (0 - e)) by (apply pow2_le; lia). lia.
Qed.

End RoundingFacts.

Import Rounding.
Import RoundingFacts.

(** ** The anomaly detector on uploaded rows *)

(** *** Doubles *)

Lemma below_85_is_off (s : float) :
  (s <? 85)%float = true -> JS.gt (abs (s - 100)) 15 = true.
Proof.
  unfold JS.gt. rewrite !ltb_spec, abs_spec, sub_spec. intros H.
  apply below_85_off_by_15.
  - apply Prim2SF_valid.
  - pose proof (Prim2SF_valid (s - 100)) as Hv. rewrite sub_spec in Hv. exact Hv.
  - exact H.
Qed.

Lemma add_at_most (x y : float) (h1 h2 : Z) :
  (0 <= h1)%Z -> (0 <= h2)%Z -> (h1 + h2 < 100)%Z ->
  at_most false 0 h1 (Prim2SF x) -> at_most false 0 h2 (Prim2SF y) ->
  at_most false 0 (h1 + h2) (Prim2SF (x + y)).
Proof.
  intros H1 H2 Hsum Hx Hy. rewrite add_spec. apply SFadd_at_most; try lia.
  - rewrite pow2_53. lia.
  - exact Hx.
  - exact Hy.
Qed.

Lemma seven_fractions_below_85 (x1 x2 x3 x4 x5 x6 x7 : float) :
  fraction x1 -> fraction x2 -> fraction x3 -> fraction x4 -> fraction x5 ->
  fraction x6 -> fraction x7 ->
  (0 + x1 + x2 + x3 + x4 + x5 + x6 + x7 <? 85)%float = true.
Proof.
  unfold fraction. intros H1 H2 H3 H4 H5 H6 H7.
  rewrite ltb_spec. apply at_most_7_below_85; [apply Prim2SF_valid |].
  change 7%Z with (0 + 1 + 1 + 1 + 1 + 1 + 1 + 1)%Z.
  repeat (apply add_at_most; [lia | lia | lia | | assumption]).
  exact I.
Qed.

Lemma fraction_is_finite (x : float) : fraction x -> PrimFloat.is_finite x = true.
Proof.
  unfold fraction, PrimFloat.is_finite, PrimFloat.is_nan, PrimFloat.is_infinity.
  rewrite !eqb_spec, abs_spec. unfold SFeqb.
  destruct (Prim2SF x) as [s | s | | s m e] eqn:E; cbn [at_most]; try contradiction.
  - intros _. reflexivity.
  - intros _. rewrite SFcompare_self by discriminate. reflexivity.
Qed.

Lemma fraction_received (x : float) : fraction x -> received x = x.
Proof. intros H. unfold received. now rewrite fraction_is_finite. Qed.

(** A percentage cell that passes the range rule is read as a fraction. *)
Lemma checked_cell_fraction (v : value) :
  present v && bad_percentage v = false -> fraction (parseFloat_or_zero v).
Proof.
  unfold fraction, parseFloat_or_zero.
  destruct v as [| | b | x | s]; cbn [present bad_percentage parseFloat andb];
    try discriminate; try exact (fun _ => I).
  unfold JS.lt, JS.gt. intros H. apply orb_false_iff in H. destruct H as [Hlow Hhigh].
  destruct (x =? 0)%float eqn:Hzero; [exact I |].
  unfold JS.truthy_num. rewrite Hzero, orb_false_r.
  destruct (PrimFloat.is_nan x) eqn:Hnan; cbn [negb]; [exact I |].
  rewrite ltb_spec in Hlow, Hhigh.
  apply unit_interval_at_most.
  - apply Prim2SF_valid.
  - exact Hlow.
  - exact Hhigh.
  - now apply real_spec.
Qed.

(** *** Reading a received row *)

Lemma parseFloat_or_zero_clean (v : value) : clean (parseFloat_or_zero v).
Proof.
  unfold clean, parseFloat_or_zero.
  destruct (JS.truthy_num (parseFloat v)) eqn:E; [congruence | reflexivity].
Qed.

Lemma cell_received (x : float) :
  clean x -> or_else (or_else undefined (json_number x)) (num 0) = num (received x).
Proof.
  unfold clean, json_number, received. intros Hclean.
  destruct (PrimFloat.is_finite x); [| reflexivity].
  unfold or_else at 2. cbn [truthy_json undefined truthy].
  unfold or_else, num. cbn [truthy_json truthy].
  destruct (JS.truthy_num x); [reflexivity |]. now rewrite Hclean.
Qed.

Lemma processRow_clean (row : RawRecord) (index : nat) : clean_row (processRow row index).
Proof. unfold clean_row, processRow; cbn [SH SS LS DOL ANH Coal Salt]. repeat split; apply parseFloat_or_zero_clean. Qed.

Lemma totalComposition_cells (depth sh ss ls dol anh coal salt dt gr index dominant : json) :
  totalComposition
    (Obj [("DEPTH", depth); ("SH", sh); ("SS", ss); ("LS", ls); ("DOL", dol); ("ANH", anh);
          ("Coal", coal); ("Salt", salt); ("DT", dt); ("GR", gr); ("rowIndex", index);
          ("dominantRockType", dominant)])
    ["SH"; "SS"; "LS"; "DOL"; "ANH"; "Coal"; "Salt"] (num 0)
  = Normal
      (plus (plus (plus (plus (plus (plus (plus (num 0)
         (or_else (or_else undefined sh) (num 0)))
         (or_else (or_else undefined ss) (num 0)))
         (or_else (or_else undefined ls) (num 0)))
         (or_else (or_else undefined dol) (num 0)))
         (or_else (or_else undefined anh) (num 0)))
         (or_else (or_else undefined coal) (num 0)))
         (or_else (or_else undefined salt) (num 0))).
Proof. reflexivity. Qed.

Lemma plus_numbers (a b : float) : plus (num a) (num b) = num (a + b).
Proof. reflexivity. Qed.

Lemma totalComposition_received (r : ProcessedRow) :
  clean_row r ->
  totalComposition (row_json r) ["SH"; "SS"; "LS"; "DOL"; "ANH"; "Coal"; "Salt"] (num 0)
  = Normal (num (category_sum r)).
Proof.
  intros (H1 & H2 & H3 & H4 & H5 & H6 & H7).
  unfold row_json. rewrite totalComposition_cells.
  rewrite !cell_received by assumption. rewrite !plus_numbers. reflexivity.
Qed.

(** *** The three checks *)

Lemma DT_check_appends (fields : list (string * json)) (anomalies : list Anomaly) :
  exists new, DT_check (Obj fields) anomalies = Normal (app anomalies new).
Proof.
  unfold DT_check. cbn [prop bind]. destruct (extreme _ 30 250).
  - eexists [_]. reflexivity.
  - exists []. now rewrite app_nil_r.
Qed.

Lemma GR_check_appends (fields : list (string * json)) (anomalies : list Anomaly) :
  exists new, GR_check (Obj fields) anomalies = Normal (app anomalies new).
Proof.
  unfold GR_check. cbn [prop bind]. destruct (extreme _ 0 400).
  - eexists [_]. reflexivity.
  - exists []. now rewrite app_nil_r.
Qed.

Lemma composition_check_appends (fields : list (string * json)) (total : float)
    (anomalies : list Anomaly) :
  exists new,
    composition_check (Obj fields) (num total) anomalies = Normal (app anomalies new)
    /\ (JS.gt (abs (total - 100)) 15 = true ->
        exists a, new = [a] /\ type a = "composition_error").
Proof.
  unfold composition_check. change (number_of (num total)) with total.
  destruct (JS.gt (abs (total - 100)) 15).
  - cbn [prop bind toFixed_of num]. eexists [_]. split; [reflexivity |].
    intros _. eexists. split; reflexivity.
  - exists []. rewrite app_nil_r. split; [reflexivity | discriminate].
Qed.

Lemma detect_row_eq (row : json) (anomalies : list Anomaly) :
  detect_row row anomalies
  = bind (totalComposition row ["SH"; "SS"; "LS"; "DOL"; "ANH"; "Coal"; "Salt"] (num 0))
      (fun total =>
         bind (composition_check row total anomalies)
           (fun anomalies1 => bind (DT_check row anomalies1) (GR_check row))).
Proof. reflexivity. Qed.

Lemma row_json_object (r : ProcessedRow) : exists fields, row_json r = Obj fields.
Proof. eexists. reflexivity. Qed.

Lemma detect_row_uploaded (r : ProcessedRow) (anomalies : list Anomaly) :
  clean_row r ->
  exists new,
    detect_row (row_json r) anomalies = Normal (app anomalies new)
    /\ ((category_sum r <? 85)%float = true ->
        exists a rest, new = a :: rest /\ type a = "composition_error").
Proof.
  intros Hclean. rewrite detect_row_eq, (totalComposition_received Hclean).
  cbn [bind]. destruct (row_json_object r) as [fields ->].
  destruct (composition_check_appends fields (category_sum r) anomalies)
    as (new1 & -> & Hflag).
  cbn [bind].
  destruct (DT_check_appends fields (app anomalies new1)) as (new2 & ->).
  cbn [bind].
  destruct (GR_check_appends fields (app (app anomalies new1) new2)) as (new3 & ->).
  exists (app (app new1 new2) new3). split.
  - now rewrite !app_assoc.
  - intros Hlow. destruct (Hflag (below_85_is_off Hlow)) as (a & -> & Htype).
    exists a, (app new2 new3). split; [reflexivity | exact Htype].
Qed.

Lemma uploaded_row_appends (r : ProcessedRow) : clean_row r -> appends (row_json r).
Proof.
  intros Hclean anomalies.
  destruct (detect_row_uploaded anomalies Hclean) as (new & H & _). now exists new.
Qed.

Lemma low_row_flags (r : ProcessedRow) :
  clean_row r -> (category_sum r <? 85)%float = true -> flags (row_json r).
Proof.
  intros Hclean Hlow anomalies.
  destruct (detect_row_uploaded anomalies Hclean) as (new & H & Hflag).
  destruct (Hflag Hlow) as (a & rest & -> & Htype). now exists a, rest.
Qed.

Lemma detect_rows_appends (rows : list json) (anomalies : list Anomaly) :
  Forall appends rows ->
  exists new, detect_rows rows anomalies = Normal (app anomalies new).
Proof.
  intros H. revert anomalies. induction H as [| row rows Hrow _ IH]; intros anomalies.
  - exists []. cbn. now rewrite app_nil_r.
  - cbn [detect_rows]. destruct (Hrow anomalies) as (new1 & ->). cbn [bind].
    destruct (IH (app anomalies new1)) as (new2 & ->).
    exists (app new1 new2). now rewrite app_assoc.
Qed.

Lemma processed_rows_clean (data : list RawRecord) (index : nat) :
  Forall appends (map row_json (map_indexed processRow data index)).
Proof.
  revert index. induction data as [| row data IH]; intros index; cbn [map_indexed map].
  - constructor.
  - constructor; [| apply IH]. apply uploaded_row_appends, processRow_clean.
Qed.

(** *** Rows that passed the validator *)

Lemma validateRows_length (rows : list RawRecord) (index : nat) (errs errs' : list string) :
  validateRows rows index errs = Normal errs' ->
  List.length errs' = (List.length errs + list_sum (map row_violations rows))%nat.
Proof.
  revert index errs. induction rows as [| row rows IH]; intros index errs; cbn [validateRows].
  - intros [= <-]. cbn. lia.
  - destruct (validateRow row index errs) as [errs1 | thrown] eqn:Hrow; cbn [bind];
      [| discriminate].
    intros Hrest. apply IH in Hrest. apply validateRow_length in Hrow.
    rewrite Hrest, Hrow. cbn [map list_sum fold_right].
    fold (list_sum (map row_violations rows)).
    generalize (list_sum (map row_violations rows)) (row_violations row). intros. lia.
Qed.

Lemma list_sum_zero (l : list nat) : list_sum l = 0%nat -> Forall (fun n => n = 0%nat) l.
Proof.
  induction l as [| n l IH]; cbn [list_sum fold_right]; intros H; constructor.
  - fold (list_sum l) in H. lia.
  - apply IH. fold (list_sum l) in H. lia.
Qed.

Lemma valid_rows (data : list RawRecord) (result : ValidationResult) :
  validateExcelStructure data = Normal result -> isValid result = true ->
  data <> [] /\ Forall (fun row => row_violations row = 0%nat) data.
Proof.
  destruct data as [| first rest]; cbn [validateExcelStructure].
  - intros [= <-]. discriminate.
  - set (errs0 := if (0 <? _)%nat then _ else _).
    destruct (validateRows (first :: rest) 0 errs0) as [errs | thrown] eqn:Hrun;
      cbn [bind]; [| discriminate].
    intros [= <-]. cbn [isValid]. intros Hvalid. apply Nat.eqb_eq in Hvalid.
    apply validateRows_length in Hrun. split; [discriminate |].
    assert (Hsum : list_sum (map row_violations (first :: rest)) = 0%nat).
    { generalize dependent (list_sum (map row_violations (first :: rest))). intros. lia. }
    apply list_sum_zero in Hsum. rewrite Forall_map in Hsum. exact Hsum.
Qed.

Lemma count_if_zero {A : Type} (p : A -> bool) (l : list A) (x : A) :
  count_if p l = 0%nat -> In x l -> p x = false.
Proof.
  unfold count_if. induction l as [| y l IH]; cbn [filter In]; [tauto |].
  destruct (p y) eqn:Hy; cbn [List.length]; [discriminate |].
  intros H [<- | Hin]; [exact Hy | now apply IH].
Qed.

Lemma checked_row_below_85 (row : RawRecord) (index : nat) :
  row_violations row = 0%nat ->
  (category_sum (processRow row index) <? 85)%float = true.
Proof.
  unfold row_violations. intros H.
  assert (Hcols : count_if (fun col => present (get row col) && bad_percentage (get row col))
                    percentageColumns = 0%nat).
  { revert H.
    generalize (count_if (fun col => present (get row col) && bad_percentage (get row col))
                  percentageColumns).
    generalize (depth_violation (get row "DEPTH")).
    generalize (count_if (fun col => present (get row col) && not_a_number (get row col))
                  ["DT"; "GR"]).
    generalize (sum_violation (rockCompositionSum row)). intros. lia. }
  clear H.
  assert (Hcell : forall col, In col percentageColumns ->
                    fraction (parseFloat_or_zero (get row col))).
  { intros col Hin. apply checked_cell_fraction.
    exact (count_if_zero (fun col => present (get row col) && bad_percentage (get row col))
             percentageColumns col Hcols Hin). }
  unfold category_sum, processRow. cbn [SH SS LS DOL ANH Coal Salt].
  rewrite !fraction_received by (apply Hcell; unfold percentageColumns; cbn [In]; tauto).
  apply seven_fractions_below_85; apply Hcell; unfold percentageColumns; cbn [In]; tauto.
Qed.

Lemma detectDataAnomalies_rows (row : json) (rows : list json) :
  detectDataAnomalies (Arr (row :: rows))
  = bind (detect_rows (row :: rows) []) (fun anomalies => Normal (firstn 5 anomalies)).
Proof. reflexivity. Qed.

Lemma map_indexed_In {A B : Type} (f : A -> nat -> B) (l : list A) (index : nat) (y : B) :
  In y (map_indexed f l index) -> exists x i, In x l /\ y = f x i.
Proof.
  revert index. induction l as [| x l IH]; intros index; cbn [map_indexed In]; [tauto |].
  intros [<- | Hin].
  - exists x, index. auto.
  - destruct (IH _ Hin) as (x' & i & Hx & ->). exists x', i. auto.
Qed.

(** C10, amended: a transformed row whose seven percentages, as the anomaly
    detector receives them, add up to less than 85 is flagged with a
    composition error; and when the validator accepts a record set, every
    transformed row adds up to less than 85, so that the anomaly list of
    the upload starts with a composition error and has between one and five
    entries. *)
Theorem rows_below_85_are_flagged :
  (forall (row : RawRecord) (index : nat),
      (category_sum (processRow row index) <? 85)%float = true ->
      flagged (row_json (processRow row index)))
  /\ (forall (data : list RawRecord) (result : ValidationResult),
         validateExcelStructure data = Normal result ->
         isValid result = true ->
         (forall r, In r (processExcelData data) ->
                    (category_sum r <? 85)%float = true /\ flagged (row_json r))
         /\ exists first rest,
              detectDataAnomalies (rows_json (processExcelData data)) = Normal (first :: rest)
              /\ type first = "composition_error"
              /\ (List.length (first :: rest) <= 5)%nat).
Proof.
  assert (Hflagged : forall row index,
             (category_sum (processRow row index) <? 85)%float = true ->
             flagged (row_json (processRow row index))).
  { intros row index Hlow.
    destruct (low_row_flags (processRow_clean row index) Hlow []) as (a & rest & Hrun & Htype).
    exists a, rest. split; [exact Hrun | exact Htype]. }
  split; [exact Hflagged |].
  intros data result Hrun Hvalid.
  destruct (valid_rows data Hrun Hvalid) as [Hne Hrows]. clear Hrun Hvalid.
  rewrite Forall_forall in Hrows. split.
  - intros r Hin. unfold processExcelData in Hin.
    destruct (map_indexed_In _ _ _ _ Hin) as (row & index & Hrow & ->).
    assert (Hlow := checked_row_below_85 row index (Hrows row Hrow)).
    split; [exact Hlow | now apply Hflagged].
  - destruct data as [| row0 rest]; [congruence |].
    unfold processExcelData, rows_json. cbn [map_indexed map].
    rewrite detectDataAnomalies_rows. cbn [detect_rows].
    assert (Hlow := checked_row_below_85 row0 0 (Hrows row0 (or_introl eq_refl))).
    destruct (low_row_flags (processRow_clean row0 0) Hlow []) as (a & found & -> & Htype).
    cbn [bind app].
    destruct (detect_rows_appends (a :: found) (processed_rows_clean rest 1)) as (new & ->).
    cbn [bind app firstn]. exists a, (firstn 4 (app found new)).
    split; [reflexivity |]. split; [exact Htype |].
    cbn [List.length]. pose proof (firstn_le_length 4 (app found new)) as Hle.
    rewrite length_firstn. lia.
Qed.

Lemma rows_below_85_are_flagged_witness :
  (category_sum (processRow sums_to_099 0) <? 85)%float = true
  /\ flagged (row_json (processRow sums_to_099 0))
  /\ exists first rest,
       detectDataAnomalies (rows_json (processExcelData all_shale)) = Normal (first :: rest)
       /\ type first = "composition_error"
       /\ (List.length (first :: rest) <= 5)%nat.
Proof.
  split; [reflexivity |]. split.
  - apply (proj1 rows_below_85_are_flagged). reflexivity.
  - eapply (proj2 rows_below_85_are_flagged all_shale); [vm_compute; reflexivity | reflexivity].
Defined.

(** C10 as the specification states it fails at 85 itself: the detector
    asks for a distance to 100 of more than 15. *)
Lemma sum_of_85_is_not_flagged :
  ~ ((category_sum (processRow sums_to_85 0) <=? 85)%float = true ->
     flagged (row_json (processRow sums_to_85 0))).
Proof.
  intros H. destruct (H eq_refl) as (a & rest & Hrun & _).
  vm_compute in Hrun. discriminate Hrun.
Qed.

(** * Further properties *)

(** ** More on the validator *)

Lemma text_sum_throws (row : RawRecord) (index : nat) (errs : list string) (thrown : string) :
  validateRow row index errs = Throw thrown ->
  thrown = "rockCompositionSum.toFixed is not a function"
  /\ numeric_percentages row = false.
Proof.
  rewrite validateRow_eq. unfold check_sum.
  destruct (numeric_percentages row) eqn:Hnum.
  - destruct (numeric_sum row Hnum) as [x ->].
    destruct (sum_off (VNum x)); cbn [sum_toFixed bind]; discriminate.
  - destruct (sum_off (rockCompositionSum row)); [| discriminate].
    destruct (rockCompositionSum row); cbn [sum_toFixed bind]; try discriminate;
      intros [= <-]; split; reflexivity.
Qed.

Lemma validateRows_throws (rows : list RawRecord) (index : nat) (errs : list string)
    (thrown : string) :
  validateRows rows index errs = Throw thrown ->
  thrown = "rockCompositionSum.toFixed is not a function"
  /\ exists row, In row rows /\ numeric_percentages row = false.
Proof.
  revert index errs. induction rows as [| row rows IH]; intros index errs; cbn [validateRows].
  - discriminate.
  - destruct (validateRow row index errs) as [errs1 | thrown1] eqn:Hrow; cbn [bind].
    + intros H. destruct (IH _ _ H) as (Hm & row' & Hin & Htext).
      split; [exact Hm |]. exists row'. split; [now right | exact Htext].
    + intros [= <-]. destruct (text_sum_throws _ _ _ Hrow) as [Hm Htext].
      split; [exact Hm |]. exists row. split; [now left | exact Htext].
Qed.

(** X4: the validator throws in one way only: a row holds text in a
    percentage column, and the error is the [TypeError] of [toFixed]. *)
Theorem validator_throws_only_on_text (data : list RawRecord) (thrown : string) :
  validateExcelStructure data = Throw thrown ->
  thrown = "rockCompositionSum.toFixed is not a function"
  /\ exists row, In row data /\ numeric_percentages row = false.
Proof.
  destruct data as [| first rest]; cbn [validateExcelStructure]; [discriminate |].
  set (errs0 := if (0 <? _)%nat then _ else _).
  destruct (validateRows (first :: rest) 0 errs0) as [errs | thrown1] eqn:Hrun; cbn [bind];
    [discriminate |].
  intros [= <-]. exact (validateRows_throws _ _ _ Hrun).
Qed.

Lemma validator_throws_only_on_text_witness :
  "rockCompositionSum.toFixed is not a function"
  = "rockCompositionSum.toFixed is not a function"
  /\ exists row, In row text_percentage /\ numeric_percentages row = false.
Proof.
  apply (@validator_throws_only_on_text text_percentage). vm_compute. reflexivity.
Defined.

Lemma array_includes_In (l : list string) (x : string) :
  JS.array_includes l x = true -> In x l.
Proof.
  unfold JS.array_includes. rewrite existsb_exists. intros (y & Hy & Heq).
  apply String.eqb_eq in Heq. now subst.
Qed.

Lemma no_missing_columns (headers : list string) (col : string) :
  missingColumns headers = [] -> In col requiredColumns -> In col headers.
Proof.
  unfold missingColumns. intros Hnone Hcol. apply array_includes_In.
  destruct (JS.array_includes headers col) eqn:E; [reflexivity |].
  assert (Hin : In col (filter (fun c => negb (JS.array_includes headers c)) requiredColumns)).
  { apply filter_In. split; [exact Hcol | now rewrite E]. }
  rewrite Hnone in Hin. destruct Hin.
Qed.

Lemma unviolated_row (row : RawRecord) :
  row_violations row = 0%nat ->
  nothing_or_within (Some 0%float) None (get row "DEPTH")
  /\ (forall col, In col percentageColumns ->
        nothing_or_within (Some 0%float) (Some 1%float) (get row col))
  /\ (forall col, In col ["DT"; "GR"] -> nothing_or_within None None (get row col))
  /\ exists sum, rockCompositionSum row = VNum sum
                 /\ JS.gt (abs (sum - 1)) 0.01 = false.
Proof.
  unfold row_violations. intros H.
  assert (Hd : depth_violation (get row "DEPTH") = 0%nat
               /\ count_if (fun col => present (get row col) && bad_percentage (get row col))
                    percentageColumns = 0%nat
               /\ count_if (fun col => present (get row col) && not_a_number (get row col))
                    ["DT"; "GR"] = 0%nat
               /\ sum_violation (rockCompositionSum row) = 0%nat).
  { revert H.
    generalize (count_if (fun col => present (get row col) && bad_percentage (get row col))
                  percentageColumns).
    generalize (depth_violation (get row "DEPTH")).
    generalize (count_if (fun col => present (get row col) && not_a_number (get row col))
                  ["DT"; "GR"]).
    generalize (sum_violation (rockCompositionSum row)). intros. lia. }
  clear H. destruct Hd as (Hdepth & Hcols & Hlogs & Hsum).
  assert (Hcell : forall col, In col percentageColumns ->
                    nothing_or_within (Some 0%float) (Some 1%float) (get row col)).
  { intros col Hin.
    pose proof (count_if_zero (fun col => present (get row col) && bad_percentage (get row col))
                  percentageColumns col Hcols Hin) as Hc.
    cbn beta in Hc. destruct (get row col) as [| | b | x | s];
      cbn [present bad_percentage andb nothing_or_within] in *; try exact I; try discriminate.
    apply orb_false_iff in Hc. exact Hc. }
  split; [| split; [exact Hcell | split]].
  - unfold depth_violation in Hdepth.
    destruct (get row "DEPTH") as [| | b | x | s];
      cbn [present bad_depth andb nothing_or_within] in *; try exact I; try discriminate.
    destruct (JS.lt x 0); [discriminate | split; [reflexivity | exact I]].
  - intros col Hin.
    pose proof (count_if_zero (fun col => present (get row col) && not_a_number (get row col))
                  ["DT"; "GR"] col Hlogs Hin) as Hc.
    cbn beta in Hc. destruct (get row col) as [| | b | x | s];
      cbn [present not_a_number andb nothing_or_within] in *; try exact I; try discriminate.
    split; exact I.
  - assert (Hnum : numeric_percentages row = true).
    { unfold numeric_percentages. apply forallb_forall. intros col Hin.
      specialize (Hcell col Hin). destruct (get row col); cbn in *; try reflexivity; contradiction. }
    destruct (numeric_sum row Hnum) as [sum Hs]. exists sum. split; [exact Hs |].
    rewrite Hs in Hsum. unfold sum_violation, sum_off in Hsum. cbn [ToNumber] in Hsum.
    destruct (JS.gt (abs (sum - 1)) 0.01); [discriminate | reflexivity].
Qed.

(** X5: what the validator accepts is well formed: the first record has
    the ten required columns, and in every record [DEPTH] is missing or a
    number not below 0, each percentage is missing or a number neither
    below 0 nor above 1, [DT] and [GR] are missing or numbers, and the
    percentages add up to a number no further than 0.01 from 1. *)
Theorem accepted_records_are_well_formed (data : list RawRecord) (result : ValidationResult) :
  validateExcelStructure data = Normal result ->
  isValid result = true ->
  errors result = []
  /\ (forall col, In col requiredColumns -> In col (keys (hd [] data)))
  /\ forall row, In row data ->
       nothing_or_within (Some 0%float) None (get row "DEPTH")
       /\ (forall col, In col percentageColumns ->
             nothing_or_within (Some 0%float) (Some 1%float) (get row col))
       /\ (forall col, In col ["DT"; "GR"] -> nothing_or_within None None (get row col))
       /\ exists sum, rockCompositionSum row = VNum sum
                      /\ JS.gt (abs (sum - 1)) 0.01 = false.
Proof.
  destruct data as [| first rest]; cbn [validateExcelStructure].
  - intros [= <-]. discriminate.
  - set (missing := missingColumns (keys first)).
    destruct (validateRows (first :: rest) 0
                (if (0 <? List.length missing)%nat
                 then ["Missing required columns: " ++ JS.join ", " missing] else []))
      as [errs | thrown] eqn:Hrun; cbn [bind]; [| discriminate].
    intros [= <-]. cbn [isValid errors hd]. intros Hvalid. apply Nat.eqb_eq in Hvalid.
    apply validateRows_length in Hrun.
    assert (Hnone : missing = []
                    /\ list_sum (map row_violations (first :: rest)) = 0%nat).
    { revert Hrun. generalize (list_sum (map row_violations (first :: rest))).
      destruct missing; cbn [List.length Nat.ltb Nat.leb]; intros; [split; [reflexivity | lia] | lia]. }
    destruct Hnone as [Hmissing Hsum].
    split; [now destruct errs |]. split.
    + intros col Hcol. now apply no_missing_columns.
    + intros row Hin. apply unviolated_row.
      apply list_sum_zero in Hsum. rewrite Forall_map, Forall_forall in Hsum. now apply Hsum.
Qed.

Lemma accepted_records_are_well_formed_witness :
  errors {| isValid := true; errors := []; totalRows := Some 3%nat;
            columns := Some requiredColumns |} = []
  /\ (forall col, In col requiredColumns -> In col (keys (hd [] all_shale)))
  /\ forall row, In row all_shale ->
       nothing_or_within (Some 0%float) None (get row "DEPTH")
       /\ (forall col, In col percentageColumns ->
             nothing_or_within (Some 0%float) (Some 1%float) (get row col))
       /\ (forall col, In col ["DT"; "GR"] -> nothing_or_within None None (get row col))
       /\ exists sum, rockCompositionSum row = VNum sum
                      /\ JS.gt (abs (sum - 1)) 0.01 = false.
Proof.
  apply (@accepted_records_are_well_formed all_shale); [vm_compute; reflexivity | reflexivity].
Defined.

(** ** More on the upload route *)

Lemma get_set_other (o : object) (k k' : string) (v : value) :
  k' <> k -> get (set o k v) k' = get o k'.
Proof.
  intros Hne. unfold get. induction o as [| [k0 v0] o IH]; cbn [set lookup].
  - destruct (String.eqb_spec k' k); [contradiction | reflexivity].
  - destruct (String.eqb_spec k k0) as [-> | Hk]; cbn [lookup].
    + destruct (String.eqb_spec k' k0); [contradiction | reflexivity].
    + destruct (String.eqb_spec k' k0); [reflexivity | exact IH].
Qed.

Lemma fill_lookup (headers : list value) (row : list value) (obj : RawRecord) (index : nat)
    (k : string) :
  get (fill obj headers index row) k
  = match last_column k headers index with
    | Some i => nth i row VUndefined
    | None => get obj k
    end.
Proof.
  revert obj index. induction headers as [| header rest IH]; intros obj index;
    cbn [fill last_column]; [reflexivity |].
  rewrite IH. destruct (last_column k rest (S index)); [reflexivity |].
  destruct (String.eqb_spec k (ToString header)) as [-> | Hne].
  - apply get_set.
  - now apply get_set_other.
Qed.

Lemma last_column_spec (k : string) (headers : list value) (index : nat) :
  match last_column k headers index with
  | Some i =>
      (index <= i < index + List.length headers)%nat
      /\ ToString (nth (i - index) headers VUndefined) = k
      /\ forall j, (i - index < j < List.length headers)%nat ->
                   ToString (nth j headers VUndefined) <> k
  | None => forall j, (j < List.length headers)%nat -> ToString (nth j headers VUndefined) <> k
  end.
Proof.
  revert index. induction headers as [| header rest IH]; intros index;
    cbn [last_column List.length].
  - intros j Hj. lia.
  - specialize (IH (S index)). destruct (last_column k rest (S index)) as [i |].
    + destruct IH as (Hi & Hk & Hlater). split; [lia |].
      replace (i - index)%nat with (S (i - S index)) by lia. cbn [nth]. split; [exact Hk |].
      intros j Hj. destruct j as [| j]; [lia |]. cbn [nth]. apply Hlater. lia.
    + destruct (String.eqb_spec k (ToString header)) as [-> | Hne].
      * split; [lia |]. rewrite Nat.sub_diag. cbn [nth]. split; [reflexivity |].
        intros j Hj. destruct j as [| j]; [lia |]. cbn [nth]. apply IH. lia.
      * intros j Hj. destruct j as [| j]; cbn [nth]; [congruence | apply IH; lia].
Qed.

(** X6: under each of the ten column names the validator and the
    transformer read, the record made of a sheet row holds the cell of the
    last column with that header ([undefined] when the row is shorter), and
    [undefined] when no column has that header. *)
Theorem row_object_lookup (headers row : list value) (col : string) :
  In col requiredColumns ->
  (forall i,
      (i < List.length headers)%nat ->
      ToString (nth i headers VUndefined) = col ->
      (forall j, (i < j < List.length headers)%nat ->
                 ToString (nth j headers VUndefined) <> col) ->
      get (row_object headers row) col = nth i row VUndefined)
  /\ ((forall j, (j < List.length headers)%nat -> ToString (nth j headers VUndefined) <> col) ->
      get (row_object headers row) col = VUndefined).
Proof.
  intros _. unfold row_object. rewrite fill_lookup.
  pose proof (last_column_spec col headers 0) as Hspec.
  destruct (last_column col headers 0) as [i' |].
  - destruct Hspec as (Hrange & Hk & Hlater). rewrite Nat.sub_0_r in *. split.
    + intros i Hi Hcol Hlast.
      destruct (Nat.lt_trichotomy i' i) as [Hlt | [-> | Hgt]].
      * exfalso. apply (Hlater i); [lia | exact Hcol].
      * reflexivity.
      * exfalso. apply (Hlast i'); [lia | exact Hk].
    + intros Hnone. exfalso. apply (Hnone i'); [lia | exact Hk].
  - split; [| reflexivity].
    intros i Hi Hcol _. exfalso. now apply (Hspec i Hi).
Qed.

Lemma row_object_lookup_witness :
  In "%SH" requiredColumns
  /\ get (row_object header_row shale_cells) "%SH" = VNum 0.6
  /\ get (row_object [VStr "DEPTH"] [VNum 100]) "%SH" = VUndefined.
Proof.
  assert (Hcol : In "%SH" requiredColumns) by (cbn; tauto).
  split; [exact Hcol |]. split.
  - apply (proj1 (@row_object_lookup header_row shale_cells "%SH" Hcol) 1%nat);
      [cbn; lia | reflexivity |].
    intros j Hj. cbn in Hj.
    do 10 (destruct j as [| j]; [try lia; cbn; discriminate |]). lia.
  - apply (proj2 (@row_object_lookup [VStr "DEPTH"] [VNum 100] "%SH" Hcol)).
    intros j Hj. cbn in Hj. destruct j as [| j]; [cbn; discriminate | lia].
Defined.




Lemma accepted_without_errors (data : list RawRecord) (result : ValidationResult) :
  validateExcelStructure data = Normal result ->
  isValid result = true ->
  errors result = [] /\ data <> [].
Proof.
  destruct data as [| first rest]; cbn [validateExcelStructure].
  - intros [= <-]. discriminate.
  - set (errs0 := if (0 <? _)%nat then _ else _).
    destruct (validateRows (first :: rest) 0 errs0) as [errs | thrown]; cbn [bind];
      [| discriminate].
    intros [= <-]. cbn [isValid errors]. intros H. apply Nat.eqb_eq in H.
    split; [now destruct errs | discriminate].
Qed.

Lemma processExcelData_length (data : list RawRecord) :
  List.length (processExcelData data) = List.length data.
Proof. unfold processExcelData. apply map_indexed_length. Qed.

(** X8: a file with an allowed extension whose first sheet has a header
    row and data rows the validator accepts is answered with one processed
    row per data row, in their order, the statistics of these rows and no
    warning. *)
Theorem upload_accepts (f : UploadedFile) (name : string) (names : list string)
    (sheets : list (string * Worksheet)) (header : list value) (rows : list (list value))
    (validation : ValidationResult) :
  extension_allowed f = true ->
  lookup name sheets = Some (header :: rows) ->
  validateExcelStructure (map (row_object header) rows) = Normal validation ->
  isValid validation = true ->
  upload (Some f) (Workbook (name :: names) sheets)
  = Accepted {| rows := processExcelData (map (row_object header) rows);
                totalRows_sent := List.length rows;
                statistics := stats (processExcelData (map (row_object header) rows));
                columnsFound := columns validation;
                warnings := [] |}.
Proof.
  intros Hext Hsheet Hrun Hvalid.
  destruct (accepted_without_errors _ Hrun Hvalid) as [Herrors Hne].
  unfold upload, upload_with. unfold extension_allowed in Hext. rewrite Hext, Hsheet.
  cbn [negb]. destruct rows as [| row rows]; [now destruct Hne |].
  cbn [List.length Nat.eqb Nat.ltb Nat.leb hd skipn].
  rewrite Hrun, Hvalid. cbn [negb].
  rewrite !processExcelData_length, !length_map.
  cbn [List.length Nat.eqb]. rewrite Herrors. reflexivity.
Qed.

Lemma upload_accepts_witness :
  upload (Some spreadsheet) (Workbook ["Sheet1"] [("Sheet1", [header_row; shale_cells])])
  = Accepted {| rows := processExcelData (map (row_object header_row) [shale_cells]);
                totalRows_sent := List.length [shale_cells];
                statistics := stats (processExcelData (map (row_object header_row) [shale_cells]));
                columnsFound := columns (accepted 1);
                warnings := [] |}.
Proof.
  apply (@upload_accepts spreadsheet "Sheet1" [] [("Sheet1", [header_row; shale_cells])]
           header_row [shale_cells] (accepted 1));
    [reflexivity | reflexivity | vm_compute; reflexivity | reflexivity].
Defined.

(** ** More on the statistics *)

Lemma real_not_nan (a b : float) :
  real a -> real b -> PrimFloat.is_nan a || PrimFloat.is_nan b = false.
Proof. unfold real. now intros -> ->. Qed.

Lemma math_min2_spec (a b : float) :
  real a -> real b ->
  (math_min2 a b = a \/ math_min2 a b = b)
  /\ (math_min2 a b <=? a)%float = true
  /\ (math_min2 a b <=? b)%float = true.
Proof.
  intros Ha Hb. unfold math_min2. rewrite (real_not_nan Ha Hb).
  destruct (a <? b)%float eqn:Hab.
  - split; [now left |]. split; [now apply le_refl | now apply lt_le].
  - destruct (b <? a)%float eqn:Hba.
    + split; [now right |]. split; [now apply lt_le | now apply le_refl].
    + assert (Hle : (a <=? b)%float = true) by (apply not_gt_le; assumption).
      assert (Hge : (b <=? a)%float = true) by (apply not_gt_le; assumption).
      destruct (get_sign a).
      * split; [now left |]. split; [now apply le_refl | exact Hle].
      * split; [now right |]. split; [exact Hge | now apply le_refl].
Qed.

Lemma math_max2_spec (a b : float) :
  real a -> real b ->
  (math_max2 a b = a \/ math_max2 a b = b)
  /\ (a <=? math_max2 a b)%float = true
  /\ (b <=? math_max2 a b)%float = true.
Proof.
  intros Ha Hb. unfold math_max2. rewrite (real_not_nan Ha Hb).
  destruct (a <? b)%float eqn:Hab.
  - split; [now right |]. split; [now apply lt_le | now apply le_refl].
  - destruct (b <? a)%float eqn:Hba.
    + split; [now left |]. split; [now apply le_refl | now apply lt_le].
    + assert (Hle : (a <=? b)%float = true) by (apply not_gt_le; assumption).
      assert (Hge : (b <=? a)%float = true) by (apply not_gt_le; assumption).
      destruct (get_sign a).
      * split; [now right |]. split; [exact Hle | now apply le_refl].
      * split; [now left |]. split; [now apply le_refl | exact Hge].
Qed.

Lemma fold_min_spec (xs : list float) (acc : float) :
  real acc -> Forall real xs ->
  real (fold_left math_min2 xs acc)
  /\ (fold_left math_min2 xs acc = acc \/ In (fold_left math_min2 xs acc) xs)
  /\ (fold_left math_min2 xs acc <=? acc)%float = true
  /\ forall x, In x xs -> (fold_left math_min2 xs acc <=? x)%float = true.
Proof.
  intros Hacc Hxs. revert acc Hacc.
  induction Hxs as [| x xs Hx _ IH]; intros acc Hacc; cbn [fold_left].
  - split; [exact Hacc |]. split; [now left |]. split; [now apply le_refl | intros x []].
  - destruct (math_min2_spec Hacc Hx) as (Hchoice & Hle_acc & Hle_x).
    assert (Hreal : real (math_min2 acc x)) by (destruct Hchoice as [-> | ->]; assumption).
    destruct (IH _ Hreal) as (Hr & Hin & Hle & Hall).
    split; [exact Hr |]. split; [| split].
    + destruct Hin as [-> | Hin]; [| right; now right].
      destruct Hchoice as [-> | ->]; [now left | right; now left].
    + eapply le_trans; [exact Hle | exact Hle_acc].
    + intros y [<- | Hy]; [eapply le_trans; [exact Hle | exact Hle_x] | now apply Hall].
Qed.

Lemma fold_max_spec (xs : list float) (acc : float) :
  real acc -> Forall real xs ->
  real (fold_left math_max2 xs acc)
  /\ (fold_left math_max2 xs acc = acc \/ In (fold_left math_max2 xs acc) xs)
  /\ (acc <=? fold_left math_max2 xs acc)%float = true
  /\ forall x, In x xs -> (x <=? fold_left math_max2 xs acc)%float = true.
Proof.
  intros Hacc Hxs. revert acc Hacc.
  induction Hxs as [| x xs Hx _ IH]; intros acc Hacc; cbn [fold_left].
  - split; [exact Hacc |]. split; [now left |]. split; [now apply le_refl | intros x []].
  - destruct (math_max2_spec Hacc Hx) as (Hchoice & Hle_acc & Hle_x).
    assert (Hreal : real (math_max2 acc x)) by (destruct Hchoice as [-> | ->]; assumption).
    destruct (IH _ Hreal) as (Hr & Hin & Hle & Hall).
    split; [exact Hr |]. split; [| split].
    + destruct Hin as [-> | Hin]; [| right; now right].
      destruct Hchoice as [-> | ->]; [now left | right; now left].
    + eapply le_trans; [exact Hle_acc | exact Hle].
    + intros y [<- | Hy]; [eapply le_trans; [exact Hle_x | exact Hle] | now apply Hall].
Qed.

Lemma above_infinity (x : float) : (infinity <=? x)%float = true -> x = infinity.
Proof.
  rewrite leb_spec. intros H. apply Prim2SF_inj.
  change (Prim2SF infinity) with (S754_infinity false) in *.
  destruct (Prim2SF x) as [s | [] | | s m e]; try reflexivity; try discriminate;
    destruct s; discriminate.
Qed.

Lemma below_neg_infinity (x : float) : (x <=? neg_infinity)%float = true -> x = neg_infinity.
Proof.
  rewrite leb_spec. intros H. apply Prim2SF_inj.
  change (Prim2SF neg_infinity) with (S754_infinity true) in *.
  destruct (Prim2SF x) as [s | [] | | s m e]; try reflexivity; try discriminate;
    destruct s; discriminate.
Qed.

Lemma Math_min_spec (xs : list float) :
  Forall real xs ->
  (xs = [] -> Math_min xs = infinity)
  /\ (xs <> [] -> In (Math_min xs) xs)
  /\ forall x, In x xs -> (Math_min xs <=? x)%float = true.
Proof.
  intros Hxs. unfold Math_min.
  destruct (fold_min_spec (acc := infinity) eq_refl Hxs) as (_ & Hin & _ & Hall).
  split; [now intros -> |]. split; [| exact Hall].
  intros Hne. destruct Hin as [Heq | Hin]; [| exact Hin].
  destruct xs as [| x xs]; [congruence |].
  pose proof (Hall x (or_introl eq_refl)) as Hle. rewrite Heq in Hle.
  apply above_infinity in Hle. rewrite Heq, <- Hle. now left.
Qed.

Lemma Math_max_spec (xs : list float) :
  Forall real xs ->
  (xs = [] -> Math_max xs = neg_infinity)
  /\ (xs <> [] -> In (Math_max xs) xs)
  /\ forall x, In x xs -> (x <=? Math_max xs)%float = true.
Proof.
  intros Hxs. unfold Math_max.
  destruct (fold_max_spec (acc := neg_infinity) eq_refl Hxs) as (_ & Hin & _ & Hall).
  split; [now intros -> |]. split; [| exact Hall].
  intros Hne. destruct Hin as [Heq | Hin]; [| exact Hin].
  destruct xs as [| x xs]; [congruence |].
  pose proof (Hall x (or_introl eq_refl)) as Hle. rewrite Heq in Hle.
  apply below_neg_infinity in Hle. rewrite Heq, <- Hle. now left.
Qed.

Lemma parseFloat_or_null_real (v : value) (x : float) :
  parseFloat_or_null v = Some x -> JS.truthy_num x = true.
Proof.
  unfold parseFloat_or_null. destruct (JS.truthy_num (parseFloat v)) eqn:E; [| discriminate].
  now intros [= <-].
Qed.

Lemma processed_depths_real (data : list RawRecord) (index : nat) :
  Forall real (non_null (map DEPTH (map_indexed processRow data index))).
Proof.
  revert index. induction data as [| row data IH]; intros index; cbn [map_indexed map].
  - constructor.
  - cbn [processRow DEPTH]. destruct (parseFloat_or_null (get row "DEPTH")) as [x |] eqn:E;
      cbn [non_null]; [| apply IH].
    constructor; [| apply IH]. apply truthy_real. exact (parseFloat_or_null_real _ E).
Qed.

(** X9: the depth range of an upload is [Infinity] to [-Infinity] when no
    row has a depth (a [DEPTH] of 0 counts as none); otherwise its ends are
    depths of rows, and every depth lies between them. *)
Theorem depth_range_bounds (data : list RawRecord) :
  (depths (processExcelData data) = [] ->
     Statistics.min (Statistics.depthRange (stats (processExcelData data))) = infinity
     /\ Statistics.max (Statistics.depthRange (stats (processExcelData data))) = neg_infinity)
  /\ (depths (processExcelData data) <> [] ->
        In (Statistics.min (Statistics.depthRange (stats (processExcelData data))))
           (depths (processExcelData data))
        /\ In (Statistics.max (Statistics.depthRange (stats (processExcelData data))))
              (depths (processExcelData data)))
  /\ forall d, In d (depths (processExcelData data)) ->
       (Statistics.min (Statistics.depthRange (stats (processExcelData data))) <=? d)%float = true
       /\ (d <=? Statistics.max (Statistics.depthRange (stats (processExcelData data))))%float
          = true.
Proof.
  cbn [stats Statistics.depthRange Statistics.min Statistics.max].
  assert (Hreal : Forall real (depths (processExcelData data)))
    by apply processed_depths_real.
  destruct (Math_min_spec Hreal) as (Hmin0 & Hmin1 & Hmin2).
  destruct (Math_max_spec Hreal) as (Hmax0 & Hmax1 & Hmax2).
  split; [| split].
  - intros H. split; [now apply Hmin0 | now apply Hmax0].
  - intros H. split; [now apply Hmin1 | now apply Hmax1].
  - intros d Hd. split; [now apply Hmin2 | now apply Hmax2].
Qed.

Lemma set_keeps_keys {A : Type} (o : list (string * A)) (k : string) (v : A) (c : string) :
  c = k \/ In c (keys o) -> In c (keys (set o k v)).
Proof.
  induction o as [| [k' v'] o IH]; cbn [set keys map fst In].
  - intros [-> | []]. now left.
  - destruct (String.eqb_spec k k') as [-> | Hne]; cbn [map fst In].
    + intros [-> | [<- | H]]; [now left | now left | now right].
    + intros [-> | [<- | H]]; [right; apply IH; now left | now left | right; apply IH; now right].
Qed.

Lemma set_NoDup {A : Type} (o : list (string * A)) (k : string) (v : A) :
  NoDup (keys o) -> NoDup (keys (set o k v)).
Proof.
  induction o as [| [k' v'] o IH]; cbn [set keys map fst]; intros H.
  - constructor; [intros [] | constructor].
  - inversion H as [| ? ? Hnotin Hrest]; subst.
    destruct (String.eqb_spec k k') as [-> | Hne]; cbn [map fst].
    + now constructor.
    + constructor; [| now apply IH].
      intros Hin. apply keys_set in Hin. destruct Hin as [-> | Hin]; [congruence | contradiction].
Qed.

Lemma distribution_has_dominant (rows : list ProcessedRow) (dist : list (string * float))
    (c : string) :
  (In c (keys dist) \/ exists r, In r rows /\ dominantRockType r = c) ->
  In c (keys (fold_left count_rock_type rows dist)).
Proof.
  revert dist. induction rows as [| r rows IH]; intros dist; cbn [fold_left].
  - intros [H | (r & [] & _)]. exact H.
  - intros H. apply IH. unfold count_rock_type.
    destruct H as [H | (r' & [<- | Hin] & Hc)].
    + left. apply set_keeps_keys. now right.
    + left. subst c. apply set_keeps_keys. now left.
    + right. now exists r'.
Qed.

Lemma distribution_NoDup (rows : list ProcessedRow) (dist : list (string * float)) :
  NoDup (keys dist) -> NoDup (keys (fold_left count_rock_type rows dist)).
Proof.
  revert dist. induction rows as [| r rows IH]; intros dist H; cbn [fold_left]; [exact H |].
  apply IH. unfold count_rock_type. now apply set_NoDup.
Qed.


Lemma lookup_set {A : Type} (o : list (string * A)) (k : string) (v : A) :
  lookup k (set o k v) = Some v.
Proof.
  induction o as [| [k' v'] o IH]; cbn [set lookup].
  - now rewrite String.eqb_refl.
  - destruct (String.eqb k k') eqn:E; cbn [lookup]; rewrite ?String.eqb_refl, ?E;
      [reflexivity | exact IH].
Qed.

Lemma lookup_set_other {A : Type} (o : list (string * A)) (k k' : string) (v : A) :
  k' <> k -> lookup k' (set o k v) = lookup k' o.
Proof.
  intros Hne. induction o as [| [k0 v0] o IH]; cbn [set lookup].
  - destruct (String.eqb_spec k' k); [contradiction | reflexivity].
  - destruct (String.eqb_spec k k0) as [-> | Hk]; cbn [lookup].
    + destruct (String.eqb_spec k' k0); [contradiction | reflexivity].
    + destruct (String.eqb_spec k' k0); [reflexivity | exact IH].
Qed.

Lemma count_rock_type_lookup (dist : list (string * float)) (r : ProcessedRow) (c : string) :
  lookup c (count_rock_type dist r)
  = if String.eqb (dominantRockType r) c then next_entry (lookup c dist) else lookup c dist.
Proof.
  unfold count_rock_type. destruct (String.eqb_spec (dominantRockType r) c) as [<- | Hne].
  - rewrite lookup_set. unfold next_entry, one_more.
    destruct (lookup (dominantRockType r) dist) as [x |]; reflexivity.
  - apply lookup_set_other. congruence.
Qed.

Lemma distribution_lookup (rows : list ProcessedRow) (dist : list (string * float))
    (c : string) :
  lookup c (fold_left count_rock_type rows dist)
  = Nat.iter (rows_of_type c rows) next_entry (lookup c dist).
Proof.
  revert dist. induction rows as [| r rows IH]; intros dist; cbn [fold_left].
  - reflexivity.
  - rewrite IH, count_rock_type_lookup. unfold rows_of_type, count_if. cbn [filter].
    destruct (String.eqb (dominantRockType r) c); cbn [List.length]; [| reflexivity].
    now rewrite Nat.iter_succ_r.
Qed.

Lemma iterated_entry (n : nat) :
  Nat.iter n next_entry None = match n with O => None | S _ => Some (counted n) end.
Proof.
  induction n as [| n IH]; [reflexivity |].
  cbn [Nat.iter nat_rect]. fold (Nat.iter n next_entry None). rewrite IH.
  unfold next_entry, counted. destruct n; reflexivity.
Qed.

(** X10: the rock type distribution of an upload has one entry for each
    rock type that is the dominant one of some row, and no other entry, so
    that it is keyed by category names; the entry of a type is what counting
    its rows one by one from 0 gives. *)
Theorem distribution_lists_the_dominant_types (data : list RawRecord) :
  NoDup (keys (Statistics.rockTypeDistribution (stats (processExcelData data))))
  /\ (forall c, In c (keys (Statistics.rockTypeDistribution (stats (processExcelData data))))
                <-> exists r, In r (processExcelData data) /\ dominantRockType r = c)
  /\ incl (keys (Statistics.rockTypeDistribution (stats (processExcelData data)))) categories
  /\ forall c, lookup c (Statistics.rockTypeDistribution (stats (processExcelData data)))
               = match rows_of_type c (processExcelData data) with
                 | O => None
                 | S _ => Some (counted (rows_of_type c (processExcelData data)))
                 end.
Proof.
  generalize (@processed_rows_dominant data 0). fold (processExcelData data).
  generalize (processExcelData data) as rows. intros rows Hcategories.
  cbn [stats Statistics.rockTypeDistribution]. split; [| split; [| split]].
  - apply distribution_NoDup. constructor.
  - intros c. split.
    + intros H. apply distribution_keys in H. destruct H as [[] | (r & Hr & ->)].
      now exists r.
    + intros H. apply distribution_has_dominant. now right.
  - intros c H. apply distribution_keys in H. destruct H as [[] | (r & Hr & ->)].
    now apply Hcategories.
  - intros c. rewrite distribution_lookup. cbn [lookup]. apply iterated_entry.
Qed.

(** ** More on the anomaly detector *)

Lemma extreme_nullable (x : option float) (low high : float) :
  extreme (nullable x) low high = out_of_range x low high.
Proof.
  unfold extreme, nullable, json_number, out_of_range. destruct x as [v |]; [| reflexivity].
  destruct (PrimFloat.is_finite v); reflexivity.
Qed.

Lemma row_json_fields (r : ProcessedRow) :
  prop (row_json r) "DEPTH" = Normal (nullable (DEPTH r))
  /\ prop (row_json r) "DT" = Normal (nullable (DT r))
  /\ prop (row_json r) "GR" = Normal (nullable (GR r)).
Proof. repeat split. Qed.

Lemma DT_check_uploaded (r : ProcessedRow) (anomalies : list Anomaly) :
  exists found,
    DT_check (row_json r) anomalies = Normal (app anomalies found)
    /\ findings_of found (out_of_range (DT r) 30 250) "dt_extreme" (nullable (DEPTH r)).
Proof.
  destruct (row_json_fields r) as (Hdepth & Hdt & _).
  unfold DT_check. rewrite Hdt. cbn [bind]. rewrite extreme_nullable.
  destruct (out_of_range (DT r) 30 250).
  - rewrite Hdepth. cbn [bind]. eexists [_]. split; [reflexivity |].
    split; [reflexivity | repeat constructor].
  - exists []. rewrite app_nil_r. split; [reflexivity |]. split; [reflexivity | constructor].
Qed.

Lemma GR_check_uploaded (r : ProcessedRow) (anomalies : list Anomaly) :
  exists found,
    GR_check (row_json r) anomalies = Normal (app anomalies found)
    /\ findings_of found (out_of_range (GR r) 0 400) "gr_extreme" (nullable (DEPTH r)).
Proof.
  destruct (row_json_fields r) as (Hdepth & _ & Hgr).
  unfold GR_check. rewrite Hgr. cbn [bind]. rewrite extreme_nullable.
  destruct (out_of_range (GR r) 0 400).
  - rewrite Hdepth. cbn [bind]. eexists [_]. split; [reflexivity |].
    split; [reflexivity | repeat constructor].
  - exists []. rewrite app_nil_r. split; [reflexivity |]. split; [reflexivity | constructor].
Qed.

Lemma composition_check_uploaded (r : ProcessedRow) (total : float) (anomalies : list Anomaly) :
  exists found,
    composition_check (row_json r) (num total) anomalies = Normal (app anomalies found)
    /\ findings_of found (JS.gt (abs (total - 100)) 15) "composition_error"
         (nullable (DEPTH r)).
Proof.
  destruct (row_json_fields r) as (Hdepth & _ & _).
  unfold composition_check. change (number_of (num total)) with total.
  destruct (JS.gt (abs (total - 100)) 15).
  - rewrite Hdepth. cbn [bind toFixed_of num]. eexists [_]. split; [reflexivity |].
    split; [reflexivity | repeat constructor].
  - exists []. rewrite app_nil_r. split; [reflexivity |]. split; [reflexivity | constructor].
Qed.

Lemma detect_row_findings (r : ProcessedRow) (anomalies : list Anomaly) :
  clean_row r ->
  exists found,
    detect_row (row_json r) anomalies = Normal (app anomalies found)
    /\ map type found = finding_types r
    /\ Forall (fun a => depth a = nullable (DEPTH r)) found.
Proof.
  intros Hclean. rewrite detect_row_eq, (totalComposition_received Hclean). cbn [bind].
  destruct (composition_check_uploaded r (category_sum r) anomalies)
    as (f1 & -> & Ht1 & Hd1).
  cbn [bind].
  destruct (DT_check_uploaded r (app anomalies f1)) as (f2 & -> & Ht2 & Hd2).
  cbn [bind].
  destruct (GR_check_uploaded r (app (app anomalies f1) f2)) as (f3 & -> & Ht3 & Hd3).
  exists (app f1 (app f2 f3)). split; [now rewrite !app_assoc |]. split.
  - rewrite !map_app, Ht1, Ht2, Ht3. reflexivity.
  - rewrite !Forall_app. auto.
Qed.

Lemma detect_rows_findings (rs : list ProcessedRow) (anomalies : list Anomaly) :
  Forall clean_row rs ->
  exists found,
    detect_rows (map row_json rs) anomalies = Normal (app anomalies found)
    /\ map type found = List.concat (map finding_types rs).
Proof.
  intros H. revert anomalies. induction H as [| r rs Hr _ IH]; intros anomalies;
    cbn [map detect_rows List.concat].
  - exists []. rewrite app_nil_r. split; reflexivity.
  - destruct (detect_row_findings anomalies Hr) as (f1 & -> & Ht1 & _). cbn [bind].
    destruct (IH (app anomalies f1)) as (f2 & -> & Ht2).
    exists (app f1 f2). split; [now rewrite app_assoc |].
    now rewrite map_app, Ht1, Ht2.
Qed.

Lemma processed_rows_are_clean (data : list RawRecord) (index : nat) :
  Forall clean_row (map_indexed processRow data index).
Proof.
  revert index. induction data as [| row data IH]; intros index; cbn [map_indexed];
    constructor; [apply processRow_clean | apply IH].
Qed.

Lemma detectDataAnomalies_array (items : list json) :
  detectDataAnomalies (Arr items)
  = match items with
    | [] => Normal []
    | _ :: _ => bind (detect_rows items []) (fun anomalies => Normal (firstn 5 anomalies))
    end.
Proof. destruct items; reflexivity. Qed.

(** X11: on the rows of an upload the anomaly detector returns: every
    row is checked for its composition, then its [DT], then its [GR], a
    missing, zero or non-finite [DT] or [GR] is never extreme, the findings
    come in row order, and the first five of them are kept. *)
Theorem anomalies_of_an_upload (data : list RawRecord) :
  exists anomalies,
    detectDataAnomalies (rows_json (processExcelData data)) = Normal anomalies
    /\ map type anomalies
       = firstn 5 (List.concat (map finding_types (processExcelData data)))
    /\ (List.length anomalies <= 5)%nat.
Proof.
  unfold rows_json. rewrite detectDataAnomalies_array.
  destruct (detect_rows_findings [] (processed_rows_are_clean data 0)) as (found & Hrun & Ht).
  fold (processExcelData data) in Hrun, Ht. cbn [app] in Hrun.
  destruct (map row_json (processExcelData data)) as [| item items] eqn:Hitems.
  - exists []. split; [reflexivity |]. split; [| cbn; lia].
    destruct (processExcelData data); [reflexivity | discriminate].
  - rewrite Hrun. cbn [bind]. exists (firstn 5 found). split; [reflexivity |].
    split; [now rewrite <- firstn_map, Ht | apply firstn_le_length].
Qed.

(** ** More on the fallback responder and the chat route *)

Ltac by_keywords H :=
  repeat (lazymatch goal with
          | |- context [JS.includes ?a ?b] => destruct (JS.includes a b)
          end;
          cbn [orb negb bind]; rewrite ?H; cbn [bind];
          try (eexists; reflexivity)).

Lemma fallback_returns_without_data (s : string) (wellData uploadedData : json) :
  truthy_json uploadedData = false ->
  no_well_or_with_status wellData ->
  exists text, generateFallbackResponse (Prim (VStr s)) wellData uploadedData = Normal text.
Proof.
  intros Hdata Hwell. unfold generateFallbackResponse, and_prop.
  rewrite Hdata. cbn [toLowerCase_of bind]. rewrite Hdata.
  destruct Hwell as [Hnone | (fields & status & -> & Hstatus)].
  - rewrite Hnone. by_keywords Hdata.
  - cbn [truthy_json prop bind]. rewrite Hstatus. cbn [toLowerCase_of bind].
    by_keywords Hdata.
Qed.

(** X12: without uploaded data the fallback responder has an answer to
    every text message, provided that no well is selected or that the
    selected well has a text as [status]. *)
Theorem fallback_answers_without_data (s : string) (wellData uploadedData : json) :
  truthy_json uploadedData = false ->
  no_well_or_with_status wellData ->
  exists text, generateFallbackResponse (Prim (VStr s)) wellData uploadedData = Normal text.
Proof. apply fallback_returns_without_data. Qed.

Lemma fallback_answers_without_data_witness :
  exists text,
    generateFallbackResponse (Prim (VStr "Any problem with the GR log?"))
      (Obj [("name", Prim (VStr "Well A")); ("depth", num 2500);
            ("status", Prim (VStr "Active"))])
      undefined
    = Normal text.
Proof.
  apply fallback_answers_without_data; [reflexivity |].
  right. eexists. eexists. split; reflexivity.
Defined.

Lemma buildContext_without_data (wellData uploadedData enhancedContext : json) :
  truthy_json uploadedData = false ->
  no_well_or_with_status wellData ->
  exists context, buildContext wellData uploadedData enhancedContext = Normal context.
Proof.
  intros Hdata Hwell. unfold buildContext, data_context, and_prop. rewrite Hdata.
  cbn [bind]. rewrite Hdata. cbn [negb bind].
  destruct Hwell as [-> | (fields & status & -> & Hstatus)].
  - cbn [bind]. eexists. reflexivity.
  - cbn [truthy_json prop bind]. eexists. reflexivity.
Qed.

(** X13: a chat request with a non-empty text message, no uploaded data
    and no well, or a well with a text as [status], is always answered,
    whether the model answers or fails. *)
Theorem chat_answers_without_data (env : Environment) (fields : list (string * json))
    (s : string) :
  field fields "message" = Prim (VStr s) ->
  s <> "" ->
  truthy_json (field fields "uploadedData") = false ->
  no_well_or_with_status (field fields "wellData") ->
  exists answer, chat env (Obj fields) = Normal (Answer answer).
Proof.
  intros Hmessage Hs Hdata Hwell. unfold chat, chat_try. rewrite !prop_field. cbn [bind].
  rewrite Hmessage. cbn [truthy_json truthy].
  destruct (String.eqb_spec s "") as [-> | _]; [congruence |]. cbn [negb].
  destruct (@buildContext_without_data (field fields "wellData") (field fields "uploadedData")
              (field fields "enhancedContext") Hdata Hwell) as [context ->].
  cbn [bind].
  destruct (generate env context (Prim (VStr s))) as [content | aiError]; cbn [bind].
  - eexists. reflexivity.
  - destruct (@fallback_returns_without_data s (field fields "wellData")
                (field fields "uploadedData") Hdata Hwell) as [text ->].
    cbn [bind].
    eexists. reflexivity.
Qed.

Lemma chat_answers_without_data_witness :
  exists answer,
    chat (unreachable_model "API Error" "1700000000000" "k3x9q2m1z" "2024-01-01T00:00:00.000Z")
         (Obj [("message", Prim (VStr "Any advice?"))])
    = Normal (Answer answer).
Proof.
  apply (@chat_answers_without_data _ [("message", Prim (VStr "Any advice?"))] "Any advice?");
    [reflexivity | discriminate | reflexivity | left; reflexivity].
Defined.

(** X14: a request without message is turned away as a bad request; and
    the route ends with an error instead of an answer only when the fallback
    responder throws on the request, and then with that very error. *)
Theorem chat_fails_only_with_the_fallback (env : Environment) (fields : list (string * json)) :
  (truthy_json (field fields "message") = false ->
   chat env (Obj fields) = Normal (BadRequest "Message is required"))
  /\ forall thrown,
       chat env (Obj fields) = Throw thrown ->
       truthy_json (field fields "message") = true
       /\ generateFallbackResponse (field fields "message") (field fields "wellData")
            (field fields "uploadedData") = Throw thrown.
Proof.
  unfold chat, chat_try, chat_catch. rewrite !prop_field. cbn [bind]. split.
  - intros ->. reflexivity.
  - intros thrown. destruct (truthy_json (field fields "message")); cbn [negb];
      [| discriminate].
    destruct (generateFallbackResponse _ _ _) as [text | thrown'] eqn:Hfallback.
    + destruct (buildContext _ _ _) as [context | e1]; cbn [bind]; [| discriminate].
      destruct (generate env context _) as [content | aiError]; cbn [bind]; discriminate.
    + cbn [bind]. destruct (buildContext _ _ _) as [context | e1]; cbn [bind].
      * destruct (generate env context _) as [content | aiError]; cbn [bind];
          [discriminate |]. intros [= <-]. split; reflexivity.
      * intros [= <-]. split; reflexivity.
Qed.

(** X15: every answer carries the session id of the request when that is
    truthy; otherwise a fresh one, [session_] followed by the time and a
    random suffix, or [fallback_] and the time when the answer comes from
    the outer [catch]. *)
Theorem chat_session_id (env : Environment) (fields : list (string * json))
    (answer : ChatBody) :
  chat env (Obj fields) = Normal (Answer answer) ->
  (truthy_json (field fields "sessionId") = true ->
     sessionId answer = field fields "sessionId")
  /\ (truthy_json (field fields "sessionId") = false ->
        sessionId answer = Prim (VStr ("session_" ++ now env ++ "_" ++ random env))
        \/ sessionId answer = Prim (VStr ("fallback_" ++ now env))).
Proof.
  unfold chat, chat_try, chat_catch. rewrite !prop_field. cbn [bind].
  destruct (truthy_json (field fields "message")); cbn [negb]; [| discriminate].
  unfold or_else.
  destruct (buildContext _ _ _) as [context | e1]; cbn [bind].
  - destruct (generate env context _) as [content | aiError]; cbn [bind].
    + intros [= <-]. cbn [sessionId]. split; intros ->; auto.
    + destruct (generateFallbackResponse _ _ _) as [text | thrown]; cbn [bind].
      * intros [= <-]. cbn [sessionId]. split; intros ->; auto.
      * discriminate.
  - destruct (generateFallbackResponse _ _ _) as [text | thrown]; cbn [bind].
    + intros [= <-]. cbn [sessionId]. split; intros ->; auto.
    + discriminate.
Qed.

Lemma chat_session_id_witness :
  (truthy_json (field asked_in_session "sessionId") = true ->
     sessionId {| response := Prim (VStr "The formation is mostly shale.");
                  sessionId := Prim (VStr "session_1_abc");
                  isAIResponse := true;
                  sent_at := Some "2024-01-01T00:00:00.000Z";
                  note := None |}
     = field asked_in_session "sessionId")
  /\ (truthy_json (field asked_in_session "sessionId") = false ->
        sessionId {| response := Prim (VStr "The formation is mostly shale.");
                     sessionId := Prim (VStr "session_1_abc");
                     isAIResponse := true;
                     sent_at := Some "2024-01-01T00:00:00.000Z";
                     note := None |}
        = Prim (VStr ("session_" ++ now working_model ++ "_" ++ random working_model))
        \/ sessionId {| response := Prim (VStr "The formation is mostly shale.");
                        sessionId := Prim (VStr "session_1_abc");
                        isAIResponse := true;
                        sent_at := Some "2024-01-01T00:00:00.000Z";
                        note := None |}
           = Prim (VStr ("fallback_" ++ now working_model))).
Proof.
  apply (@chat_session_id working_model asked_in_session). vm_compute. reflexivity.
Defined.

(** ** More on the recommendations *)

Lemma holds_In (l : list string) (x : string) : In x l -> holds l x = true.
Proof.
  intros H. unfold holds. apply existsb_exists. exists x. split; [exact H |].
  apply String.eqb_refl.
Qed.

Lemma recommendations_checked (stats : json) (recs : list string) :
  recommendations_for stats = Normal recs -> consistent_advice recs = true.
Proof.
  unfold recommendations_for.
  destruct (prop stats "rockTypeDistribution") as [rockDist | e]; cbn [bind]; [| discriminate].
  destruct (Object_values rockDist) as [counts | e]; cbn [bind]; [| discriminate].
  destruct (prop rockDist "SH") as [SH | e]; cbn [bind]; [| discriminate].
  destruct (prop rockDist "SS") as [SS | e]; cbn [bind]; [| discriminate].
  destruct (prop rockDist "LS") as [LS | e]; cbn [bind]; [| discriminate].
  destruct (prop rockDist "DOL") as [DOL | e]; cbn [bind]; [| discriminate].
  destruct (prop stats "averages") as [averages | e]; cbn [bind]; [| discriminate].
  destruct (prop averages "DT") as [DT | e]; cbn [bind]; [| discriminate].
  destruct (prop averages "GR") as [GR | e]; cbn [bind]; [| discriminate].
  generalize (share SH (sum_counts counts)) (share SS (sum_counts counts))
             (share (plus (or_else LS (num 0)) (or_else DOL (num 0))) (sum_counts counts))
             (number_of DT) (number_of GR).
  intros shale sandstone carbonate dt gr.
  destruct (JS.gt shale 40), (JS.gt sandstone 30), (JS.gt carbonate 25),
    (JS.gt dt 100) eqn:Hhigh, (JS.lt dt 60), (JS.gt gr 100);
    intros [= <-]; vm_compute; reflexivity.
Qed.

(** X16: the recommendations are never empty and at most five; the
    caution about high [DT] and the one about low [DT] never come together;
    and the default stands alone. *)
Theorem recommendations_are_consistent (stats : json) (recs : list string) :
  recommendations_for stats = Normal recs ->
  recs <> []
  /\ (List.length recs <= 5)%nat
  /\ ~ (In lost_circulation_caution recs /\ In slow_ROP_caution recs)
  /\ (In uniform_default recs -> recs = [uniform_default]).
Proof.
  intros H. apply recommendations_checked in H. unfold consistent_advice in H.
  rewrite !andb_true_iff, !negb_true_iff, orb_true_iff, negb_true_iff in H.
  destruct H as (((Hne & Hlen) & Hdt) & Hdefault).
  split; [| split; [| split]].
  - intros ->. discriminate.
  - now apply Nat.leb_le.
  - intros [H1 H2]. apply holds_In in H1, H2. rewrite H1, H2 in Hdt. discriminate.
  - intros Hin. pose proof (holds_In _ _ Hin) as Hh.
    destruct Hdefault as [Hno | Hone]; [congruence |].
    apply Nat.eqb_eq in Hone. destruct recs as [| x [| y rest]]; try discriminate.
    destruct Hin as [-> | []]. reflexivity.
Qed.

Lemma recommendations_are_consistent_witness :
  [uniform_default] <> []
  /\ (List.length [uniform_default] <= 5)%nat
  /\ ~ (In lost_circulation_caution [uniform_default]
        /\ In slow_ROP_caution [uniform_default])
  /\ (In uniform_default [uniform_default] -> [uniform_default] = [uniform_default]).
Proof.
  apply (@recommendations_are_consistent
           (statistics_json (stats (processExcelData all_shale)))).
  vm_compute. reflexivity.
Defined.

(** ** The health check *)

(** X17: the health check answers 200 with status [OK] exactly when the
    database answered and an API key other than the placeholder is set;
    otherwise it answers 503 with status [DEGRADED], naming the database
    as [ERROR] or the model as [NOT_CONFIGURED]. *)
Theorem health_status (env : Health.ProcessEnv) (now : string) (uptime : float) (err : bool) :
  (fst (health env now uptime err) = 200%nat
   <-> err = false /\ not_configured (Health.OPENAI_API_KEY env) = false)
  /\ (fst (health env now uptime err) = 200%nat
      /\ Health.status (snd (health env now uptime err)) = "OK"
      \/ fst (health env now uptime err) = 503%nat
         /\ Health.status (snd (health env now uptime err)) = "DEGRADED")
  /\ (Health.database (Health.services (snd (health env now uptime err))) = "ERROR"
      <-> err = true)
  /\ (Health.openai (Health.services (snd (health env now uptime err))) = "NOT_CONFIGURED"
      <-> not_configured (Health.OPENAI_API_KEY env) = true).
Proof.
  unfold health. destruct err, (not_configured (Health.OPENAI_API_KEY env));
    cbn; repeat split; intros; try tauto; try discriminate; try (destruct H; discriminate);
    try (left; split; reflexivity); try (right; split; reflexivity).
Qed.

(** ** The error-handling middleware *)

Lemma prefix_of_app (p s : list ascii) :
  JS.prefix_of p s = true <-> exists t, s = app p t.
Proof.
  revert s. induction p as [| a p IH]; intros s; cbn [JS.prefix_of].
  - split; [intros _; now exists s | reflexivity].
  - destruct s as [| b s].
    + split; [discriminate | intros [t Ht]; discriminate].
    + rewrite andb_true_iff, IH. split.
      * intros [Hab [t ->]]. apply Ascii.eqb_eq in Hab. subst. now exists t.
      * intros [t [= -> ->]]. split; [apply Ascii.eqb_refl | now exists t].
Qed.

Lemma includes_chars_app (s p : list ascii) :
  JS.includes_chars s p = true <-> exists a b, s = app a (app p b).
Proof.
  induction s as [| c s IH]; cbn [JS.includes_chars].
  - rewrite orb_false_r, prefix_of_app. split.
    + intros [t Ht]. now exists [], t.
    + intros (a & b & H). destruct a; [now exists b |]. discriminate.
  - rewrite orb_true_iff, prefix_of_app, IH. split.
    + intros [[t Ht] | (a & b & ->)]; [now exists [], t | now exists (c :: a), b].
    + intros (a & b & H). destruct a as [| c' a]; [left; now exists b |].
      injection H as <- ->. right. now exists a, b.
Qed.

Lemma chars_append (a b : string) : JS.chars (a ++ b) = app (JS.chars a) (JS.chars b).
Proof.
  unfold JS.chars. induction a as [| c a IH]; cbn [append list_ascii_of_string app];
    [reflexivity | now rewrite IH].
Qed.

(** A text that holds [before ++ part ++ after] holds [part]. *)
Lemma includes_part (s before part after : string) :
  JS.includes s (before ++ part ++ after) = true -> JS.includes s part = true.
Proof.
  unfold JS.includes. rewrite !chars_append, !includes_chars_app. intros (a & b & ->).
  exists (app a (JS.chars before)), (app (JS.chars after) b).
  now rewrite <- !app_assoc.
Qed.

Lemma mentions_Excel (m : string) :
  JS.includes m "Excel" = false ->
  JS.includes m "Invalid Excel file format" = false
  /\ JS.includes m "Only Excel files are allowed" = false
  /\ JS.includes m "Excel file contains no data rows" = false
  /\ JS.includes m "Excel file is empty or contains no data" = false
  /\ JS.includes m "Invalid Excel file structure" = false.
Proof.
  intros Hno.
  assert (H : forall before after,
             JS.includes m (before ++ "Excel" ++ after) = false).
  { intros before after. destruct (JS.includes m (before ++ "Excel" ++ after)) eqn:E;
      [| reflexivity].
    apply includes_part in E. congruence. }
  repeat split.
  - exact (H "Invalid " " file format").
  - exact (H "Only " " files are allowed").
  - exact (H "" " file contains no data rows").
  - exact (H "" " file is empty or contains no data").
  - exact (H "Invalid " " file structure").
Qed.

(** X18: the error handler answers an upload error of multer and an
    error with the code [INVALID_FILE_TYPE] with 400, whatever the message;
    any other error with a text message with 400 or 500, and with 500
    exactly when the message mentions neither "Invalid JSON" nor "Excel",
    the body then being the message; and on any other error without message
    it throws itself. *)
Theorem error_middleware_answers (e : ServerError) :
  (multer_error e = true \/ is_string (code e) "INVALID_FILE_TYPE" = true ->
   exists r, error_middleware e = Normal r /\ reply_status r = 400%nat)
  /\ (forall m,
        error_message e = Prim (VStr m) ->
        exists r,
          error_middleware e = Normal r
          /\ (reply_status r = 400%nat \/ reply_status r = 500%nat)
          /\ (reply_status r = 500%nat
              <-> multer_error e = false
                  /\ is_string (code e) "INVALID_FILE_TYPE" = false
                  /\ JS.includes m "Invalid JSON" = false
                  /\ JS.includes m "Excel" = false)
          /\ (reply_status r = 500%nat ->
              reply_error r = Prim (VStr m) /\ reply_details r = None))
  /\ (multer_error e = false ->
      is_string (code e) "INVALID_FILE_TYPE" = false ->
      error_message e = Prim VUndefined \/ error_message e = Prim VNull ->
      exists thrown, error_middleware e = Throw thrown).
Proof.
  unfold error_middleware. split; [| split].
  - intros [-> | Hcode].
    + destruct (is_string (code e) "LIMIT_FILE_SIZE"); eexists; split; reflexivity.
    + destruct (multer_error e).
      * destruct (is_string (code e) "LIMIT_FILE_SIZE"); eexists; split; reflexivity.
      * rewrite Hcode. eexists; split; reflexivity.
  - intros m ->. cbn [includes_of bind].
    destruct (multer_error e).
    { destruct (is_string (code e) "LIMIT_FILE_SIZE"); eexists;
        (split; [reflexivity |]); cbn [reply reply_status];
        (split; [now left |]); (split; [| discriminate]);
        (split; [discriminate | intros (H & _); discriminate]). }
    destruct (is_string (code e) "INVALID_FILE_TYPE").
    { eexists. split; [reflexivity |]. cbn [reply reply_status]. split; [now left |].
      split; [| discriminate]. split; [discriminate | intros (_ & H & _); discriminate]. }
    destruct (JS.includes m "Excel") eqn:Hexcel.
    + destruct (JS.includes m "Invalid Excel file format"); cbn [bind];
        [| destruct (JS.includes m "Only Excel files are allowed"); cbn [bind];
           [| destruct (JS.includes m "Invalid JSON"); cbn [bind];
              [| destruct (JS.includes m "Excel file contains no data rows"); cbn [bind];
                 [| destruct (JS.includes m "Excel file is empty or contains no data");
                    cbn [bind];
                    [| destruct (JS.includes m "Invalid Excel file structure");
                       cbn [bind]]]]]];
        eexists; (split; [reflexivity |]); cbn [reply reply_status];
        (split; [now left |]); (split; [| discriminate]);
        (split; [discriminate | intros (_ & _ & _ & H); discriminate]).
    + destruct (mentions_Excel m Hexcel) as (-> & -> & -> & -> & ->). cbn [bind].
      destruct (JS.includes m "Invalid JSON"); cbn [bind]; eexists;
        (split; [reflexivity |]); cbn [reply reply_status reply_error reply_details].
      * split; [now left |]. split; [| discriminate].
        split; [discriminate | intros (_ & _ & H & _); discriminate].
      * split; [now right |]. split; [| intros _; split; reflexivity].
        split; [intros _; repeat split | reflexivity].
  - intros -> -> [-> | ->]; cbn [includes_of bind]; eexists; reflexivity.
Qed.

(** ** Storing the rows of a well *)

Section StoreFacts.

Variable DB : Type.
Variable run : DB -> list json -> DB * option string.

Lemma store_row_counts (wellId row : json) (index : nat) (p : Progress DB) :
  (inserted (store_row run wellId row index p)
   + List.length (failures (store_row run wellId row index p))
   = S (inserted p + List.length (failures p)))%nat.
Proof.
  unfold store_row. destruct (insert_parameters wellId row) as [parameters | thrown].
  - destruct (run (database p) parameters) as [db [thrown |]];
      cbn [inserted failures]; rewrite ?push_length; lia.
  - cbn [inserted failures]. rewrite push_length. lia.
Qed.

Lemma store_rows_counts (wellId : json) (rows : list json) (index : nat) (p : Progress DB) :
  (inserted (store_rows run wellId rows index p)
   + List.length (failures (store_rows run wellId rows index p))
   = inserted p + List.length (failures p) + List.length rows)%nat.
Proof.
  revert index p. induction rows as [| row rows IH]; intros index p;
    cbn [store_rows List.length]; [lia |].
  rewrite IH, store_row_counts. lia.
Qed.

(** X19: storing the rows of a well: without a [data] array in the body
    nothing is stored and the request is turned away; otherwise every row
    is tried, whatever happened to the rows before it: the inserted rows and
    the error messages add up to the rows sent, and the answer is 200
    without errors when every row went in and 207 with the errors when one
    did not. *)
Theorem store_well_data_counts (db : DB) (wellId : string) (fields : list (string * json)) :
  (forall rows,
      field fields "data" = Arr rows ->
      exists db' r,
        store_well_data run db wellId (Obj fields) = Normal (db', Stored r)
        /\ (insertedCount r + List.length (errors_of r) = List.length rows)%nat
        /\ (store_status r = 200%nat /\ store_errors r = None
                                      /\ insertedCount r = List.length rows
            \/ store_status r = 207%nat /\ store_errors r <> None
                                         /\ (insertedCount r < List.length rows)%nat))
  /\ ((forall rows, field fields "data" <> Arr rows) ->
      store_well_data run db wellId (Obj fields) = Normal (db, NoDataArray)).
Proof.
  unfold store_well_data. cbn [destructure]. rewrite prop_field. cbn [bind]. split.
  - intros rows ->.
    pose proof (store_rows_counts (Prim (VStr wellId)) rows 0
                  {| database := db; inserted := 0; failures := [] |}) as Hcount.
    cbn [inserted failures List.length] in Hcount.
    destruct (store_rows run (Prim (VStr wellId)) rows 0 _) as [db' n errs].
    cbn [inserted failures database] in *.
    destruct errs as [| e errs]; cbn [List.length Nat.ltb Nat.leb] in *.
    + exists db'. eexists. split; [reflexivity |].
      cbn [insertedCount errors_of store_errors store_status List.length].
      split; [lia |]. left. repeat split. lia.
    + exists db'. eexists. split; [reflexivity |].
      cbn [insertedCount errors_of store_errors store_status List.length].
      split; [lia |]. right. split; [reflexivity |]. split; [discriminate | lia].
  - intros Hno. destruct (field fields "data") as [v | items | o]; try reflexivity.
    now destruct (Hno items).
Qed.

Hypothesis never_throws : forall db parameters, snd (run db parameters) = None.

Lemma store_uploaded_row (wellId : string) (r : ProcessedRow) (index : nat)
    (p : Progress DB) :
  store_row run (Prim (VStr wellId)) (row_json r) index p
  = {| database := fst (run (database p) (stored_parameters wellId r));
       inserted := S (inserted p);
       failures := failures p |}.
Proof.
  unfold store_row.
  change (insert_parameters (Prim (VStr wellId)) (row_json r))
    with (Normal (stored_parameters wellId r)).
  cbv beta iota.
  generalize (never_throws (database p) (stored_parameters wellId r)).
  destruct (run (database p) (stored_parameters wellId r)) as [db' [thrown |]];
    cbn [snd fst]; [discriminate | reflexivity].
Qed.

Lemma store_uploaded_rows (wellId : string) (rs : list ProcessedRow) (index : nat)
    (p : Progress DB) :
  store_rows run (Prim (VStr wellId)) (map row_json rs) index p
  = {| database := fold_left (fun db r => fst (run db (stored_parameters wellId r)))
                             rs (database p);
       inserted := (inserted p + List.length rs)%nat;
       failures := failures p |}.
Proof.
  revert index p. induction rs as [| r rs IH]; intros index p; cbn [map store_rows fold_left].
  - destruct p as [d n f]. cbn [database inserted failures List.length].
    now rewrite Nat.add_0_r.
  - rewrite IH, store_uploaded_row. cbn [database inserted failures List.length].
    f_equal. lia.
Qed.

(** X20: when the statement never throws, the rows of an upload are
    all stored, in their order, each with the well, its depth, its seven
    percentages, its [DT], its [GR] and its dominant rock type; the answer
    is 200 with the number of rows. *)
Theorem store_keeps_an_upload (db : DB) (wellId : string) (fields : list (string * json))
    (data : list RawRecord) :
  field fields "data" = rows_json (processExcelData data) ->
  store_well_data run db wellId (Obj fields)
  = Normal (fold_left (fun db r => fst (run db (stored_parameters wellId r)))
                      (processExcelData data) db,
            Stored {| store_status := 200;
                      store_message := "Successfully inserted "
                                       ++ JS.string_of_nat (List.length data)
                                       ++ " data points";
                      insertedCount := List.length data;
                      store_errors := None |}).
Proof.
  intros Hdata. unfold store_well_data. cbn [destructure]. rewrite prop_field, Hdata.
  unfold rows_json. cbn [bind]. rewrite store_uploaded_rows.
  cbn [database inserted failures List.length Nat.ltb Nat.leb Nat.add].
  now rewrite processExcelData_length.
Qed.

End StoreFacts.

Lemma store_keeps_an_upload_witness :
  store_well_data log_all [] "7" (Obj [("data", rows_json (processExcelData all_shale))])
  = Normal (fold_left (fun db r => fst (log_all db (stored_parameters "7" r)))
                      (processExcelData all_shale) [],
            Stored {| store_status := 200;
                      store_message := "Successfully inserted "
                                       ++ JS.string_of_nat (List.length all_shale)
                                       ++ " data points";
                      insertedCount := List.length all_shale;
                      store_errors := None |}).
Proof.
  apply (@store_keeps_an_upload _ log_all (fun _ _ => eq_refl) [] "7"
           [("data", rows_json (processExcelData all_shale))] all_shale).
  reflexivity.
Defined.

(** ** More on the transformer *)

(** X21: a processed row is numbered from 1, its dominant rock type is
    one of the seven categories, none of its percentages is [NaN], and a
    depth, [DT] or [GR] it has is neither 0 nor [NaN]. *)
Theorem processed_row_invariants (row : RawRecord) (index : nat) :
  rowIndex (processRow row index) = S index
  /\ In (dominantRockType (processRow row index)) categories
  /\ (forall c, In c categories -> real (percentage (processRow row index) c))
  /\ forall x,
       DEPTH (processRow row index) = Some x
       \/ DT (processRow row index) = Some x
       \/ GR (processRow row index) = Some x ->
       JS.truthy_num x = true.
Proof.
  split; [cbn [processRow rowIndex]; lia |].
  split; [apply dominant_is_a_category |].
  split; [intros c; apply percentage_real |].
  cbn [processRow DEPTH DT GR]. intros x [H | [H | H]]; exact (parseFloat_or_null_real _ H).
Qed.

(** ** File names *)

Lemma chars_str (l : list ascii) : JS.chars (JS.str l) = l.
Proof. apply list_ascii_of_string_of_list_ascii. Qed.

Lemma str_chars (s : string) : JS.str (JS.chars s) = s.
Proof. apply string_of_list_ascii_of_string. Qed.

Lemma skip_slashes_head (c : ascii) (l : list ascii) :
  c <> "/"%char -> skip_slashes (c :: l) = c :: l.
Proof.
  intros H. cbn [skip_slashes]. destruct (Ascii.eqb_spec c "/"); [contradiction | reflexivity].
Qed.

Lemma until_slash_without (l : list ascii) : without "/" l -> until_slash l = l.
Proof.
  unfold without. induction l as [| c l IH]; cbn [until_slash In]; [reflexivity |].
  intros H. destruct (Ascii.eqb_spec c "/") as [-> | _]; [tauto |].
  rewrite IH; [reflexivity | tauto].
Qed.

Lemma until_slash_no_slash (l : list ascii) : without "/" (until_slash l).
Proof.
  unfold without. induction l as [| c l IH]; cbn [until_slash]; [intros [] |].
  destruct (Ascii.eqb_spec c "/") as [-> | Hne]; [intros [] |].
  intros [H | H]; [congruence | contradiction].
Qed.

Lemma split_at_dot_found (l r acc : list ascii) :
  without "." l ->
  split_at_dot (app l ("."%char :: r)) acc = Some (app (rev l) acc, r).
Proof.
  unfold without. revert acc. induction l as [| c l IH]; intros acc H; cbn [app split_at_dot rev].
  - reflexivity.
  - destruct (Ascii.eqb_spec c ".") as [-> | _]; [cbn in H; tauto |].
    rewrite IH by (cbn in H; tauto). now rewrite <- app_assoc.
Qed.

Lemma split_at_dot_none (l acc : list ascii) :
  without "." l -> split_at_dot l acc = None.
Proof.
  unfold without. revert acc. induction l as [| c l IH]; intros acc H; cbn [split_at_dot].
  - reflexivity.
  - destruct (Ascii.eqb_spec c ".") as [-> | _]; [cbn in H; tauto |].
    apply IH. cbn in H. tauto.
Qed.

Lemma split_at_dot_shape (l acc after r : list ascii) :
  split_at_dot l acc = Some (after, r) ->
  exists before, after = app (rev before) acc /\ l = app before ("."%char :: r)
                 /\ without "." before.
Proof.
  unfold without. revert acc. induction l as [| c l IH]; intros acc; cbn [split_at_dot].
  - discriminate.
  - destruct (Ascii.eqb_spec c ".") as [-> | Hne].
    + intros [= <- <-]. exists []. repeat split. intros [].
    + intros H. destruct (IH _ H) as (before & -> & -> & Hno).
      exists (c :: before). cbn [rev app]. rewrite <- app_assoc. repeat split.
      intros [Hc | Hin]; [congruence | contradiction].
Qed.

Lemma without_app (c : ascii) (a b : list ascii) :
  without c (app a b) <-> without c a /\ without c b.
Proof. unfold without. rewrite in_app_iff. tauto. Qed.

Lemma without_rev (c : ascii) (l : list ascii) : without c (rev l) <-> without c l.
Proof. unfold without. now rewrite <- in_rev. Qed.

(** The extension of a name made of a plain, non-empty stem, a dot and a
    plain rest is the dot and the rest. *)
Lemma extname_of_stem (stem rest : list ascii) :
  stem <> [] -> without "." stem -> without "/" stem ->
  without "." rest -> without "/" rest ->
  extname (JS.str (app stem ("."%char :: rest))) = JS.str ("."%char :: rest).
Proof.
  intros Hne Hdot Hslash Hrdot Hrslash. unfold extname. rewrite chars_str.
  rewrite rev_app_distr. cbn [rev]. rewrite <- app_assoc. cbn [app].
  assert (Hwhole : without "/" (app (rev rest) ("."%char :: rev stem))).
  { apply without_app. split; [now apply without_rev |].
    unfold without. cbn [In]. intros [H | H]; [discriminate |].
    now apply (proj2 (without_rev "/" stem) Hslash). }
  assert (Hskip : skip_slashes (app (rev rest) ("."%char :: rev stem))
                  = app (rev rest) ("."%char :: rev stem)).
  { destruct (rev rest) as [| c l] eqn:E; cbn [app].
    - apply skip_slashes_head. discriminate.
    - apply skip_slashes_head. intros ->. apply Hwhole. now left. }
  rewrite Hskip, (until_slash_without Hwhole).
  rewrite split_at_dot_found by now apply without_rev.
  rewrite rev_involutive, app_nil_r.
  destruct (rev stem) as [| c l] eqn:E.
  - apply (f_equal (@rev ascii)) in E. rewrite rev_involutive in E. now destruct Hne.
  - destruct rest as [| d rest]; [| reflexivity].
    destruct (Ascii.eqb_spec c ".") as [-> | Hc].
    + exfalso. apply (proj2 (without_rev "." stem) Hdot). rewrite E. now left.
    + destruct c as [[] [] [] [] [] [] [] []], l; try reflexivity; now destruct Hc.
Qed.

Lemma extname_shape (path : string) :
  extname path = ""
  \/ exists rest,
       extname path = JS.str ("."%char :: rest) /\ without "." rest /\ without "/" rest.
Proof.
  unfold extname.
  pose proof (until_slash_no_slash (skip_slashes (rev (JS.chars path)))) as Hslash.
  destruct (split_at_dot (until_slash (skip_slashes (rev (JS.chars path)))) [])
    as [[after r] |] eqn:E; [| now left].
  apply split_at_dot_shape in E. destruct E as (before & -> & Hsegment & Hdot).
  rewrite Hsegment in Hslash. apply without_app in Hslash. destruct Hslash as [Hslash _].
  rewrite app_nil_r.
  assert (Hrest : without "." (rev before) /\ without "/" (rev before))
    by (split; now apply without_rev).
  destruct (rev before) as [| a after].
  - destruct r as [| c r]; [now left |].
    destruct c as [[] [] [] [] [] [] [] []], r;
      first [now left | right; exists []; split; [reflexivity | exact Hrest]].
  - destruct r as [| c r]; [now left |].
    right. exists (a :: after). split; [reflexivity | exact Hrest].
Qed.

Lemma extname_plain (name : string) : without "." (JS.chars name) -> extname name = "".
Proof.
  intros Hdot. destruct (extname_shape name) as [H | (rest & H & _)]; [exact H |].
  exfalso. revert H. unfold extname.
  destruct (split_at_dot (until_slash (skip_slashes (rev (JS.chars name)))) [])
    as [[after r] |] eqn:E.
  - intros _. apply split_at_dot_shape in E. destruct E as (before & _ & Hsegment & _).
    assert (Hin : In "."%char (until_slash (skip_slashes (rev (JS.chars name)))))
      by (rewrite Hsegment; apply in_elt).
    apply Hdot. apply in_rev.
    assert (Hsub : forall l c, In c (until_slash l) -> In c l).
    { induction l as [| x l IH]; cbn [until_slash]; [tauto |].
      intros c. destruct (Ascii.eqb x "/"); [intros [] |].
      intros [-> | H]; [now left | right; now apply IH]. }
    assert (Hsub' : forall l c, In c (skip_slashes l) -> In c l).
    { induction l as [| x l IH]; cbn [skip_slashes]; [tauto |].
      intros c. destruct (Ascii.eqb x "/"); [intros H; right; now apply IH | tauto]. }
    now apply Hsub', Hsub.
  - intros H. apply (f_equal JS.chars) in H. rewrite chars_str in H. discriminate.
Qed.

Lemma plain_append (a b : string) : plain a -> plain b -> plain (a ++ b).
Proof.
  unfold plain. rewrite chars_append, !without_app. tauto.
Qed.

Lemma plain_dash : plain "-".
Proof. split; intros [H | []]; discriminate. Qed.

Lemma append_chars (s : string) (l : list ascii) :
  s ++ JS.str l = JS.str (app (JS.chars s) l).
Proof.
  rewrite <- (str_chars (s ++ JS.str l)), chars_append, chars_str. reflexivity.
Qed.

Lemma append_associative (a b c : string) : (a ++ b) ++ c = a ++ (b ++ c).
Proof. induction a as [| x a IH]; cbn [append]; [reflexivity | now rewrite IH]. Qed.

Lemma append_empty (a : string) : a ++ "" = a.
Proof. induction a as [| x a IH]; cbn [append]; [reflexivity | now rewrite IH]. Qed.

(** X22: the name an upload is stored under has the extension of the
    original name. *)
Theorem stored_filename_keeps_the_extension (fieldname now random originalname : string) :
  plain fieldname -> plain now -> plain random ->
  extname (stored_filename fieldname now random originalname) = extname originalname.
Proof.
  intros Hfield Hnow Hrandom. unfold stored_filename.
  assert (Hstem : plain (fieldname ++ "-" ++ (now ++ "-" ++ random))).
  { repeat apply plain_append; assumption || apply plain_dash. }
  assert (Hne : JS.chars (fieldname ++ "-" ++ (now ++ "-" ++ random)) <> []).
  { rewrite chars_append. destruct (JS.chars fieldname); discriminate. }
  replace (fieldname ++ "-" ++ (now ++ "-" ++ random) ++ extname originalname)
    with ((fieldname ++ "-" ++ (now ++ "-" ++ random)) ++ extname originalname).
  2: { now rewrite !append_associative. }
  generalize dependent (fieldname ++ "-" ++ (now ++ "-" ++ random)). intros stem [Hdot Hslash] Hne.
  destruct (extname_shape originalname) as [-> | (rest & -> & Hrdot & Hrslash)].
  - rewrite append_empty. now apply extname_plain.
  - rewrite append_chars. now apply extname_of_stem.
Qed.

Lemma stored_filename_keeps_the_extension_witness :
  extname (stored_filename "file" "1700000000000" "123456789" "Well Logs.XLSX")
  = extname "Well Logs.XLSX".
Proof.
  apply stored_filename_keeps_the_extension;
    split; unfold without; cbn; intuition discriminate.
Defined.

Lemma lower_plain (l : list ascii) :
  without "." (map JS.lower_char l) -> without "/" (map JS.lower_char l) ->
  without "." l /\ without "/" l.
Proof.
  unfold without. intros Hdot Hslash. split; intros Hin.
  - apply Hdot. apply in_map_iff. exists "."%char. split; [reflexivity | exact Hin].
  - apply Hslash. apply in_map_iff. exists "/"%char. split; [reflexivity | exact Hin].
Qed.

(** X23: a file named by a plain, non-empty stem, a dot and [xlsx] or
    [xls] in any mix of upper and lower case has an allowed extension; a
    name without a dot has not. *)
Theorem allowed_extension_any_case (stem ext : string) :
  (stem <> "" -> plain stem ->
   JS.toLowerCase ext = "xlsx" \/ JS.toLowerCase ext = "xls" ->
   extension_allowed {| originalname := stem ++ "." ++ ext |} = true)
  /\ (without "." (JS.chars stem) ->
      extension_allowed {| originalname := stem |} = false).
Proof.
  unfold extension_allowed. cbn [originalname]. split.
  - intros Hne [Hdot Hslash] Hext.
    assert (Hplain : without "." (JS.chars ext) /\ without "/" (JS.chars ext)).
    { apply lower_plain.
      - destruct Hext as [H | H]; apply (f_equal JS.chars) in H; unfold JS.toLowerCase in H;
          rewrite chars_str in H; rewrite H; unfold without; cbn; intuition discriminate.
      - destruct Hext as [H | H]; apply (f_equal JS.chars) in H; unfold JS.toLowerCase in H;
          rewrite chars_str in H; rewrite H; unfold without; cbn; intuition discriminate. }
    destruct Hplain as [Hedot Heslash].
    assert (Hname : extname (stem ++ "." ++ ext) = "." ++ ext).
    { rewrite <- (str_chars ext) at 1. change ("." ++ JS.str (JS.chars ext))
        with (JS.str ("."%char :: JS.chars ext)).
      rewrite append_chars, extname_of_stem; try assumption.
      - cbn [JS.str string_of_list_ascii]. fold (JS.str (JS.chars ext)). now rewrite str_chars.
      - intros H. apply Hne. rewrite <- (str_chars stem), H. reflexivity. }
    rewrite Hname.
    assert (Hlower : JS.toLowerCase ("." ++ ext) = "." ++ JS.toLowerCase ext) by reflexivity.
    rewrite Hlower. destruct Hext as [-> | ->]; reflexivity.
  - intros Hdot. now rewrite (extname_plain _ Hdot).
Qed.

Lemma allowed_extension_any_case_witness :
  extension_allowed {| originalname := "Well Logs" ++ "." ++ "XlsX" |} = true
  /\ extension_allowed {| originalname := "README" |} = false.
Proof.
  destruct (allowed_extension_any_case "Well Logs" "XlsX") as [Hyes _].
  destruct (allowed_extension_any_case "README" "") as [_ Hno].
  split.
  - apply Hyes; [discriminate | split; unfold without; cbn; intuition discriminate
                 | left; reflexivity].
  - apply Hno. unfold without; cbn; intuition discriminate.
Defined.

(** ** Questions after an upload *)

Lemma uploaded_json_is_an_upload (rs : list ProcessedRow) : an_upload_of rs (uploaded_json rs).
Proof. eexists. split; [reflexivity |]. split; reflexivity. Qed.

Lemma uploaded_fields (rs : list ProcessedRow) (uploadedData : json) :
  an_upload_of rs uploadedData ->
  and_prop uploadedData "statistics" = Normal (statistics_json (stats rs))
  /\ and_prop uploadedData "rows" = Normal (rows_json rs)
  /\ truthy_json uploadedData = true.
Proof.
  intros (fields & -> & Hrows & Hstatistics). unfold and_prop. cbn [truthy_json prop].
  now rewrite Hrows, Hstatistics.
Qed.

Lemma statistics_depthRange (st : Statistics.t) :
  and_prop (statistics_json st) "depthRange"
  = Normal (Obj [("min", json_number (Statistics.min (Statistics.depthRange st)));
                 ("max", json_number (Statistics.max (Statistics.depthRange st)))]).
Proof. reflexivity. Qed.

(** X24: after an upload, a question that mentions "depth", in any mix of
    upper and lower case, is answered from the depth range of the upload and
    its number of rows, whatever else it mentions and whatever well is
    selected. *)
Theorem depth_question_after_upload (s : string) (wellData uploadedData : json)
    (data : list RawRecord) :
  an_upload_of (processExcelData data) uploadedData ->
  JS.includes (JS.toLowerCase s) "depth" = true ->
  generateFallbackResponse (Prim (VStr s)) wellData uploadedData
  = Normal ("Based on your uploaded data, the depth range spans from "
            ++ text_of (json_number (Math_min (depths (processExcelData data))))
            ++ "m to " ++ text_of (json_number (Math_max (depths (processExcelData data))))
            ++ "m (total interval: "
            ++ JS.toFixed
                 (number_of (json_number (Math_max (depths (processExcelData data))))
                  - number_of (json_number (Math_min (depths (processExcelData data)))))%float 1
            ++ "m). The data contains " ++ JS.NumberToString (number_of_nat (List.length data))
            ++ " measurement points across this interval.").
Proof.
  intros Hupload Hdepth. unfold generateFallbackResponse.
  destruct (uploaded_fields Hupload) as (-> & -> & _).
  cbn [toLowerCase_of bind]. rewrite Hdepth, statistics_depthRange. cbn [bind truthy_json].
  unfold rows_json. cbn [prop bind lookup String.eqb Ascii.eqb Bool.eqb].
  rewrite length_map, processExcelData_length. reflexivity.
Qed.

Lemma depth_question_after_upload_witness :
  generateFallbackResponse (Prim (VStr "Which DEPTH did we reach?"))
    (Obj [("status", Prim VNull)]) (uploaded_json (processExcelData all_shale))
  = Normal "Based on your uploaded data, the depth range spans from 100m to 300m (total interval: 200.0m). The data contains 3 measurement points across this interval.".
Proof.
  rewrite (@depth_question_after_upload "Which DEPTH did we reach?"
             (Obj [("status", Prim VNull)]) (uploaded_json (processExcelData all_shale))
             all_shale);
    [| apply uploaded_json_is_an_upload | reflexivity].
  vm_compute. reflexivity.
Defined.

(** ** The database migration *)

Section MigrationFacts.

Variable DB : Type.
Variable table_info_error : DB -> option string.
Variable table_info : DB -> string + list json.
Variable run_sql : DB -> string -> DB * option string.

Lemma swap_tables_steps (db : DB) :
  exists k,
    (k <= 2)%nat
    /\ fst (swap_tables run_sql db)
       = run_each run_sql (firstn k [drop_old_table; rename_new_table]) db
    /\ (k = 0%nat -> False)
    /\ (snd (swap_tables run_sql db) = Resolved -> k = 2%nat).
Proof.
  unfold swap_tables, run_each.
  destruct (run_sql db drop_old_table) as [db1 [err |]] eqn:E1.
  - exists 1%nat. cbn [firstn fold_left fst snd]. rewrite E1.
    repeat split; try lia; discriminate.
  - destruct (run_sql db1 rename_new_table) as [db2 [err |]] eqn:E2;
      exists 2%nat; cbn [firstn fold_left fst snd]; rewrite E1; cbn [fst]; rewrite E2;
      repeat split; try lia.
Qed.

Lemma migrate_steps (db : DB) :
  exists k,
    (1 <= k <= 4)%nat
    /\ fst (migrate run_sql db) = run_each run_sql (firstn k migration_statements) db
    /\ (snd (migrate run_sql db) = Resolved -> k = 4%nat)
    /\ ((3 <= k)%nat -> snd (run_sql db create_new_table) = None /\ copied run_sql db).
Proof.
  unfold migrate, copied, migration_statements.
  destruct (run_sql db create_new_table) as [db1 [err |]] eqn:E1; cbn [fst snd].
  - exists 1%nat. unfold run_each. cbn [firstn fold_left fst snd]. rewrite E1.
    repeat split; try lia; discriminate.
  - assert (Hswap : forall db2,
               fst (run_sql db1 copy_rows) = db2 ->
               exists k,
                 (1 <= k <= 4)%nat
                 /\ fst (swap_tables run_sql db2)
                    = run_each run_sql (firstn k migration_statements) db
                 /\ (snd (swap_tables run_sql db2) = Resolved -> k = 4%nat)
                 /\ (3 <= k)%nat).
    { intros db2 Hdb2. destruct (swap_tables_steps db2) as (k & Hk & Hstate & Hpos & Hres).
      exists (2 + k)%nat. split; [lia |]. split; [| split; [intros H; apply Hres in H; lia |]].
      - rewrite Hstate. unfold run_each, migration_statements.
        cbn [Nat.add firstn fold_left]. rewrite E1. cbn [fst]. now rewrite Hdb2.
      - destruct k; [now destruct Hpos | lia]. }
    destruct (run_sql db1 copy_rows) as [db2 [err |]] eqn:E2; cbn [fst snd] in *.
    + destruct (JS.includes err "no such table") eqn:Hmissing; cbn [negb].
      * destruct (Hswap db2 eq_refl) as (k & Hk & Hstate & Hres & Hthree).
        exists k. repeat split; try assumption; lia.
      * exists 2%nat. unfold run_each. cbn [firstn fold_left fst snd]. rewrite E1.
        cbn [fst]. rewrite E2. repeat split; try lia; discriminate.
    + destruct (Hswap db2 eq_refl) as (k & Hk & Hstate & Hres & Hthree).
      exists k. repeat split; try assumption; lia.
Qed.

(** X25: a migration runs a beginning of the four statements, create,
    copy, drop, rename, in this order and nothing else; none when the table
    has the new columns or lacks the old one; the old table is dropped only
    when the new one was created and the copy went through or failed for
    want of the old table; and the promise is resolved only when no
    statement was run or all four were. *)
Theorem migration_is_stepwise (db db' : DB) (outcome : Migration) :
  runDatabaseMigrations table_info_error table_info run_sql db = Normal (db', outcome) ->
  exists k,
    (k <= 4)%nat
    /\ db' = run_each run_sql (firstn k migration_statements) db
    /\ (outcome = Resolved -> k = 0%nat \/ k = 4%nat)
    /\ ((3 <= k)%nat -> snd (run_sql db create_new_table) = None /\ copied run_sql db)
    /\ (forall columns names,
          table_info db = inr columns ->
          column_names columns = Normal names ->
          names_include names "rock_composition" = false
          \/ names_include names "shale_percent" = true ->
          k = 0%nat).
Proof.
  unfold runDatabaseMigrations.
  assert (Hnone : forall r,
             (db, r) = (db', outcome) ->
             (r = Resolved \/ exists err, r = Rejected_with err) ->
             exists k,
               (k <= 4)%nat
               /\ db' = run_each run_sql (firstn k migration_statements) db
               /\ (outcome = Resolved -> k = 0%nat \/ k = 4%nat)
               /\ ((3 <= k)%nat ->
                   snd (run_sql db create_new_table) = None /\ copied run_sql db)
               /\ k = 0%nat).
  { intros r [= <- <-] _. exists 0%nat. repeat split; try lia; try (now left). }
  destruct (table_info_error db) as [err |].
  - intros [= H]. destruct (Hnone (Rejected_with err)) as (k & Ha & Hb & Hc & Hd & He);
      [congruence | right; now exists err |].
    exists k. split; [exact Ha |]. split; [exact Hb |]. split; [exact Hc |].
      split; [exact Hd | intros; exact He].
  - destruct (table_info db) as [err | columns] eqn:Hinfo.
    + intros [= H]. destruct (Hnone (Rejected_with err)) as (k & Ha & Hb & Hc & Hd & He);
        [congruence | right; now exists err |].
      exists k. split; [exact Ha |]. split; [exact Hb |]. split; [exact Hc |].
      split; [exact Hd | intros; exact He].
    + destruct (column_names columns) as [names | thrown] eqn:Hnames; cbn [bind];
        [| discriminate].
      destruct (names_include names "rock_composition" && negb (names_include names "shale_percent"))
        eqn:Hold.
      * intros [= H]. destruct (migrate_steps db) as (k & Hk & Hstate & Hres & Hthree).
        exists k. split; [lia |]. split; [| split; [| split]].
        -- rewrite <- Hstate. now rewrite H.
        -- intros ->. right. apply Hres. now rewrite H.
        -- exact Hthree.
        -- intros columns' names' [= <-] Hn Hnew. rewrite Hnames in Hn.
           injection Hn as <-. apply andb_true_iff in Hold. destruct Hold as [H1 H2].
           apply negb_true_iff in H2. destruct Hnew; congruence.
      * intros [= H]. destruct (Hnone Resolved) as (k & Ha & Hb & Hc & Hd & He);
          [congruence | now left |].
        exists k. split; [exact Ha |]. split; [exact Hb |]. split; [exact Hc |].
      split; [exact Hd | intros; exact He].
Qed.

End MigrationFacts.

Lemma migration_is_stepwise_witness :
  exists k,
    (k <= 4)%nat
    /\ migration_statements = run_each log_sql (firstn k migration_statements) []
    /\ (Resolved = Resolved -> k = 0%nat \/ k = 4%nat)
    /\ ((3 <= k)%nat -> snd (log_sql [] create_new_table) = None /\ copied log_sql [])
    /\ (forall columns names,
          @inr string (list json) old_columns = inr columns ->
          column_names columns = Normal names ->
          names_include names "rock_composition" = false
          \/ names_include names "shale_percent" = true ->
          k = 0%nat).
Proof.
  apply (@migration_is_stepwise (list string) (fun _ => None)
           (fun _ => @inr string (list json) old_columns) log_sql [] migration_statements
           Resolved).
  reflexivity.
Defined.

Lemma statistics_fields (st : Statistics.t) :
  and_prop (statistics_json st) "rockTypeDistribution"
  = Normal (Obj (map (fun entry => (fst entry, json_number (snd entry)))
                     (Statistics.rockTypeDistribution st)))
  /\ and_prop (statistics_json st) "averages"
     = Normal (Obj [("DT", json_number (Statistics.DT (Statistics.averages st)));
                    ("GR", json_number (Statistics.GR (Statistics.averages st)))]).
Proof. split; reflexivity. Qed.

Lemma statistics_props (st : Statistics.t) :
  prop (statistics_json st) "rockTypeDistribution"
  = Normal (Obj (map (fun entry => (fst entry, json_number (snd entry)))
                     (Statistics.rockTypeDistribution st)))
  /\ prop (statistics_json st) "averages"
     = Normal (Obj [("DT", json_number (Statistics.DT (Statistics.averages st)));
                    ("GR", json_number (Statistics.GR (Statistics.averages st)))])
  /\ prop (statistics_json st) "depthRange"
     = Normal (Obj [("min", json_number (Statistics.min (Statistics.depthRange st)));
                    ("max", json_number (Statistics.max (Statistics.depthRange st)))]).
Proof. repeat split. Qed.

Lemma insights_of_an_upload (rs : list ProcessedRow) (uploadedData : json) :
  an_upload_of rs uploadedData ->
  exists text, generateDataInsights uploadedData = Normal text.
Proof.
  intros Hupload. unfold generateDataInsights.
  destruct (uploaded_fields Hupload) as (-> & -> & ->). cbn [bind].
  change (truthy_json (rows_json rs)) with true.
  change (truthy_json (statistics_json (stats rs))) with true.
  cbn [negb orb]. destruct (statistics_props (stats rs)) as (-> & -> & ->).
  cbn [bind prop lookup String.eqb Ascii.eqb Bool.eqb Object_entries].
  destruct (sort_by_count _) as [| dominantRock others]; cbn [bind rows_json prop].
  - destruct (truthy_json (json_number (Statistics.DT (Statistics.averages (stats rs))))) eqn:HDT;
      destruct (truthy_json (json_number (Statistics.GR (Statistics.averages (stats rs))))) eqn:HGR;
      unfold json_number in *;
      destruct (PrimFloat.is_finite (Statistics.DT (Statistics.averages (stats rs))));
      destruct (PrimFloat.is_finite (Statistics.GR (Statistics.averages (stats rs))));
      try discriminate; cbn [bind toFixed_of num]; eexists; reflexivity.
  - destruct (truthy_json (json_number (Statistics.DT (Statistics.averages (stats rs))))) eqn:HDT;
      destruct (truthy_json (json_number (Statistics.GR (Statistics.averages (stats rs))))) eqn:HGR;
      unfold json_number in *;
      destruct (PrimFloat.is_finite (Statistics.DT (Statistics.averages (stats rs))));
      destruct (PrimFloat.is_finite (Statistics.GR (Statistics.averages (stats rs))));
      try discriminate; cbn [bind toFixed_of num]; eexists; reflexivity.
Qed.

Lemma recommendations_of_an_upload (rs : list ProcessedRow) (uploadedData : json) :
  an_upload_of rs uploadedData ->
  exists text, generateDrillingRecommendations uploadedData = Normal text.
Proof.
  intros Hupload. unfold generateDrillingRecommendations.
  destruct (uploaded_fields Hupload) as (-> & _ & _).
  cbn [bind]. change (truthy_json (statistics_json (stats rs))) with true. cbn [negb].
  unfold recommendations_for. destruct (statistics_props (stats rs)) as (-> & -> & _).
  cbn [bind prop Object_values Object_entries lookup String.eqb Ascii.eqb Bool.eqb].
  eexists. reflexivity.
Qed.

Lemma anomalies_found (data : list RawRecord) :
  exists anomalies,
    detectDataAnomalies (rows_json (processExcelData data)) = Normal anomalies.
Proof.
  unfold rows_json. rewrite detectDataAnomalies_array.
  destruct (detect_rows_findings [] (processed_rows_are_clean data 0)) as (found & Hrun & _).
  fold (processExcelData data) in Hrun. cbn [app] in Hrun.
  destruct (map row_json (processExcelData data)); [now exists [] |].
  rewrite Hrun. cbn [bind]. now eexists.
Qed.

Ltac answer_found := try (eexists; reflexivity).

Lemma fallback_returns_after_upload (s : string) (wellData uploadedData : json)
    (data : list RawRecord) :
  an_upload_of (processExcelData data) uploadedData ->
  finite_averages (processExcelData data) ->
  exists text, generateFallbackResponse (Prim (VStr s)) wellData uploadedData = Normal text.
Proof.
  intros Hupload [HDT HGR].
  destruct (insights_of_an_upload Hupload) as [insights Hinsights].
  destruct (recommendations_of_an_upload Hupload) as [recs Hrecs].
  destruct (anomalies_found data) as [anomalies Hanomalies].
  assert (HnDT : json_number (Statistics.DT (Statistics.averages (stats (processExcelData data))))
                 = num (Statistics.DT (Statistics.averages (stats (processExcelData data)))))
    by (unfold json_number; now rewrite HDT).
  assert (HnGR : json_number (Statistics.GR (Statistics.averages (stats (processExcelData data))))
                 = num (Statistics.GR (Statistics.averages (stats (processExcelData data)))))
    by (unfold json_number; now rewrite HGR).
  unfold generateFallbackResponse.
  destruct (uploaded_fields Hupload) as (-> & -> & _).
  cbn [toLowerCase_of bind].
  rewrite Hinsights, Hrecs, Hanomalies.
  destruct (statistics_fields (stats (processExcelData data))) as (-> & ->).
  rewrite statistics_depthRange, HnDT, HnGR.
  change (truthy_json (rows_json (processExcelData data))) with true.
  change (truthy_json (statistics_json (stats (processExcelData data)))) with true.
  repeat (lazymatch goal with
          | |- context [JS.includes ?a ?b] => destruct (JS.includes a b)
          end;
          cbn [orb negb bind truthy_json prop lookup String.eqb Ascii.eqb Bool.eqb
               Object_values Object_entries toFixed_of num rows_json];
          answer_found).
  all: destruct (0 <? List.length anomalies)%nat; eexists; reflexivity.
Qed.

(** X26: after an upload whose average [DT] and [GR] are finite, the
    fallback responder has an answer to every text message, whatever it
    mentions and whatever well is selected. *)
Theorem fallback_answers_after_upload (s : string) (wellData uploadedData : json)
    (data : list RawRecord) :
  an_upload_of (processExcelData data) uploadedData ->
  finite_averages (processExcelData data) ->
  exists text, generateFallbackResponse (Prim (VStr s)) wellData uploadedData = Normal text.
Proof. apply fallback_returns_after_upload. Qed.

Lemma fallback_answers_after_upload_witness :
  exists text,
    generateFallbackResponse (Prim (VStr "Any trouble ahead?")) (Obj [("status", Prim VNull)])
      (uploaded_json (processExcelData all_shale))
    = Normal text.
Proof.
  apply (@fallback_answers_after_upload _ _ _ all_shale);
    [apply uploaded_json_is_an_upload | split; vm_compute; reflexivity].
Defined.

(** X27: with such an upload, a chat request with a non-empty text
    message is always answered, whatever the well and the context sent
    along, whether the model answers or fails and whether the prompt could
    be built or not. *)
Theorem chat_answers_after_upload (env : Environment) (fields : list (string * json))
    (s : string) (data : list RawRecord) :
  field fields "message" = Prim (VStr s) ->
  s <> "" ->
  an_upload_of (processExcelData data) (field fields "uploadedData") ->
  finite_averages (processExcelData data) ->
  exists answer, chat env (Obj fields) = Normal (Answer answer).
Proof.
  intros Hmessage Hs Hdata Hfinite.
  destruct (@fallback_returns_after_upload s (field fields "wellData")
              (field fields "uploadedData") data Hdata Hfinite) as [text Htext].
  unfold chat, chat_try, chat_catch. rewrite !prop_field. cbn [bind].
  rewrite Hmessage in *. rewrite Htext. cbn [truthy_json truthy bind].
  destruct (String.eqb_spec s "") as [-> | _]; [congruence |]. cbn [negb].
  destruct (buildContext _ _ _) as [context | thrown]; cbn [bind].
  - destruct (generate env context (Prim (VStr s))) as [content | aiError]; cbn [bind];
      eexists; reflexivity.
  - eexists. reflexivity.
Qed.

Lemma chat_answers_after_upload_witness :
  exists answer,
    chat (unreachable_model "API Error" "1700000000000" "k3x9q2m1z" "2024-01-01T00:00:00.000Z")
         (Obj [("message", Prim (VStr "What is the depth?"));
               ("wellData", Obj [("status", Prim VNull)]);
               ("uploadedData", uploaded_json (processExcelData all_shale))])
    = Normal (Answer answer).
Proof.
  apply (@chat_answers_after_upload _
           [("message", Prim (VStr "What is the depth?"));
            ("wellData", Obj [("status", Prim VNull)]);
            ("uploadedData", uploaded_json (processExcelData all_shale))]
           "What is the depth?" all_shale);
    [reflexivity | discriminate | apply uploaded_json_is_an_upload
     | split; vm_compute; reflexivity].
Defined.
